(** * UG96 modem driver (Espruino): a shallow embedding of [UG96.js]

    The driver turns the AT-command serial link of a Quectel UG96 modem
    into up to twelve virtual TCP sockets.  This file embeds

    - the JavaScript string and number primitives the driver relies on
      ([substr], [substring], [indexOf], [split], [0|x], number printing),
    - the socket multiplexer ([netCallbacks]: create, recv, send),
    - the incoming-data reassembly handlers ([receiveHandler],
      [receiveHandler2]),
    - the lifecycle callback of [init], and the callbacks of [connect],
      [getVersion], [getIP] and the geolocation poller,
    - the close notification handler, [reset], and the timers and
      handlers through which [create], [send] and [close] complete,
    - the packet codec and the data handler of the MQTT client
      ([MQTT.js]) that reads from the sockets,

    and states the properties of the driver over these definitions.

    Conventions.  JavaScript numbers that the driver manipulates are
    lengths, indices and counters: they are integers and are modelled in
    [Z].  Espruino strings are sequences of 8-bit characters and are
    modelled by [string].  [undefined] is [None].  [console.log] output
    is diagnostic only and is not part of the model. *)

From Stdlib Require Import ZArith Lia Ascii String List Bool.
From stdpp Require Import base option list gmap strings pretty.

Local Open Scope Z_scope.

(** ** JavaScript primitives *)

Module JS.

(** [s.length] *)
Definition len (s : string) : Z := Z.of_nat (String.length s).

(** [s.substr(start, length)]: a negative [start] counts from the end,
    [length] is clamped to what is available. *)
Definition substr (s : string) (start length : Z) : string :=
  let size := len s in
  let st := if start <? 0 then Z.max (size + start) 0 else Z.min start size in
  let ln := Z.min (Z.max length 0) size in
  let en := Z.min (st + ln) size in
  String.substring (Z.to_nat st) (Z.to_nat (en - st)) s.

(** [s.substr(start)]: the length is absent, everything up to the end. *)
Definition substr_from (s : string) (start : Z) : string :=
  substr s start (len s).

(** [s.substring(a, b)]: both ends clamped to [0, length], swapped when
    out of order. *)
Definition substring (s : string) (a b : Z) : string :=
  let size := len s in
  let a' := Z.min (Z.max a 0) size in
  let b' := Z.min (Z.max b 0) size in
  let lo := Z.min a' b' in
  let hi := Z.max a' b' in
  String.substring (Z.to_nat lo) (Z.to_nat (hi - lo)) s.

(** Whether [s] begins with [p]. *)
Fixpoint is_prefix (p s : string) : bool :=
  match p with
  | EmptyString => true
  | String a p' =>
      match s with
      | EmptyString => false
      | String b s' => Ascii.eqb a b && is_prefix p' s'
      end
  end.

(** [s.indexOf(needle)]: position of the first occurrence, [-1] if none. *)
Fixpoint indexOf_from (i : Z) (needle s : string) : Z :=
  if is_prefix needle s then i
  else match s with
       | EmptyString => -1
       | String _ s' => indexOf_from (i + 1) needle s'
       end.

Definition indexOf (s needle : string) : Z := indexOf_from 0 needle s.

(** [s.split(sep)] for a one-character separator. *)
Fixpoint split (sep : ascii) (s : string) : list string :=
  match s with
  | EmptyString => [EmptyString]
  | String c s' =>
      if Ascii.eqb c sep then EmptyString :: split sep s'
      else match split sep s' with
           | h :: t => String c h :: t
           | [] => [String c EmptyString]
           end
  end.

(** ToInt32: wrap an integer into the signed 32-bit range. *)
Definition to_int32 (z : Z) : Z := (z + 2 ^ 31) mod 2 ^ 32 - 2 ^ 31.

Definition digit_of (c : ascii) : option Z := Z.of_nat <$> Ascii.is_nat c.

Fixpoint decimal_acc (acc : Z) (s : string) : option Z :=
  match s with
  | EmptyString => Some acc
  | String c s' =>
      match digit_of c with
      | Some d => decimal_acc (10 * acc + d) s'
      | None => None
      end
  end.

(** ToNumber on a string, for the literal forms the modem and the driver
    itself produce: the empty string (0) and an unsigned run of decimal
    digits denoting an integer that a double represents exactly.  Other
    numeric literal forms (sign, fraction, exponent, radix prefix,
    surrounding white space) are outside the model: [None]. *)
Definition to_number (s : string) : option Z :=
  match decimal_acc 0 s with
  | Some v => if v <=? 2 ^ 53 then Some v else None
  | None => None
  end.

(** [0|v] where [v] is an array element: a string, or [undefined], which
    converts to NaN and then to 0. *)
Definition bitor_zero (v : option string) : option Z :=
  match v with
  | None => Some 0
  | Some s => to_int32 <$> to_number s
  end.

(** Number to string, for integers. *)
Definition of_number (z : Z) : string := pretty z.

(** Truthiness of a value that is a string or [undefined]. *)
Definition truthy (v : option string) : bool :=
  match v with
  | None => false
  | Some EmptyString => false
  | Some _ => true
  end.

(** [r === "lit"] for a value that is a string or [undefined]. *)
Definition eq_lit (v : option string) (lit : string) : bool :=
  match v with
  | None => false
  | Some s => String.eqb s lit
  end.

(** ['text' + r]: [undefined] prints as the word. *)
Definition show (v : option string) : string :=
  match v with
  | None => "undefined"
  | Some s => s
  end.

End JS.

Definition CR : ascii := "013"%char.
Definition LF : ascii := "010"%char.
Definition DQ : ascii := "034"%char.
Definition CRLF : string := String CR (String LF EmptyString).

(** ** Driver state *)

(** [socks[i]]: [undefined] is an unused slot ([None]). *)
Inductive sock_state :=
| Ready        (* true: connected and ready *)
| Wait         (* "Wait": waiting for connection *)
| ToBeClosed.  (* "tobeclosed": closed, data still in the pipe *)

Definition MAXSOCKETS : Z := 12.

(** Commands handed to [at.cmd]; the comment gives the text sent. *)
Inductive at_command :=
| AT_QIOPEN (sckt : Z) (host : string) (port : Z)
    (* 'AT+QIOPEN=1,'+sckt+',"TCP",'+JSON.stringify(host)+','+port+',0,1\r\n' *)
| AT_QIGETERROR               (* "AT+QIGETERROR\r\n" *)
| AT_QICLOSE (sckt : Z)       (* 'AT+QICLOSE='+sckt+"\r\n" *)
| AT_CIPSERVER (port : Z).    (* "AT+CIPSERVER=1,"+port+"\r\n" *)

(** The closures handed to [at.cmd], [setTimeout], [at.register] and
    [at.registerLine], each with the variables it captures. *)
Inductive cmd_handler :=
| OpenSocketCb (sckt : Z) (host : string) (port : Z) (counter : Z)
| GetErrorCb
| CloseSocketCb (socket : Z)
| CreateCloseCb (sckt : Z)
| CreateServerCb (sckt : Z).

Inductive timer_action :=
| RepeatOpenSocket (sckt : Z) (host : string) (port : Z) (counter : Z)
| DelayedOpenSocket (sckt : Z) (host : string) (port : Z)
| CloseLater (socket : Z)
| AbortWaitingPrompt
| AbortWaitingModemRsp.

Inductive urc_handler :=
| PromptHandler (data : string) (idWaitingPrompt : Z).

Inductive line_handler :=
| SendOkHandler (idWaitingModemRsp : Z)
| SendFailHandler (sckt : Z) (idWaitingModemRsp : Z)
| SendErrorHandler (sckt : Z) (idWaitingModemRsp : Z).

Record issued_cmd := IssuedCmd {
  cmd_text : at_command;
  cmd_timeout : Z;
  cmd_cb : cmd_handler
}.

(** The module-level variables of the driver together with what the
    driver has asked of the AT engine and of the timer service.

    [socks] is only ever indexed by numbers: it is the list of its
    elements, holes being [None].  [sockData] is also indexed by the id
    field cut out of a notification, which is a string: it is kept as the
    map from property names to values, element [i] living under the
    name [String(i)]. *)
Record driver := Driver {
  socks : list (option sock_state);
  sockData : gmap string string;
  busy : bool;
  dbg : bool;
  at_isBusy : bool;                          (* at.isBusy() *)
  at_cmds : list issued_cmd;                 (* at.cmd calls, oldest first *)
  at_written : list string;                  (* at.write calls, oldest first *)
  at_handlers : gmap string urc_handler;     (* at.register / at.unregister *)
  at_lineHandlers : gmap string line_handler;(* at.registerLine / unregisterLine *)
  timers : gmap Z (Z * timer_action);        (* pending setTimeout: id -> delay, action *)
  next_timer : Z
}.

Definition set_socks (f : list (option sock_state) -> list (option sock_state))
    (st : driver) : driver :=
  Driver (f (socks st)) (sockData st) (busy st) (dbg st) (at_isBusy st)
    (at_cmds st) (at_written st) (at_handlers st) (at_lineHandlers st)
    (timers st) (next_timer st).

Definition set_sockData (f : gmap string string -> gmap string string)
    (st : driver) : driver :=
  Driver (socks st) (f (sockData st)) (busy st) (dbg st) (at_isBusy st)
    (at_cmds st) (at_written st) (at_handlers st) (at_lineHandlers st)
    (timers st) (next_timer st).

Definition set_busy (b : bool) (st : driver) : driver :=
  Driver (socks st) (sockData st) b (dbg st) (at_isBusy st)
    (at_cmds st) (at_written st) (at_handlers st) (at_lineHandlers st)
    (timers st) (next_timer st).

(** [at.cmd(text, timeout, cb)] *)
Definition at_cmd (c : at_command) (timeout : Z) (cb : cmd_handler)
    (st : driver) : driver :=
  Driver (socks st) (sockData st) (busy st) (dbg st) (at_isBusy st)
    (at_cmds st ++ [IssuedCmd c timeout cb]) (at_written st) (at_handlers st)
    (at_lineHandlers st) (timers st) (next_timer st).

(** [at.write(text)] *)
Definition at_write (text : string) (st : driver) : driver :=
  Driver (socks st) (sockData st) (busy st) (dbg st) (at_isBusy st)
    (at_cmds st) (at_written st ++ [text]) (at_handlers st)
    (at_lineHandlers st) (timers st) (next_timer st).

Definition set_handlers (f : gmap string urc_handler -> gmap string urc_handler)
    (st : driver) : driver :=
  Driver (socks st) (sockData st) (busy st) (dbg st) (at_isBusy st)
    (at_cmds st) (at_written st) (f (at_handlers st)) (at_lineHandlers st)
    (timers st) (next_timer st).

Definition set_lineHandlers
    (f : gmap string line_handler -> gmap string line_handler)
    (st : driver) : driver :=
  Driver (socks st) (sockData st) (busy st) (dbg st) (at_isBusy st)
    (at_cmds st) (at_written st) (at_handlers st) (f (at_lineHandlers st))
    (timers st) (next_timer st).

(** [at.register(prefix, h)], [at.unregister(prefix)] and the line versions *)
Definition at_register (p : string) (h : urc_handler) : driver -> driver :=
  set_handlers (insert p h).
Definition at_unregister (p : string) : driver -> driver :=
  set_handlers (delete p).
Definition at_registerLine (l : string) (h : line_handler) : driver -> driver :=
  set_lineHandlers (insert l h).
Definition at_unregisterLine (l : string) : driver -> driver :=
  set_lineHandlers (delete l).

(** [setTimeout(action, delay)]: returns the identifier of the new timer. *)
Definition setTimeout (a : timer_action) (delay : Z) (st : driver) : driver * Z :=
  (Driver (socks st) (sockData st) (busy st) (dbg st) (at_isBusy st)
     (at_cmds st) (at_written st) (at_handlers st) (at_lineHandlers st)
     (<[next_timer st := (delay, a)]> (timers st)) (next_timer st + 1),
   next_timer st).

(** [clearTimeout(id)] *)
Definition clearTimeout (id : Z) (st : driver) : driver :=
  Driver (socks st) (sockData st) (busy st) (dbg st) (at_isBusy st)
    (at_cmds st) (at_written st) (at_handlers st) (at_lineHandlers st)
    (delete id (timers st)) (next_timer st).

(** Reading [arr[i]] of an array: a hole or an index outside it is
    [undefined]. *)
Definition arr_get {A} (l : list (option A)) (i : Z) : option A :=
  if i <? 0 then None else mjoin (l !! Z.to_nat i).

(** Writing [arr[i] = v]: the array grows, leaving holes, when [i] is past
    its end.  (The driver writes [socks[i]] only for ids it has read as
    defined or has just computed from the array: never at a negative [i].) *)
Fixpoint arr_set_nat {A} (l : list (option A)) (i : nat) (v : option A)
    : list (option A) :=
  match i, l with
  | O, [] => [v]
  | O, _ :: t => v :: t
  | S i', [] => None :: arr_set_nat [] i' v
  | S i', x :: t => x :: arr_set_nat t i' v
  end.

Definition arr_set {A} (l : list (option A)) (i : Z) (v : option A)
    : list (option A) :=
  if i <? 0 then l else arr_set_nat l (Z.to_nat i) v.

Definition sock (st : driver) (i : Z) : option sock_state := arr_get (socks st) i.

Definition set_sock (i : Z) (v : option sock_state) : driver -> driver :=
  set_socks (fun l => arr_set l i v).

Definition is_Wait (v : option sock_state) : bool :=
  match v with Some Wait => true | _ => false end.
Definition is_ToBeClosed (v : option sock_state) : bool :=
  match v with Some ToBeClosed => true | _ => false end.
Definition is_defined {A} (v : option A) : bool :=
  match v with Some _ => true | None => false end.

(** The property name under which an array keeps element [i]. *)
Definition key (i : Z) : string := JS.of_number i.

(** [sockData[k] = v] and [sockData[k] += x]; appending to a missing
    element concatenates onto the word "undefined". *)
Definition data_set (k : string) (v : string) : driver -> driver :=
  set_sockData (insert k v).

Definition data_append (k : string) (x : string) (st : driver) : driver :=
  data_set k (JS.show (sockData st !! k) +:+ x) st.

(** ** Opening and closing sockets *)

Definition openSocket (sckt : Z) (host : string) (port : Z) (counter : Z)
    (st : driver) : driver :=
  at_cmd (AT_QIOPEN sckt host port) 150000 (OpenSocketCb sckt host port counter) st.

Definition closeSocket (socket : Z) (st : driver) : driver :=
  if is_defined (sock st socket) then
    if busy st then fst (setTimeout (CloseLater socket) 1500 st)
    else if at_isBusy st then fst (setTimeout (CloseLater socket) 1500 st)
    else at_cmd (AT_QICLOSE socket) 1000 (CloseSocketCb socket) st
  else st.

(** What the callback of an [at.cmd] does with the line [d] ([None] on
    time-out).  The boolean tells whether it returned itself, that is,
    whether it keeps waiting for a further line. *)
Definition run_cmd_handler (h : cmd_handler) (d : option string) (st : driver)
    : driver * bool :=
  match h with
  | OpenSocketCb sckt host port counter =>
      let code c := JS.eq_lit d ("+QIOPEN: " +:+ JS.of_number sckt +:+ c) in
      if JS.eq_lit d "OK" then (st, true)
      else if code ",0" then (set_sock sckt (Some Ready) st, false)
      else if code ",565" then (set_sock sckt (Some ToBeClosed) st, false)
      else if code ",566" then
        if counter <? 5
        then (fst (setTimeout (RepeatOpenSocket sckt host port (counter + 1)) 3000 st), false)
        else (set_sock sckt (Some ToBeClosed) st, false)
      else if code ",563" then (set_sock sckt (Some Ready) st, false)
      else
        let st := if dbg st then at_cmd AT_QIGETERROR 1000 GetErrorCb st else st in
        (set_sock sckt (Some ToBeClosed) st, false)
  | GetErrorCb => (st, false)
  | CloseSocketCb socket =>
      if JS.eq_lit d "OK" then (set_sock socket None st, false)
      else (set_sock socket (Some ToBeClosed) st, false)
  | CreateCloseCb sckt => (set_sock sckt None st, false)
  | CreateServerCb sckt =>
      if JS.eq_lit d "OK" then (set_sock sckt (Some Ready) st, false)
      else (set_sock sckt None st, false)   (* and throws "CIPSERVER failed" *)
  end.

Definition abortWaitingPrompt (st : driver) : driver :=
  at_unregister ">" (set_busy false st).

Definition abortWaitingModemRsp (st : driver) : driver :=
  at_unregisterLine "ERROR"
    (at_unregisterLine "SEND FAIL"
       (at_unregisterLine "SEND OK" (set_busy false st))).

Definition run_timer (a : timer_action) (st : driver) : driver :=
  match a with
  | RepeatOpenSocket sckt host port counter => openSocket sckt host port counter st
  | DelayedOpenSocket sckt host port => openSocket sckt host port 0 st
  | CloseLater socket => closeSocket socket st
  | AbortWaitingPrompt => abortWaitingPrompt st
  | AbortWaitingModemRsp => abortWaitingModemRsp st
  end.

(** The handler [send] registers for the prompt: it writes the payload. *)
Definition run_urc_handler (h : urc_handler) (st : driver) : driver * string :=
  match h with
  | PromptHandler data idWaitingPrompt =>
      (at_write data (clearTimeout idWaitingPrompt (at_unregister ">" st)), "")
  end.

(** The three handlers [send] registers for the modem's verdict.  In the
    two failure handlers the statement [socks[sckt]=="tobeclosed"] is a
    comparison whose value is dropped: it changes nothing. *)
Definition run_line_handler (h : line_handler) (st : driver) : driver * string :=
  let finish id st :=
    set_busy false
      (clearTimeout id
         (at_unregisterLine "ERROR"
            (at_unregisterLine "SEND FAIL"
               (at_unregisterLine "SEND OK" st)))) in
  match h with
  | SendOkHandler id => (finish id st, "")
  | SendFailHandler sckt id =>
      let st := finish id st in
      let _ := is_ToBeClosed (sock st sckt) in
      (st, "")
  | SendErrorHandler sckt id =>
      let st := finish id st in
      let _ := is_ToBeClosed (sock st sckt) in
      (st, "")
  end.

(** ** The socket interface given to the network layer *)

Inductive recv_result :=
| Data (s : string)   (* a string, possibly empty *)
| CloseIt.            (* -1 *)

(** The first index [i] with [socks[i] === undefined], counting from [i]
    at the head of [l]: the loop [while (socks[sckt]!==undefined) sckt++]. *)
Fixpoint first_unused (l : list (option sock_state)) (i : Z) : Z :=
  match l with
  | [] => i
  | None :: _ => i
  | Some _ :: t => first_unused t (i + 1)
  end.

Module netCallbacks.

(** [host] is [None] when it is [undefined]: a server socket. *)
Definition create (host : option string) (port : Z) (st : driver) : driver * Z :=
  match host with
  | None =>
      let sckt := MAXSOCKETS in
      let st := set_sock sckt (Some Wait) st in
      let st := data_set (key sckt) "" st in
      let st := at_cmd (AT_CIPSERVER port) 10000 (CreateServerCb sckt) st in
      (st, MAXSOCKETS)
  | Some host =>
      let sckt := first_unused (socks st) 0 in
      let '(st, sckt) :=
        if sckt >=? MAXSOCKETS then
          let sckt := sckt - 1 in
          (at_cmd (AT_QICLOSE sckt) 1000 (CreateCloseCb sckt) st, sckt)
        else (st, sckt) in
      let st := set_sock sckt (Some Wait) st in
      let st := data_set (key sckt) "" st in
      let st :=
        if port =? 443
        then fst (setTimeout (DelayedOpenSocket sckt host port) 3000 st)
        else openSocket sckt host port 0 st in
      (st, sckt)
  end.


(** The lowest slot below [MAXSOCKETS] that has data but no state gets
    state [true] and is returned; [-1] when there is none. *)
Fixpoint accept_from (n : nat) (i : Z) (st : driver) : driver * Z :=
  match n with
  | O => (st, -1)
  | S n' =>
      if JS.truthy (sockData st !! key i) && negb (is_defined (sock st i))
      then (set_sock i (Some Ready) st, i)
      else accept_from n' (i + 1) st
  end.

Definition accept (sckt : Z) (st : driver) : driver * Z :=
  accept_from (Z.to_nat MAXSOCKETS) 0 st.

Definition recv (sckt : Z) (maxLen : Z) (st : driver) : driver * recv_result :=
  if at_isBusy st || is_Wait (sock st sckt) then (st, Data "")
  else if JS.truthy (sockData st !! key sckt) then
    let buf := JS.show (sockData st !! key sckt) in
    if JS.len buf >? maxLen then
      (data_set (key sckt) (JS.substr_from buf maxLen) st,
       Data (JS.substr buf 0 maxLen))
    else (data_set (key sckt) "" st, Data buf)
  else if negb (is_defined (sock st sckt)) then (st, CloseIt)
  else if is_ToBeClosed (sock st sckt) then (st, CloseIt)
  else (st, Data "").

Definition send (sckt : Z) (data : string) (st : driver) : driver * Z :=
  if busy st || at_isBusy st || is_Wait (sock st sckt) then (st, 0)
  else if is_ToBeClosed (sock st sckt) then (st, -1)
  else if negb (is_defined (sock st sckt)) then (st, -1)
  else if JS.len data >? 1460 then (st, -1)
  else
    let st := set_busy true st in
    let '(st, idWaitingPrompt) := setTimeout AbortWaitingPrompt 1000 st in
    let st := at_register ">" (PromptHandler data idWaitingPrompt) st in
    let '(st, idWaitingModemRsp) := setTimeout AbortWaitingModemRsp 1000 st in
    let st := at_registerLine "SEND OK" (SendOkHandler idWaitingModemRsp) st in
    let st := at_registerLine "SEND FAIL" (SendFailHandler sckt idWaitingModemRsp) st in
    let st := at_registerLine "ERROR" (SendErrorHandler sckt idWaitingModemRsp) st in
    let st := at_write ("AT+QISEND=" +:+ JS.of_number sckt +:+ "," +:+
                        JS.of_number (JS.len data) +:+ CRLF) st in
    (st, JS.len data).

End netCallbacks.

(** ** Incoming data: [+QIURC: "recv",<id>,<length><CR><LF><data>] *)

(** Both handlers return [None] only when the length field is a numeric
    literal outside [JS.to_number]'s domain. *)
Definition receiveHandler (line : string) (st : driver) : option (driver * string) :=
  let colon := JS.indexOf line CRLF in
  if colon <? 0 then Some (st, line)
  else
    let parms := JS.split "," (JS.substring line 15 colon) in
    let parms0 := JS.show (parms !! 0%nat) in
    parms1 ← JS.bitor_zero (parms !! 1%nat);
    let len := JS.len line - (colon + 2) in
    if len >=? parms1 then
      Some (data_append parms0 (JS.substr line (colon + 2) parms1) st,
            JS.substr_from line (colon + parms1 + 3))
    else
      Some (data_append parms0 (JS.substr line (colon + 2) len) st,
            "+D," +:+ parms0 +:+ "," +:+ JS.of_number (parms1 - len) +:+ ":").

Definition receiveHandler2 (line : string) (st : driver) : option (driver * string) :=
  let colon := JS.indexOf line ":" in
  if colon <? 0 then Some (st, line)
  else
    let parms := JS.split "," (JS.substring line 3 colon) in
    let parms0 := JS.show (parms !! 0%nat) in
    parms1 ← JS.bitor_zero (parms !! 1%nat);
    let len := JS.len line - (colon + 1) in
    if len >=? parms1 then
      Some (data_append parms0 (JS.substr line (colon + 1) parms1) st,
            JS.substr_from line (colon + parms1 + 1))
    else
      Some (data_append parms0 (JS.substr line (colon + 1) len) st,
            "+D," +:+ parms0 +:+ "," +:+ JS.of_number (parms1 - len) +:+ ":").

(** The prefixes under which [exports.connect] registers the two handlers. *)
Definition recv_prefix : string := "+QIURC: " +:+ String DQ ("recv" +:+ String DQ "").
Definition cont_prefix : string := "+D".

(** Modelled from the spec: the AT engine is an external module.  One
    dispatch appends the bytes that arrived to what the previous handler
    returned for re-injection, and hands the result to the handler whose
    registered prefix it starts with. *)
Definition dispatch (pending data : string) (st : driver) : option (driver * string) :=
  let line := pending +:+ data in
  if JS.is_prefix recv_prefix line then receiveHandler line st
  else if JS.is_prefix cont_prefix line then receiveHandler2 line st
  else Some (st, line).

(** The notification announcing [payload] on socket [id]. *)
Definition recv_header (id : Z) (L : Z) : string :=
  recv_prefix +:+ "," +:+ JS.of_number id +:+ "," +:+ JS.of_number L +:+ CRLF.

(** The continuation token for [n] outstanding bytes of socket [id]. *)
Definition cont_token (id : Z) (n : Z) : string :=
  "+D," +:+ JS.of_number id +:+ "," +:+ JS.of_number n +:+ ":".

Definition take_str (n : nat) (s : string) : string := String.substring 0 n s.
Definition drop_str (n : nat) (s : string) : string :=
  String.substring n (String.length s - n) s.

(** ** Command callbacks of the lifecycle and connectivity services

    The callbacks of [init], [connect], [getVersion], [getIP] and the
    geolocation poller do not touch the socket table.  Each is a function
    from the closure's variables and the line [r] handed over by the AT
    engine ([None] on time-out) to the new variables and what the call
    asked for. *)

Inductive action :=
| Cmd (text : string) (timeout : Z)
    (* at.cmd(text, timeout, cb) *)
| CmdAfter (delay : Z) (text : string) (timeout : Z)
    (* setTimeout(function(){at.cmd(text, timeout, cb);}, delay) *)
| Callback (err : option string) (result : option string).
    (* callback(err, result): err is None for null; an absent result is undefined *)

(** The outcome of one call: the closure's variables, the actions in
    program order, and whether the callback returned itself (it then
    receives the next line of the same command). *)
Record outcome (V : Type) := Outcome {
  vars : V;
  actions : list action;
  again : bool
}.
Arguments Outcome {V} _ _ _.
Arguments vars {V} _.
Arguments actions {V} _.
Arguments again {V} _.

Definition cmd (text : string) : string := text +:+ CRLF.

Inductive AtInitSequence :=
| AT_SYNCHRO
| AT_RSP_FORMAT
| AT_ECHO_OFF
| AT_CPIN
| AT_SHOW_SIM_ID
| AT_QUERY_SIGNAL_QUALITY
| AT_PS_ATTACHMENT
| AT_AUTOMATIC_OPERATOR_SELECTION
| AT_LIST_CURRENT_OPERATORS
| AT_CURRENT_OPERATOR
| AT_HW_FLOW_CONTROL.

(** The variables [init]'s callback closes over, and the module variable
    [ccid] it assigns. *)
Record init_vars := InitVars {
  s : AtInitSequence;
  atSync : Z;
  attRetry : Z;
  signal_quality_report : bool;
  ccid : option string
}.

Definition with_s (x : AtInitSequence) (v : init_vars) : init_vars :=
  InitVars x (atSync v) (attRetry v) (signal_quality_report v) (ccid v).
Definition with_atSync (x : Z) (v : init_vars) : init_vars :=
  InitVars (s v) x (attRetry v) (signal_quality_report v) (ccid v).
Definition with_attRetry (x : Z) (v : init_vars) : init_vars :=
  InitVars (s v) (atSync v) x (signal_quality_report v) (ccid v).
Definition with_report (x : bool) (v : init_vars) : init_vars :=
  InitVars (s v) (atSync v) (attRetry v) x (ccid v).
Definition with_ccid (x : option string) (v : init_vars) : init_vars :=
  InitVars (s v) (atSync v) (attRetry v) (signal_quality_report v) x.

(** [r && r.substr(0, n) == p] *)
Definition starts (r : option string) (n : Z) (p : string) : bool :=
  JS.truthy r && String.eqb (JS.substr (JS.show r) 0 n) p.

(** The tail shared by the states that report an unexpected token and,
    separately, a time-out: [else if (r) callback(e + r)] followed by
    [if (r === undefined) callback(t)]. *)
Definition report (r : option string) (e t : string) : list action :=
  (if JS.truthy r then [Callback (Some (e +:+ JS.show r)) None] else []) ++
  (if r is None then [Callback (Some t) None] else []).

Definition init_cb (flowcontrol : bool) (v : init_vars) (r : option string)
    : outcome init_vars :=
  match s v with
  | AT_SYNCHRO =>
      if JS.eq_lit r "AT" then Outcome v [] true
      else if JS.eq_lit r "OK" then
        Outcome (with_s AT_RSP_FORMAT v) [Cmd (cmd "ATV1") 1000] false
      else
        let v := with_atSync (atSync v + 1) (with_s AT_SYNCHRO v) in
        if atSync v <=? 10
        then Outcome v [CmdAfter 500 (cmd "AT") 1000] false
        else Outcome v [Callback (Some ("Error in AT sync: " +:+ JS.show r)) None] false
  | AT_RSP_FORMAT =>
      if JS.eq_lit r "OK" then
        Outcome (with_s AT_ECHO_OFF v) [Cmd (cmd "ATE0") 1000] false
      else if JS.eq_lit r "ATV1" then Outcome v [] true
      else Outcome v (report r "Error in ATV1: " "ATV1 time-out !!!") false
  | AT_ECHO_OFF =>
      if JS.eq_lit r "IIIIATE0"
         || JS.eq_lit r ("IIII" +:+ String (ascii_of_nat 255) "ATE0")
         || JS.eq_lit r "ATE0"
      then Outcome v [] true
      else if JS.eq_lit r "OK" then
        if flowcontrol
        then Outcome (with_s AT_HW_FLOW_CONTROL v) [Cmd (cmd "AT+IFC=2,2") 2000] false
        else Outcome (with_s AT_CPIN v) [Cmd (cmd "AT+CPIN?") 5000] false
      else if JS.eq_lit r "atE0" then
        Outcome (with_s AT_CPIN v) [Cmd (cmd "AT+CPIN?") 5000] false
      else if JS.truthy r then
        Outcome v [Callback (Some ("Error in ATE0: " +:+ JS.show r)) None] false
      else if r is None then
        Outcome (with_s AT_CPIN v) [Cmd (cmd "AT+CPIN?") 5000] false
      else Outcome v [] false
  | AT_HW_FLOW_CONTROL =>
      if JS.eq_lit r "OK" then
        Outcome (with_s AT_CPIN v) [Cmd (cmd "AT+CPIN?") 5000] false
      else
        Outcome (with_s AT_CPIN v)
          [Callback (Some "HW flow control establismnent failed") None;
           Cmd (cmd "AT+CPIN?") 5000] false
  | AT_CPIN =>
      if JS.eq_lit r "+CPIN: READY" then Outcome v [] true
      else if JS.eq_lit r "OK" then
        Outcome (with_s AT_SHOW_SIM_ID v) [Cmd (cmd "AT+QCCID") 2000] false
      else Outcome v (report r "Error in CPIN: " "AT+CPIN time-out !!!") false
  | AT_SHOW_SIM_ID =>
      if starts r 7 "+QCCID:" then
        Outcome (with_ccid (Some (JS.substring (JS.show r) 8 (JS.len (JS.show r) - 1))) v)
          [] true
      else if JS.eq_lit r "OK" then
        Outcome (with_s AT_QUERY_SIGNAL_QUALITY v) [Cmd (cmd "AT+CSQ") 2000] false
      else Outcome v (report r "Error in QCCID: " "AT+QCCID time-out !!!") false
  | AT_QUERY_SIGNAL_QUALITY =>
      if starts r 5 "+CSQ:" then
        Outcome (with_report (negb (starts r 11 "+CSQ: 99,99")) v) [] true
      else if JS.eq_lit r "OK" then
        if signal_quality_report v
        then Outcome (with_s AT_PS_ATTACHMENT v)
               [CmdAfter 5000 (cmd "AT+CGATT=1") 75000] false
        else Outcome v [CmdAfter 500 (cmd "AT+CSQ") 2000] false
      else Outcome v (report r "Error in QCCID: " "AT+CSQ time-out !!!") false
  | AT_PS_ATTACHMENT =>
      if JS.eq_lit r "OK" then
        Outcome (with_s AT_CURRENT_OPERATOR v) [Cmd (cmd "AT+COPS?") 20000] false
      else if JS.truthy r then
        let v := with_attRetry (attRetry v + 1) v in
        if 1 =? attRetry v then
          Outcome (with_s AT_AUTOMATIC_OPERATOR_SELECTION v)
            [CmdAfter 2000 (cmd "AT+COPS=0") 180000] false
        else if attRetry v <? 4 then
          Outcome (with_s AT_PS_ATTACHMENT v)
            [CmdAfter (2000 * attRetry v) (cmd "AT+CGATT=1") 75000] false
        else
          Outcome v
            [Callback (Some ("Unrecoverable Error, PS attachment failed: " +:+ JS.show r))
               None] false
      else Outcome v [] false
  | AT_AUTOMATIC_OPERATOR_SELECTION =>
      Outcome (with_s AT_LIST_CURRENT_OPERATORS v)
        [CmdAfter 5000 (cmd "AT+COPS?") 10000] false
  | AT_LIST_CURRENT_OPERATORS =>
      Outcome (with_s AT_PS_ATTACHMENT v)
        [CmdAfter 30000 (cmd "AT+CGATT=1") 30000] false
  | AT_CURRENT_OPERATOR =>
      if JS.eq_lit r "OK" then Outcome v [Callback None None] false
      else if starts r 6 "+COPS:" then Outcome v [] true
      else Outcome v (report r "Error in COPS? " "AT+COPS? time-out !!!") false
  end.

(** [init(callback)]: fresh variables and the first probe, half a second
    later. *)
Definition init_start (ccid0 : option string) : outcome init_vars :=
  Outcome (InitVars AT_SYNCHRO 0 0 false ccid0) [CmdAfter 500 (cmd "AT") 1000] false.

(** [connect(apn, username, password, callback)]: the callback's variable
    [s] is the phase, 0 (configure) or 1 (activate). *)
Definition connect_start (apn username password : string) : outcome Z :=
  let q := String DQ "" in
  Outcome 0
    [Cmd (cmd ("AT+QICSGP=1,1," +:+ q +:+ apn +:+ q +:+ ", " +:+ q +:+ username +:+ q
               +:+ ", " +:+ q +:+ password +:+ q)) 30000]
    false.

Definition connect_cb (s : Z) (r : option string) : outcome Z :=
  if s =? 0 then
    if JS.eq_lit r "OK" then Outcome 1 [Cmd (cmd "AT+QIACT=1") 30000] false
    else if JS.truthy r then
      Outcome s [Callback (Some ("Error in " +:+ JS.of_number s +:+ ": " +:+ JS.show r)) None]
        false
    else Outcome s [] false
  else if s =? 1 then
    if JS.eq_lit r "OK" then Outcome s [Callback None None] false
    else if JS.truthy r then
      Outcome s [Callback (Some ("Error in " +:+ JS.of_number s +:+ ": " +:+ JS.show r)) None]
        false
    else Outcome s [Callback None None] false
  else Outcome s [] false.





(** Geolocation: the module variables [longlat] and [geoPos]. *)
Record geo := Geo {
  longlat : string;
  geoPos : bool
}.

Definition geoLoc_cb (period : Z) (g : geo) (r : option string) : outcome geo :=
  let trigger g :=
    if geoPos g then [CmdAfter period (cmd "AT+QCELLLOC=1") 2000] else [] in
  if r is None then
    let g := Geo "" (geoPos g) in Outcome g (trigger g) false
  else if JS.eq_lit r "OK" then Outcome g (trigger g) false
  else if starts r 10 "+QCELLLOC:" then
    let pos_last := JS.len (JS.show r) in
    let pos_space := JS.indexOf (JS.show r) " " in
    Outcome (Geo (JS.substring (JS.show r) (1 + pos_space) pos_last) (geoPos g)) [] true
  else
    let g := Geo "" (geoPos g) in Outcome g (trigger g) false.

Definition geoLocStart (period : Z) (g : geo) : outcome geo :=
  Outcome (Geo (longlat g) true) [Cmd (cmd "AT+QCELLLOC=1") 2000] false.

Definition geoLocStop (g : geo) : geo := Geo "" false.

(** [geoLocGet(callback)] hands [longlat] to its callback. *)
Definition geoLocGet (g : geo) : string := longlat g.

(** ** Running a callback against the AT engine *)

Definition is_command (a : action) : bool :=
  match a with
  | Cmd _ _ | CmdAfter _ _ _ => true
  | Callback _ _ => false
  end.

(** After a call, the callback will be called again exactly when it
    returned itself or handed itself to a new command. *)
Definition waiting {V} (o : outcome V) : bool :=
  again o || existsb is_command (actions o).

(** What has happened so far in the exchange started by one call of the
    driver: the closure's variables, every action asked for, oldest first,
    and whether the callback is still waiting for a line. *)
Record session (V : Type) := Session {
  now : V;
  trace : list action;
  pending : bool
}.
Arguments Session {V} _ _ _.
Arguments now {V} _.
Arguments trace {V} _.
Arguments pending {V} _.

Definition started {V} (o : outcome V) : session V :=
  Session (vars o) (actions o) (waiting o).

(** Modelled from the spec: the AT engine is an external module.  It has at
    most one command outstanding and hands each line answering it (or
    [undefined] when the command times out) to the command's callback; a
    callback that returns itself receives the next line.  [run cb x rs]
    feeds the lines [rs] in order to [cb] for as long as the callback is
    waiting. *)
Fixpoint run {V} (cb : V -> option string -> outcome V) (x : session V)
    (rs : list (option string)) : session V :=
  match rs with
  | [] => x
  | r :: rs' =>
      if pending x then
        let o := cb (now x) r in
        run cb (Session (vars o) (trace x ++ actions o) (waiting o)) rs'
      else x
  end.

(** The invocations of the completion callback in a trace, and the
    commands with a given text. *)
Definition callbacks (t : list action) : list (option string * option string) :=
  omap (fun a => match a with Callback e x => Some (e, x) | _ => None end) t.

Definition has_text (text : string) (a : action) : bool :=
  match a with
  | Cmd c _ | CmdAfter _ c _ => String.eqb c text
  | Callback _ _ => false
  end.

Definition commands (text : string) (t : list action) : list action :=
  List.filter (has_text text) t.

(** The exchanges the exported functions start. *)
Definition init (flowcontrol : bool) (ccid0 : option string)
    : list (option string) -> session init_vars :=
  run (init_cb flowcontrol) (started (init_start ccid0)).

Definition connect (apn username password : string)
    : list (option string) -> session Z :=
  run connect_cb (started (connect_start apn username password)).



(** ** [reset(callback)]

    The socket table is cleared, the reset and power-key outputs that are
    configured are pulsed one after the other, and [init] is called with
    the same callback. *)

Inductive hw_action :=
| DigitalWrite (pin : string) (level : bool)
| Pause (ms : Z).   (* the delay of the setTimeout that runs what follows *)

Fixpoint clear_sockets (n : nat) (i : Z) (st : driver) : driver :=
  match n with
  | O => st
  | S n' => clear_sockets n' (i + 1) (data_set (key i) "" (set_sock i None st))
  end.

Definition reset_pulse (rst : string) (rst_active_level : bool) : list hw_action :=
  [DigitalWrite rst rst_active_level; Pause 200;
   DigitalWrite rst (negb rst_active_level); Pause 6000].

Definition pwrkey_pulse (pwrkey : string) (pwrkey_active_level : bool)
    (rst : option string) (rst_active_level : bool) : list hw_action :=
  [DigitalWrite pwrkey pwrkey_active_level; Pause 200;
   DigitalWrite pwrkey (negb pwrkey_active_level); Pause 5000] ++
  match rst with
  | Some p => reset_pulse p rst_active_level
  | None => []
  end.

Definition reset_pins (rst pwrkey : option string)
    (rst_active_level pwrkey_active_level : bool) : list hw_action :=
  match rst, pwrkey with
  | None, None => []
  | _, _ =>
      (if rst is Some p then [DigitalWrite p (negb rst_active_level)] else []) ++
      match pwrkey, rst with
      | Some k, _ => pwrkey_pulse k pwrkey_active_level rst rst_active_level
      | None, Some p => reset_pulse p rst_active_level
      | None, None => []
      end
  end.

Definition reset (rst pwrkey : option string)
    (rst_active_level pwrkey_active_level : bool)
    (flowcontrol : bool) (ccid0 : option string) (st : driver)
    : driver * list hw_action * (list (option string) -> session init_vars) :=
  (clear_sockets (Z.to_nat MAXSOCKETS) 0 st,
   reset_pins rst pwrkey rst_active_level pwrkey_active_level,
   init flowcontrol ccid0).

(** ** Notions used in the statements *)

(** What the failure handlers of [send] leave behind. *)
Definition send_failure_effect (h : line_handler) (st : driver) : Prop :=
  let st' := fst (run_line_handler h st) in
  snd (run_line_handler h st) = "" /\
  busy st' = false /\
  at_lineHandlers st'
    = delete "ERROR" (delete "SEND FAIL" (delete "SEND OK" (at_lineHandlers st))) /\
  at_lineHandlers st' !! "SEND OK" = None /\
  at_lineHandlers st' !! "SEND FAIL" = None /\
  at_lineHandlers st' !! "ERROR" = None /\
  socks st' = socks st /\
  (forall i, sock st' i = sock st i).

(** [geoLocStop()] called while the exchange [x] of the poller is under way. *)
Definition stop_during (x : session geo) : session geo :=
  Session (geoLocStop (now x)) (trace x) (pending x).

(** A probe fails when its answer is neither the echo ['AT'], for which
    the callback keeps waiting, nor ['OK']. *)
Definition sync_failure (r : option string) : Prop :=
  JS.eq_lit r "AT" = false /\ JS.eq_lit r "OK" = false.

Definition probe : action := CmdAfter 500 (cmd "AT") 1000.

(** An attach attempt fails when the modem answers it with a line other
    than ['OK'] (the branch [else if (r)] of the state). *)
Definition attach_failure (r : option string) : Prop :=
  JS.truthy r = true /\ JS.eq_lit r "OK" = false.

Definition attach (delay timeout : Z) : action :=
  CmdAfter delay (cmd "AT+CGATT=1") timeout.





(** Whether [c] occurs in [s], and whether [s] is made of decimal digits. *)
Fixpoint has_char (c : ascii) (s : string) : bool :=
  match s with
  | EmptyString => false
  | String a s' => Ascii.eqb a c || has_char c s'
  end.

Fixpoint digits_only (s : string) : bool :=
  match s with
  | EmptyString => true
  | String a s' => is_defined (JS.digit_of a) && digits_only s'
  end.

(** The two numeric fields of a header or of a continuation token. *)
Definition fields (a b : Z) : string := JS.of_number a +:+ "," +:+ JS.of_number b.

(** ** Sample states and exchanges *)

(** One connected socket, nothing buffered, nothing under way. *)
Definition idle_driver : driver :=
  Driver [Some Ready] {[ "0" := "" ]} false false false [] [] ∅ ∅ ∅ 0.

(** The same with a [send] under way. *)
Definition busy_driver : driver :=
  Driver [Some Ready] {[ "0" := "" ]} true false false [] [] ∅ ∅ ∅ 0.

(** The same with five bytes buffered. *)
Definition recv_witness_driver : driver :=
  Driver [Some Ready] {[ "0" := "hello" ]} false false false [] [] ∅ ∅ ∅ 0.

(** The twelve client slots in use. *)
Definition full_driver : driver :=
  Driver (replicate 12 (Some Ready)) ∅ false false false [] [] ∅ ∅ ∅ 0.

(** Slot 1 free between two slots in use. *)
Definition one_free_driver : driver :=
  Driver [Some Ready; None; Some Wait] ∅ false false false [] [] ∅ ∅ ∅ 0.

(** A payload of [n] bytes. *)
Definition payload_of_size (n : nat) : string := Nat.iter n (String "x") "".

(** The poller one minute apart, its first query in flight. *)
Definition polling : session geo := started (geoLocStart 60000 (Geo "" false)).

(** [init] on a modem that answers every step up to the signal report:
    the attach command is about to be issued. *)
Definition before_attach : session init_vars :=
  init false None
    [Some "OK"; Some "OK"; Some "OK"; Some "+CPIN: READY"; Some "OK";
     Some "+QCCID: 8988"; Some "OK"; Some "+CSQ: 20,99"; Some "OK"].



(** ** Further parts of the driver *)

(** [closehandler(line)]: the notification [+QIURC: "closed",<id>] is
    taken to end at the first line ending, or, when there is none yet, at
    the first carriage return.  [None] as for [receiveHandler]. *)
Definition closehandler (line : string) (st : driver) : option (driver * string) :=
  let colon := JS.indexOf line CRLF in
  let colon := if colon <? 0 then JS.indexOf line (String CR "") else colon in
  if colon <? 0 then Some (st, line)
  else
    let parms := JS.split "," (JS.substring line 0 colon) in
    parms1 ← JS.bitor_zero (parms !! 1%nat);
    Some (closeSocket parms1 st, "").

(** The prefix under which [exports.connect] registers [closehandler], and
    the notification for socket [id] up to its line ending. *)
Definition closed_prefix : string :=
  "+QIURC: " +:+ String DQ ("closed" +:+ String DQ "").
Definition closed_notice (id : Z) : string :=
  closed_prefix +:+ "," +:+ JS.of_number id.

(** The runtime's one-shot timers: a pending timer that fires is no longer
    pending, and its function runs. *)
Definition fire (id : Z) (st : driver) : driver :=
  match timers st !! id with
  | Some (_, a) => run_timer a (clearTimeout id st)
  | None => st
  end.

(** Modelled from the spec: the AT engine is an external module.  Input
    that starts with a registered prefix, and a line that equals a
    registered line, go to the handler registered for them. *)
Definition on_prompt (st : driver) : driver :=
  match at_handlers st !! ">" with
  | Some h => fst (run_urc_handler h st)
  | None => st
  end.

Definition on_line (l : string) (st : driver) : driver :=
  match at_lineHandlers st !! l with
  | Some h => fst (run_line_handler h st)
  | None => st
  end.

(** The answer of the modem to [AT+QIOPEN] for socket [sckt]:
    ['+QIOPEN: '+sckt+code]. *)
Definition open_result (sckt : Z) (code : string) : option string :=
  Some ("+QIOPEN: " +:+ JS.of_number sckt +:+ code).

(** The open command of [openSocket] as it is recorded. *)
Definition open_cmd (sckt : Z) (host : string) (port counter : Z) : issued_cmd :=
  IssuedCmd (AT_QIOPEN sckt host port) 150000 (OpenSocketCb sckt host port counter).

(** The modem refuses the connection ([566]) [n] times in a row, starting
    with the attempt numbered [counter]; each retry timer fires in turn.
    Once an attempt is not retried no command is outstanding and the
    sequence ends. *)
Fixpoint connect_refused (n : nat) (sckt : Z) (host : string) (port counter : Z)
    (st : driver) : driver :=
  match n with
  | O => st
  | S n' =>
      let st1 :=
        fst (run_cmd_handler (OpenSocketCb sckt host port counter)
               (open_result sckt ",566") st) in
      if counter <? 5
      then connect_refused n' sckt host port (counter + 1) (fire (next_timer st) st1)
      else st1
  end.

(** The open commands for the attempts numbered [counter], [counter + 1], ... *)
Fixpoint open_cmds (n : nat) (sckt : Z) (host : string) (port counter : Z)
    : list issued_cmd :=
  match n with
  | O => []
  | S n' => open_cmd sckt host port counter :: open_cmds n' sckt host port (counter + 1)
  end.

(** A reader that calls [recv] until it hands out no more bytes, at most
    [fuel] times, and what it has collected. *)
Fixpoint drain (fuel : nat) (sckt maxLen : Z) (st : driver) : string * driver :=
  match fuel with
  | O => ("", st)
  | S fuel' =>
      match netCallbacks.recv sckt maxLen st with
      | (st', Data (String c r)) =>
          let '(more, st'') := drain fuel' sckt maxLen st' in
          (String c r +:+ more, st'')
      | (st', _) => ("", st')
      end
  end.



(** The last level written to [pin], and the time the pauses add up to. *)
Definition last_level (pin : string) (l : list hw_action) : option bool :=
  fold_left (fun acc a =>
               match a with
               | DigitalWrite p v => if String.eqb p pin then Some v else acc
               | Pause _ => acc
               end) l None.

Definition total_pause (l : list hw_action) : Z :=
  fold_right (fun a acc => match a with Pause ms => ms + acc | _ => acc end) 0 l.


(** ** The MQTT packet codec and the client's data handler ([MQTT.js])

    The MQTT client is the consumer of the socket interface: what
    [recv] hands over reaches its ['data'] handler in chunks.  Character
    codes are integers in [Z]; [None] is NaN. *)

Module MQTT.

(** [String.fromCharCode(n)]: a character holds the low eight bits. *)
Definition fromCharCode (n : Z) : string :=
  String (ascii_of_N (Z.to_N (n mod 256))) "".

(** [s.charCodeAt(i)], NaN past the end. *)
Definition charCodeAt (s : string) (i : Z) : option Z :=
  if i <? 0 then None
  else (fun c => Z.of_N (N_of_ascii c)) <$> String.get (Z.to_nat i) s.

(** A character code as the operand of [&], [|], [<<], [>>] and of
    [fromCharCode]: NaN converts to 0. *)
Definition code (v : option Z) : Z := default 0 v.

(** [s.charAt(i)], the empty string past the end. *)
Definition charAt (s : string) (i : Z) : string :=
  if i <? 0 then ""
  else match String.get (Z.to_nat i) s with
       | Some c => String c ""
       | None => ""
       end.

(** [mqttStr(s)]: length MSB, LSB, then the data. *)
Definition mqttStr (s : string) : string :=
  fromCharCode (Z.shiftr (JS.to_int32 (JS.len s)) 8)
  +:+ fromCharCode (Z.land (JS.to_int32 (JS.len s)) 255)
  +:+ s.

(** The [do ... while (length > 0)] loop of [mqttPacketLength].  A 32-bit
    value shifted right by seven bits reaches 0 in five rounds at most
    ([encode_length_fuel]), which is the fuel [mqttPacketLength] gives. *)
Fixpoint encode_length (fuel : nat) (length : Z) (encLength : string) : string :=
  match fuel with
  | O => encLength
  | S fuel' =>
      let encByte := Z.land (JS.to_int32 length) 127 in
      let length := Z.shiftr (JS.to_int32 length) 7 in
      let encByte := if 0 <? length then encByte + 128 else encByte in
      let encLength := encLength +:+ fromCharCode encByte in
      if 0 <? length then encode_length fuel' length encLength else encLength
  end.

Definition mqttPacketLength (length : Z) : string := encode_length 5 length "".

(** What [mqttPacketLengthDec] returns: the number 0, or an object. *)
Inductive dec_length : Type :=
| Zero
| DecLen (decLen lenBy : Z).

(** The [do ... while (bytes < 5)] loop of [mqttPacketLengthDec]; five
    rounds at most, since [bytes] counts them. *)
Fixpoint decode_length (fuel : nat) (length : string) (mul bytes decL : Z) : dec_length :=
  match fuel with
  | O => DecLen decL bytes
  | S fuel' =>
      let lb := charCodeAt length bytes in
      let bytes := bytes + 1 in
      let decL := decL + mul * Z.land (code lb) 127 in
      let mul := mul * 128 in
      if 2097152 <? mul then Zero
      else if Z.land (code lb) 128 =? 0 then DecLen decL bytes
      else if bytes <? 5 then decode_length fuel' length mul bytes decL
      else DecLen decL bytes
  end.

Definition mqttPacketLengthDec (length : string) : dec_length :=
  decode_length 5 length 1 0 0.

(** [mqttPacket(cmd, variable, payload)] *)
Definition mqttPacket (cmd : Z) (variable payload : string) : string :=
  fromCharCode cmd
  +:+ mqttPacketLength (JS.len variable + JS.len payload)
  +:+ variable +:+ payload.

Record publish : Type := Publish {
  topic : string;
  message : string;
  dup : Z;
  qos : Z;
  retain : Z
}.

(** [parsePublish(data)]; [None] is [undefined]. *)
Definition parsePublish (data : string) : option publish :=
  if 3 <=? JS.len data then
    let cmd := code (charCodeAt data 0) in
    let var_len :=
      Z.lor (Z.shiftl (code (charCodeAt data 1)) 8) (code (charCodeAt data 2)) in
    Some (Publish (JS.substr data 3 var_len)
                  (JS.substr data (3 + var_len) (JS.len data - var_len))
                  (Z.shiftr (Z.land cmd 8) 3)
                  (Z.shiftr (Z.land cmd 6) 1)
                  (Z.land cmd 1))
  else None.

(** [getPid(data)] *)
Definition getPid (data : string) : string :=
  fromCharCode (code (charCodeAt data 0)) +:+ fromCharCode (code (charCodeAt data 1)).

(** Control packet types. *)
Definition CONNACK : Z := 2.
Definition PUBLISH : Z := 3.
Definition PUBACK : Z := 4.
Definition PUBREC : Z := 5.
Definition PUBREL : Z := 6.
Definition PUBCOMP : Z := 7.
Definition SUBACK : Z := 9.
Definition UNSUBACK : Z := 11.
Definition PINGREQ : Z := 12.
Definition PINGRESP : Z := 13.

(** [mqttPublish(topic, message, qos)]; [pid] is what [mqttPid()] returns
    when it is called. *)
Definition mqttPublish (pid topic message : string) (qos : Z) : string :=
  let cmd := Z.lor (Z.shiftl PUBLISH 4) (Z.shiftl qos 1) in
  let variable := mqttStr topic in
  if 0 <? qos then mqttPacket cmd (variable +:+ pid) message
  else mqttPacket cmd variable message.

Definition RETURN_CODES (c : Z) : option string :=
  match c with
  | 0 => Some "ACCEPTED"
  | 1 => Some "UNACCEPTABLE_PROTOCOL_VERSION"
  | 2 => Some "IDENTIFIER_REJECTED"
  | 3 => Some "SERVER_UNAVAILABLE"
  | 4 => Some "BAD_USER_NAME_OR_PASSWORD"
  | 5 => Some "NOT_AUTHORIZED"
  | _ => None
  end.

(** A character code printed in a message. *)
Definition show_code (v : option Z) : string :=
  match v with
  | Some c => JS.of_number c
  | None => "NaN"
  end.

(** What the client object emits. *)
Inductive event : Type :=
| EvPublish (parsedData : publish)
| EvMessage (topic message : string)
| EvPingReply
| EvConnected
| EvConnect
| EvError (text : string).

(** What the data handler does besides updating the client object, in
    the order in which it does it. *)
Inductive effect : Type :=
| ClientData (data : string)      (* client.emit('data', data) *)
| Pinger                          (* pinger(): the keep-alive interval is set anew *)
| ClearConnectTimeout             (* clearTimeout(mqo.ctimo) *)
| ClientWrite (data : string)     (* client.write(data) *)
| Emit (e : event).               (* mqo.emit(...) *)

(** The fields of the client object that the data handler uses.
    [partData] is only tested for truth and prepended when true, so the
    [undefined] it starts with is the empty string here; [ctimo] tells
    whether the connect timeout is pending. *)
Record mqo : Type := Mqo {
  partData : string;
  connected : bool;
  ctimo : bool
}.

Definition nonempty (s : string) : bool :=
  match s with
  | EmptyString => false
  | String _ _ => true
  end.

(** What the handler does with a complete packet of the given type. *)
Definition on_packet (type : Z) (data pData : string) (m : mqo) : mqo * list effect :=
  if type =? PUBLISH then
    match parsePublish (charAt data 0 +:+ pData) with
    | Some parsedData =>
        (m, [Emit (EvPublish parsedData);
             Emit (EvMessage (topic parsedData) (message parsedData))])
    | None => (m, [])
    end
  else if type =? PUBACK then (m, [])
  else if type =? PUBREC then
    (m, [ClientWrite (fromCharCode (Z.lor (Z.shiftl PUBREL 4) 2)
                      +:+ fromCharCode 2 +:+ getPid pData)])
  else if type =? PUBREL then
    (m, [ClientWrite (fromCharCode (Z.shiftl PUBCOMP 4)
                      +:+ fromCharCode 2 +:+ getPid pData)])
  else if type =? PUBCOMP then (m, [])
  else if type =? SUBACK then (m, [])
  else if type =? UNSUBACK then (m, [])
  else if type =? PINGREQ then
    (m, [ClientWrite (fromCharCode (Z.shiftl PINGRESP 4) +:+ fromCharCode 0)])
  else if type =? PINGRESP then (m, [Emit EvPingReply])
  else if type =? CONNACK then
    let clear := if ctimo m then [ClearConnectTimeout] else [] in
    let returnCode := charCodeAt pData 3 in
    if JS.eq_lit (returnCode ≫= RETURN_CODES) "ACCEPTED" then
      (Mqo "" true false, clear ++ [Pinger; Emit EvConnected; Emit EvConnect])
    else
      let mqttError := "Connection refused, " in
      let mqttError :=
        match returnCode with
        | Some c =>
            if (0 <? c) && (c <? 6) then mqttError +:+ JS.show (RETURN_CODES c)
            else mqttError +:+ "unknown return code: " +:+ show_code returnCode +:+ "."
        | None => mqttError +:+ "unknown return code: " +:+ show_code returnCode +:+ "."
        end in
      (Mqo "" false false, clear ++ [Emit (EvError mqttError)])
  else (m, [Emit (EvError ("MQTT unsupported packet type: " +:+ JS.of_number type))]).

(** The ['data'] handler of the client socket. *)
Definition on_data (data : string) (m : mqo) : mqo * list effect :=
  let data := if nonempty (partData m) then partData m +:+ data else data in
  let m := if nonempty (partData m) then Mqo "" (connected m) (ctimo m) else m in
  let type := Z.shiftr (code (charCodeAt data 0)) 4 in
  match mqttPacketLengthDec (JS.substr data 1 5) with
  | Zero =>
      (* [pLen] is NaN: no comparison with it holds, and the body taken
         from NaN, NaN long, is empty *)
      let '(m', fx) := on_packet type data "" m in
      (m', (if type =? PINGRESP then [] else [Pinger]) ++ fx)
  | DecLen decLen lenBy =>
      let pLen := decLen + lenBy + 1 in
      if JS.len data <? pLen then (Mqo data (connected m) (ctimo m), [])
      else
        let pData := JS.substr data (lenBy + 1) pLen in
        let more :=
          if pLen <? JS.len data then [ClientData (JS.substr_from data pLen)] else [] in
        let '(m', fx) := on_packet type data pData m in
        (m', more ++ (if type =? PINGRESP then [] else [Pinger]) ++ fx)
  end.

End MQTT.

(** ** Further notions used in the statements *)

(** An answer to the open command that leaves the socket to be closed: a
    time-out or any line other than "OK" and the results 0, 563 and 566. *)
Definition open_refused (sckt : Z) (d : option string) : Prop :=
  JS.eq_lit d "OK" = false /\
  d <> open_result sckt ",0" /\ d <> open_result sckt ",563" /\
  d <> open_result sckt ",566".

(** The command [send] writes for [data] on socket [sckt]. *)
Definition send_cmd (sckt : Z) (data : string) : string :=
  "AT+QISEND=" +:+ JS.of_number sckt +:+ "," +:+ JS.of_number (JS.len data) +:+ CRLF.

(** The driver has nothing of a [send] left: not busy, and neither the
    prompt handler, nor the three line handlers, nor the two guard timers
    started at [t] and [t + 1]. *)
Definition send_over (t : Z) (st : driver) : Prop :=
  busy st = false /\
  at_handlers st !! ">" = None /\
  at_lineHandlers st !! "SEND OK" = None /\
  at_lineHandlers st !! "SEND FAIL" = None /\
  at_lineHandlers st !! "ERROR" = None /\
  timers st !! t = None /\
  timers st !! (t + 1) = None.



(** Slot [i] holds data and has no state. *)
Definition unclaimed (st : driver) (i : Z) : bool :=
  JS.truthy (sockData st !! key i) && negb (is_defined (sock st i)).

(** The parts of the driver that [reset] leaves alone. *)
Definition same_engine (st st' : driver) : Prop :=
  busy st' = busy st /\ dbg st' = dbg st /\ at_isBusy st' = at_isBusy st /\
  at_cmds st' = at_cmds st /\ at_written st' = at_written st /\
  at_handlers st' = at_handlers st /\ at_lineHandlers st' = at_lineHandlers st /\
  timers st' = timers st /\ next_timer st' = next_timer st.

(** A signal report, with the "not known" reading and with another one. *)
Definition signal_unknown (r : option string) : Prop :=
  starts r 5 "+CSQ:" = true /\ starts r 11 "+CSQ: 99,99" = true.
Definition signal_known (r : option string) : Prop :=
  starts r 5 "+CSQ:" = true /\ starts r 11 "+CSQ: 99,99" = false.

Definition query_signal : action := CmdAfter 500 (cmd "AT+CSQ") 2000.

(** The answers to one signal query: the report, then "OK". *)
Definition signal_answers (reports : list (option string)) : list (option string) :=
  flat_map (fun r => [r; Some "OK"]) reports.

(** [init] on a modem that answers every step up to the SIM identifier:
    the signal query is under way. *)
Definition before_signal : session init_vars :=
  init false None
    [Some "OK"; Some "OK"; Some "OK"; Some "+CPIN: READY"; Some "OK";
     Some "+QCCID: 8988"; Some "OK"].

(** An invocation of the callback other than the report of a failed
    flow-control setup. *)
Definition final_report (a : action) : bool :=
  match a with
  | Callback (Some e) _ => negb (String.eqb e "HW flow control establismnent failed")
  | Callback None _ => true
  | _ => false
  end.






Definition locate (period : Z) : action := CmdAfter period (cmd "AT+QCELLLOC=1") 2000.

(** An end of a location query without a fix: a time-out, or a line that
    is neither "OK" nor a [+QCELLLOC:] line. *)
Definition no_fix (e : option string) : Prop :=
  JS.eq_lit e "OK" = false /\ starts e 10 "+QCELLLOC:" = false.

Definition closing_driver : driver :=
  Driver [Some ToBeClosed] {[ "0" := "bye" ]} false false false [] [] ∅ ∅ ∅ 0.

(** * Properties *)

#[local] Arguments String.append !_ _ / : simpl nomatch.

(** ** Strings *)

Section StringFacts.

Local Open Scope nat_scope.

Lemma str_length_app (a b : string) :
  String.length (a +:+ b) = String.length a + String.length b.
Proof. induction a as [|c a IH]; simpl; [done | by rewrite IH]. Qed.

Lemma app_assoc_str (a b c : string) : (a +:+ b) +:+ c = a +:+ (b +:+ c).
Proof. induction a as [|x a IH]; simpl; [done | by rewrite IH]. Qed.

Lemma app_nil_r_str (a : string) : a +:+ "" = a.
Proof. induction a as [|x a IH]; simpl; [done | by rewrite IH]. Qed.

Lemma substring_0_0 (s : string) : String.substring 0 0 s = "".
Proof. by destruct s. Qed.

Lemma substring_all (s : string) (n : nat) :
  String.length s <= n -> String.substring 0 n s = s.
Proof.
  revert n; induction s as [|c s IH]; intros [|n] Hn; simpl in *; try done; try lia.
  f_equal. apply IH. lia.
Qed.

Lemma substring_past (s : string) (n m : nat) :
  String.length s <= n -> String.substring n m s = "".
Proof.
  revert n; induction s as [|c s IH]; intros [|n] Hn; simpl in *;
    try done; try lia.
  - by destruct m.
  - apply IH. lia.
Qed.

(** Skipping a known prefix. *)
Lemma substring_skip (p s : string) (m : nat) :
  String.substring (String.length p) m (p +:+ s) = String.substring 0 m s.
Proof. induction p as [|c p IH]; simpl; done. Qed.

(** Taking exactly a known prefix. *)
Lemma substring_prefix (p s : string) :
  String.substring 0 (String.length p) (p +:+ s) = p.
Proof.
  induction p as [|c p IH]; simpl; [apply substring_0_0 | by rewrite IH].
Qed.

Lemma substring_inside (p m s : string) :
  String.substring (String.length p) (String.length m) (p +:+ m +:+ s) = m.
Proof. by rewrite substring_skip, substring_prefix. Qed.

Lemma take_drop_str (n : nat) (s : string) :
  take_str n s +:+ drop_str n s = s.
Proof.
  unfold take_str, drop_str. revert n.
  induction s as [|c s IH]; intros [|n]; simpl; try done.
  - f_equal. apply substring_all. lia.
  - f_equal. apply IH.
Qed.

Lemma length_take_str (n : nat) (s : string) :
  n <= String.length s -> String.length (take_str n s) = n.
Proof.
  unfold take_str. revert n.
  induction s as [|c s IH]; intros [|n] Hn; simpl in *; try done; try lia.
  f_equal. apply IH. lia.
Qed.

Lemma length_drop_str (n : nat) (s : string) :
  n <= String.length s -> String.length (drop_str n s) = String.length s - n.
Proof.
  intros Hn. pose proof (take_drop_str n s) as H.
  apply (f_equal String.length) in H.
  rewrite str_length_app, length_take_str in H by done. lia.
Qed.

End StringFacts.

Lemma len_app (a b : string) : JS.len (a +:+ b) = JS.len a + JS.len b.
Proof. unfold JS.len. rewrite str_length_app. lia. Qed.

Lemma len_nonneg (a : string) : 0 <= JS.len a.
Proof. unfold JS.len. lia. Qed.

(** ** The socket interface *)

Lemma sock_set_socks f st i :
  sock (set_sockData f st) i = sock st i.
Proof. done. Qed.

(** C7: with data buffered, the engine idle and the socket not waiting for
    its connection, [recv(id, n)] for [n >= 1] returns a prefix of the
    buffer of length at most [n] (the first [min n length] bytes), and
    afterwards the buffer of the socket, read back from the driver, is
    what follows that prefix; the other buffers and the socket table are
    as before. *)
Theorem recv_returns_prefix (st : driver) (id n : Z) (buf : string) :
  sockData st !! key id = Some buf ->
  buf <> "" ->
  at_isBusy st = false ->
  sock st id <> Some Wait ->
  1 <= n ->
  exists r rest,
    netCallbacks.recv id n st = (data_set (key id) rest st, Data r) /\
    sockData (fst (netCallbacks.recv id n st)) !! key id = Some rest /\
    (forall k, k <> key id ->
       sockData (fst (netCallbacks.recv id n st)) !! k = sockData st !! k) /\
    socks (fst (netCallbacks.recv id n st)) = socks st /\
    buf = r +:+ rest /\
    JS.len r <= n /\
    JS.len r = Z.min n (JS.len buf).
Proof.
  intros Hbuf Hne Hidle Hwait Hn.
  assert (exists r rest,
            netCallbacks.recv id n st = (data_set (key id) rest st, Data r) /\
            buf = r +:+ rest /\ JS.len r <= n /\ JS.len r = Z.min n (JS.len buf))
    as (r & rest & Hrecv & Hcut & Hle & Hlen).
  { unfold netCallbacks.recv. rewrite Hidle, Hbuf.
    assert (is_Wait (sock st id) = false) as ->.
    { destruct (sock st id) as [[]|]; simpl; congruence. }
    assert (JS.truthy (Some buf) = true) as -> by (destruct buf; simpl; congruence).
    change (JS.show (Some buf)) with buf. cbv [orb].
    pose proof (len_nonneg buf) as Hlen.
    destruct (JS.len buf >? n) eqn:Hcmp.
    - apply Z.gtb_lt in Hcmp.
      exists (take_str (Z.to_nat n) buf), (drop_str (Z.to_nat n) buf).
      assert (Z.to_nat n <= String.length buf)%nat as Hle by (unfold JS.len in *; lia).
      assert (JS.substr buf 0 n = take_str (Z.to_nat n) buf) as ->.
      { unfold JS.substr, take_str. simpl. f_equal; lia. }
      assert (JS.substr_from buf n = drop_str (Z.to_nat n) buf) as ->.
      { unfold JS.substr_from, JS.substr, drop_str.
        replace (n <? 0) with false by (symmetry; apply Z.ltb_ge; lia).
        f_equal; unfold JS.len in *; lia. }
      split; [done|]. split; [by rewrite take_drop_str|].
      unfold JS.len at 1 2. rewrite length_take_str by done. lia.
    - rewrite Z.gtb_ltb, Z.ltb_ge in Hcmp.
      exists buf, "". split; [done|]. split; [by rewrite app_nil_r_str|]. lia. }
  exists r, rest. rewrite Hrecv. cbn [fst].
  split; [done|]. split; [apply lookup_insert_eq|].
  split; [intros k Hk; apply lookup_insert_ne; congruence|].
  done.
Qed.

Lemma recv_returns_prefix_witness :
  exists r rest,
    netCallbacks.recv 0 3 recv_witness_driver
      = (data_set (key 0) rest recv_witness_driver, Data r) /\
    sockData (fst (netCallbacks.recv 0 3 recv_witness_driver)) !! key 0 = Some rest /\
    (forall k, k <> key 0 ->
       sockData (fst (netCallbacks.recv 0 3 recv_witness_driver)) !! k
       = sockData recv_witness_driver !! k) /\
    socks (fst (netCallbacks.recv 0 3 recv_witness_driver)) = socks recv_witness_driver /\
    "hello" = r +:+ rest /\ JS.len r <= 3 /\ JS.len r = Z.min 3 (JS.len "hello").
Proof.
  apply (recv_returns_prefix recv_witness_driver 0 3 "hello");
    [reflexivity | discriminate | reflexivity | discriminate | lia].
Defined.

(** An accepted [send] raises the busy flag, registers the three line
    handlers for this socket and writes the send command. *)
Lemma send_accepted (st : driver) (sckt : Z) (data : string) :
  busy st = false -> at_isBusy st = false -> sock st sckt = Some Ready ->
  JS.len data <= 1460 ->
  let st' := fst (netCallbacks.send sckt data st) in
  snd (netCallbacks.send sckt data st) = JS.len data /\
  busy st' = true /\
  at_lineHandlers st' !! "SEND FAIL" = Some (SendFailHandler sckt (next_timer st + 1)) /\
  at_lineHandlers st' !! "ERROR" = Some (SendErrorHandler sckt (next_timer st + 1)) /\
  at_written st'
    = at_written st ++
      ["AT+QISEND=" +:+ JS.of_number sckt +:+ "," +:+ JS.of_number (JS.len data) +:+ CRLF] /\
  socks st' = socks st.
Proof.
  intros Hb Hab Hs Hlen. unfold netCallbacks.send. rewrite Hb, Hab, Hs.
  destruct (JS.len data >? 1460) eqn:E; [lia|].
  cbn. repeat split; by simplify_map_eq.
Qed.

(** C9: the handlers [send] registers for the lines 'SEND FAIL' and 'ERROR'
    clear the busy flag and unregister the three transient line handlers;
    the socket table, and so the state of the socket that was sending, is
    what it was before the line arrived. *)
Theorem send_failure_keeps_socket_state (st : driver) (sckt idWaitingModemRsp : Z) :
  send_failure_effect (SendFailHandler sckt idWaitingModemRsp) st /\
  send_failure_effect (SendErrorHandler sckt idWaitingModemRsp) st.
Proof.
  split; unfold send_failure_effect; simpl;
    repeat split; try done; by simplify_map_eq.
Qed.

(** C4, as stated, fails: while the driver is busy an oversize payload is
    turned away with 0, not -1. *)
Lemma send_oversize_while_busy :
  JS.len (payload_of_size 1461) = 1461 /\
  busy busy_driver = true /\
  snd (netCallbacks.send 0 (payload_of_size 1461) busy_driver) = 0 /\
  snd (netCallbacks.send 0 (payload_of_size 1461) busy_driver) <> -1.
Proof. vm_compute. repeat split; congruence. Qed.

(** C4, amended: a payload longer than 1460 bytes is never written to the
    AT engine and leaves the driver as it was; [send] returns 0 when the
    driver or the engine is busy or the socket is still connecting, and
    -1 otherwise. *)
Theorem send_oversize_rejected (st : driver) (sckt : Z) (data : string) :
  JS.len data > 1460 ->
  fst (netCallbacks.send sckt data st) = st /\
  at_written (fst (netCallbacks.send sckt data st)) = at_written st /\
  snd (netCallbacks.send sckt data st)
    = (if busy st || at_isBusy st || is_Wait (sock st sckt) then 0 else -1).
Proof.
  intros Hbig. unfold netCallbacks.send.
  destruct (busy st || at_isBusy st || is_Wait (sock st sckt)); [done|].
  destruct (is_ToBeClosed (sock st sckt)); [done|].
  destruct (negb (is_defined (sock st sckt))); [done|].
  destruct (JS.len data >? 1460) eqn:Hcmp; [done|].
  rewrite Z.gtb_ltb, Z.ltb_ge in Hcmp. lia.
Qed.

Lemma send_oversize_rejected_witness :
  fst (netCallbacks.send 0 (payload_of_size 1461) idle_driver) = idle_driver /\
  at_written (fst (netCallbacks.send 0 (payload_of_size 1461) idle_driver))
    = at_written idle_driver /\
  snd (netCallbacks.send 0 (payload_of_size 1461) idle_driver)
    = (if busy idle_driver || at_isBusy idle_driver || is_Wait (sock idle_driver 0)
       then 0 else -1).
Proof.
  apply (send_oversize_rejected idle_driver 0 (payload_of_size 1461)).
  vm_compute. reflexivity.
Defined.

(** The loop of [create] stops at the first hole of the array, or just
    past its end. *)
Lemma first_unused_spec (l : list (option sock_state)) (i : Z) :
  0 <= i ->
  let r := first_unused l i in
  i <= r /\
  arr_get l (r - i) = None /\
  forall j, i <= j < r -> arr_get l (j - i) <> None.
Proof.
  revert i. induction l as [|x l IH]; intros i Hi; simpl.
  - split; [lia|]. split; [|intros; lia].
    unfold arr_get. replace (i - i) with 0 by lia. done.
  - destruct x as [x|]; simpl.
    + destruct (IH (i + 1) ltac:(lia)) as (Hle & Hnone & Hbelow).
      split; [lia|]. split.
      * unfold arr_get in *.
        destruct (first_unused l (i + 1) - (i + 1) <? 0) eqn:E1; [lia|].
        destruct (first_unused l (i + 1) - i <? 0) eqn:E2; [lia|].
        replace (Z.to_nat (first_unused l (i + 1) - i))
          with (S (Z.to_nat (first_unused l (i + 1) - (i + 1)))) by lia.
        exact Hnone.
      * intros j Hj. destruct (decide (j = i)) as [->|Hne].
        { unfold arr_get. replace (i - i) with 0 by lia. done. }
        specialize (Hbelow j ltac:(lia)). unfold arr_get in *.
        destruct (j - (i + 1) <? 0) eqn:E1; [lia|].
        destruct (j - i <? 0) eqn:E2; [lia|].
        replace (Z.to_nat (j - i)) with (S (Z.to_nat (j - (i + 1)))) by lia.
        exact Hbelow.
    + split; [lia|]. split; [|intros; lia].
      unfold arr_get. replace (i - i) with 0 by lia. done.
Qed.

Lemma first_unused_0 (st : driver) :
  let r := first_unused (socks st) 0 in
  0 <= r /\ sock st r = None /\ forall j, 0 <= j < r -> sock st j <> None.
Proof.
  destruct (first_unused_spec (socks st) 0 ltac:(lia)) as (H1 & H2 & H3).
  simpl. rewrite Z.sub_0_r in H2. split; [done|]. split; [done|].
  intros j Hj. specialize (H3 j Hj). by rewrite Z.sub_0_r in H3.
Qed.

Lemma create_id (st : driver) (host : string) (port : Z) :
  snd (netCallbacks.create (Some host) port st)
    = (if first_unused (socks st) 0 >=? MAXSOCKETS
       then first_unused (socks st) 0 - 1
       else first_unused (socks st) 0).
Proof.
  unfold netCallbacks.create.
  by destruct (first_unused (socks st) 0 >=? MAXSOCKETS).
Qed.

(** C3, as stated, fails: with the twelve client slots occupied, [create]
    hands out slot 11, which was in use. *)
Lemma create_on_full_table :
  (forall i, 0 <= i < MAXSOCKETS -> sock full_driver i <> None) /\
  snd (netCallbacks.create (Some "example.org") 80 full_driver) = 11 /\
  sock full_driver (snd (netCallbacks.create (Some "example.org") 80 full_driver))
    = Some Ready /\
  sock full_driver (snd (netCallbacks.create (Some "example.org") 80 full_driver))
    <> None.
Proof.
  split; [|by vm_compute].
  intros i Hi. unfold MAXSOCKETS in Hi.
  assert (i = 0 \/ i = 1 \/ i = 2 \/ i = 3 \/ i = 4 \/ i = 5 \/ i = 6 \/ i = 7
          \/ i = 8 \/ i = 9 \/ i = 10 \/ i = 11) as H by lia.
  repeat (destruct H as [->|H]; [by vm_compute|]). subst. by vm_compute.
Qed.

(** When no client slot is free the returned id is the one just below the
    first unused index; it was in use, and a close command is issued for it. *)
Lemma create_without_free_slot (st : driver) (host : string) (port : Z) :
  (forall i, 0 <= i < MAXSOCKETS -> sock st i <> None) ->
  let id := snd (netCallbacks.create (Some host) port st) in
  id = first_unused (socks st) 0 - 1 /\
  MAXSOCKETS - 1 <= id /\
  sock st id <> None.
Proof.
  intros Hfull. destruct (first_unused_0 st) as (H0 & Hnone & Hbelow).
  cbv zeta in *. rewrite create_id.
  destruct (first_unused (socks st) 0 >=? MAXSOCKETS) eqn:E.
  - assert (MAXSOCKETS <= first_unused (socks st) 0) by lia.
    unfold MAXSOCKETS in *. split; [done|]. split; [lia|]. apply Hbelow. lia.
  - exfalso. apply (Hfull (first_unused (socks st) 0)); [lia | done].
Qed.

(** C3, amended: whenever some client id below [MAXSOCKETS] is unused,
    [create(host, port)] with a defined host returns the lowest id whose
    state immediately before the call was unused. *)
Theorem create_returns_unused_slot (st : driver) (host : string) (port : Z) :
  (exists i, 0 <= i < MAXSOCKETS /\ sock st i = None) ->
  let id := snd (netCallbacks.create (Some host) port st) in
  0 <= id < MAXSOCKETS /\
  sock st id = None /\
  forall j, 0 <= j < id -> sock st j <> None.
Proof.
  intros (i & Hi & Hfree). destruct (first_unused_0 st) as (H0 & Hnone & Hbelow).
  cbv zeta in *. rewrite create_id.
  destruct (first_unused (socks st) 0 >=? MAXSOCKETS) eqn:E.
  - exfalso. apply (Hbelow i); [lia | done].
  - split; [lia|]. split; done.
Qed.

Lemma create_returns_unused_slot_witness :
  let id := snd (netCallbacks.create (Some "example.org") 80 one_free_driver) in
  0 <= id < MAXSOCKETS /\
  sock one_free_driver id = None /\
  forall j, 0 <= j < id -> sock one_free_driver j <> None.
Proof.
  apply (create_returns_unused_slot one_free_driver "example.org" 80).
  exists 1. split; [vm_compute; split; congruence | reflexivity].
Defined.

(** ** Slicing a line at known offsets *)

Lemma substr_inside (p m s : string) :
  JS.substr (p +:+ m +:+ s) (JS.len p) (JS.len m) = m.
Proof.
  unfold JS.substr.
  pose proof (len_app p (m +:+ s)) as H1. pose proof (len_app m s) as H2.
  pose proof (len_nonneg p). pose proof (len_nonneg m). pose proof (len_nonneg s).
  replace (JS.len p <? 0) with false by (symmetry; apply Z.ltb_ge; lia).
  cbv zeta iota.
  etransitivity; [|apply (substring_inside p m s)].
  f_equal; unfold JS.len in *; lia.
Qed.

Lemma substr_from_skip (p s : string) :
  JS.substr_from (p +:+ s) (JS.len p) = s.
Proof.
  unfold JS.substr_from, JS.substr.
  pose proof (len_app p s) as H1.
  pose proof (len_nonneg p). pose proof (len_nonneg s).
  replace (JS.len p <? 0) with false by (symmetry; apply Z.ltb_ge; lia).
  cbv zeta iota.
  etransitivity; [|apply (substring_all s (String.length s)); lia].
  etransitivity; [|apply (substring_skip p s)].
  f_equal; unfold JS.len in *; lia.
Qed.

Lemma substr_from_past (s : string) (n : Z) :
  JS.len s <= n -> JS.substr_from s n = "".
Proof.
  intros Hn. unfold JS.substr_from, JS.substr. pose proof (len_nonneg s).
  replace (n <? 0) with false by (symmetry; apply Z.ltb_ge; lia).
  cbv zeta iota.
  apply substring_past. unfold JS.len in *. lia.
Qed.

Lemma substring_inside_js (p m s : string) :
  JS.substring (p +:+ m +:+ s) (JS.len p) (JS.len p + JS.len m) = m.
Proof.
  unfold JS.substring.
  pose proof (len_app p (m +:+ s)) as H1. pose proof (len_app m s) as H2.
  pose proof (len_nonneg p). pose proof (len_nonneg m). pose proof (len_nonneg s).
  cbv zeta.
  etransitivity; [|apply (substring_inside p m s)].
  f_equal; unfold JS.len in *; lia.
Qed.

Lemma substring_tail_js (p s : string) :
  JS.substring (p +:+ s) (JS.len p) (JS.len (p +:+ s)) = s.
Proof.
  rewrite len_app.
  pose proof (substring_inside_js p s "") as H.
  by rewrite app_nil_r_str in H.
Qed.

(** ** Geolocation *)

Lemma geoLoc_cb_stopped (period : Z) (g : geo) (r : option string) :
  geoPos g = false ->
  geoPos (vars (geoLoc_cb period g r)) = false /\
  actions (geoLoc_cb period g r) = [].
Proof.
  intros Hg. unfold geoLoc_cb.
  repeat case_match; simpl in *; try congruence; split; congruence.
Qed.

Lemma run_geoLoc_stopped (period : Z) (x : session geo) (rs : list (option string)) :
  geoPos (now x) = false ->
  geoPos (now (run (geoLoc_cb period) x rs)) = false /\
  trace (run (geoLoc_cb period) x rs) = trace x.
Proof.
  revert x. induction rs as [|r rs IH]; intros x Hx; simpl; [done|].
  destruct (pending x); [|done].
  destruct (geoLoc_cb_stopped period (now x) r Hx) as [Hg Ha].
  edestruct (IH (Session (vars (geoLoc_cb period (now x) r))
                   (trace x ++ actions (geoLoc_cb period (now x) r))
                   (waiting (geoLoc_cb period (now x) r)))) as [IH1 IH2]; [done|].
  split; [exact IH1|]. rewrite IH2. simpl. by rewrite Ha, app_nil_r.
Qed.

Lemma geoLoc_cb_fix (period : Z) (g : geo) (fix_ : string) :
  geoLoc_cb period g (Some ("+QCELLLOC: " +:+ fix_))
    = Outcome (Geo fix_ (geoPos g)) [] true.
Proof.
  unfold geoLoc_cb.
  assert (JS.eq_lit (Some ("+QCELLLOC: " +:+ fix_)) "OK" = false) as -> by done.
  unfold starts.
  change (JS.show (Some ("+QCELLLOC: " +:+ fix_))) with ("+QCELLLOC: " +:+ fix_).
  assert (JS.truthy (Some ("+QCELLLOC: " +:+ fix_)) = true) as -> by done.
  rewrite (substr_inside "" "+QCELLLOC:" (" " +:+ fix_)
            : JS.substr ("+QCELLLOC: " +:+ fix_) 0 10 = "+QCELLLOC:").
  assert (JS.indexOf ("+QCELLLOC: " +:+ fix_) " " = 10) as -> by (vm_compute; reflexivity).
  by rewrite (substring_tail_js "+QCELLLOC: " fix_
               : JS.substring ("+QCELLLOC: " +:+ fix_) (1 + 10) _ = _).
Qed.

(** C5, as stated, fails: a fix delivered by the query that was in flight
    when [geoLocStop()] was called is stored as the cached position. *)
Lemma geoLocStop_then_fix_arrives :
  let stopped := stop_during polling in
  let x := run (geoLoc_cb 60000) stopped [Some "+QCELLLOC: 11.581,48.135"; Some "OK"] in
  pending stopped = true /\
  longlat (now stopped) = "" /\
  longlat (now x) = "11.581,48.135" /\
  longlat (now x) <> "".
Proof. vm_compute. repeat split; congruence. Qed.

Lemma geoLoc_cb_unless_fix (period : Z) (g : geo) (r : option string) :
  longlat g = "" ->
  starts r 10 "+QCELLLOC:" = true \/ longlat (vars (geoLoc_cb period g r)) = "".
Proof.
  intros Hg. unfold geoLoc_cb.
  destruct (starts r 10 "+QCELLLOC:"); [by left | right].
  repeat case_match; done.
Qed.

(** C5, amended: after [geoLocStop()] the cached position is empty and no
    further query is scheduled, whatever the query in flight delivers
    afterwards; the cached position stays empty when that query times out
    or is answered by anything but a [+QCELLLOC:] line, whereas a
    well-formed [+QCELLLOC: <fix>] answer is stored as the cached position. *)
Theorem geoLocStop_clears_and_stops (period : Z) (x : session geo)
    (rs : list (option string)) (r : option string) (fix_ : string) :
  let y := stop_during x in
  longlat (now y) = "" /\
  geoPos (now y) = false /\
  trace (run (geoLoc_cb period) y rs) = trace x /\
  geoPos (now (run (geoLoc_cb period) y rs)) = false /\
  (starts r 10 "+QCELLLOC:" = true \/
   longlat (vars (geoLoc_cb period (now y) r)) = "") /\
  longlat (vars (geoLoc_cb period (now y) (Some ("+QCELLLOC: " +:+ fix_)))) = fix_.
Proof.
  intros y.
  destruct (run_geoLoc_stopped period y rs eq_refl) as [Hpos Htrace].
  repeat split; try done.
  - by apply geoLoc_cb_unless_fix.
  - by rewrite geoLoc_cb_fix.
Qed.

(** ** Exchanges with the AT engine *)

Lemma run_step {V} (cb : V -> option string -> outcome V) (x : session V)
    (r : option string) (rs : list (option string)) :
  pending x = true ->
  run cb x (r :: rs)
    = run cb (Session (vars (cb (now x) r)) (trace x ++ actions (cb (now x) r))
                (waiting (cb (now x) r))) rs.
Proof. intros H. simpl. by rewrite H. Qed.

Lemma run_halted {V} (cb : V -> option string -> outcome V) (x : session V)
    (rs : list (option string)) :
  pending x = false -> run cb x rs = x.
Proof. intros H. destruct rs; simpl; [done | by rewrite H]. Qed.

Lemma run_app {V} (cb : V -> option string -> outcome V) (x : session V)
    (rs rs' : list (option string)) :
  run cb x (rs ++ rs') = run cb (run cb x rs) rs'.
Proof.
  revert x. induction rs as [|r rs IH]; intros x; [done|].
  simpl. destruct (pending x) eqn:E; [apply IH|].
  by rewrite run_halted.
Qed.

(** ** The lifecycle: synchronisation *)

Lemma init_cb_sync_failure (fc : bool) (v : init_vars) (r : option string) :
  s v = AT_SYNCHRO -> sync_failure r ->
  init_cb fc v r =
    let v' := with_atSync (atSync v + 1) (with_s AT_SYNCHRO v) in
    if atSync v + 1 <=? 10
    then Outcome v' [probe] false
    else Outcome v' [Callback (Some ("Error in AT sync: " +:+ JS.show r)) None] false.
Proof. intros Hs [Hat Hok]. unfold init_cb. by rewrite Hs, Hat, Hok. Qed.

(** As long as the counter stays within ten, every failed probe schedules
    the next one and nothing is reported. *)
Lemma sync_failures_within_budget (fc : bool) (rs : list (option string))
    (x : session init_vars) :
  s (now x) = AT_SYNCHRO ->
  pending x = true ->
  Forall sync_failure rs ->
  atSync (now x) + Z.of_nat (length rs) <= 10 ->
  let y := run (init_cb fc) x rs in
  trace y = trace x ++ replicate (length rs) probe /\
  pending y = true /\
  s (now y) = AT_SYNCHRO /\
  atSync (now y) = atSync (now x) + Z.of_nat (length rs).
Proof.
  revert x. induction rs as [|r rs IH]; intros x Hs Hp Hall Hbudget.
  - simpl. rewrite app_nil_r. repeat split; try done. lia.
  - inversion Hall as [|? ? Hr Hrs]; subst. cbn zeta.
    rewrite run_step by done. rewrite init_cb_sync_failure by done.
    simpl length in *. cbn zeta.
    destruct (atSync (now x) + 1 <=? 10) eqn:E; [|lia].
    edestruct (IH (Session (with_atSync (atSync (now x) + 1) (with_s AT_SYNCHRO (now x)))
                     (trace x ++ [probe]) true)) as (H1 & H2 & H3 & H4);
      [done | done | done | simpl; lia |].
    cbn [vars actions waiting again existsb is_command probe orb].
    fold probe. rewrite H1, H2, H3, H4. simpl.
    rewrite <- app_assoc. repeat split; try done. lia.
Qed.

(** However the ten answers fail, [init] has by then issued eleven probes
    and reported nothing. *)
Lemma init_after_ten_failed_probes (fc : bool) (ccid0 : option string)
    (rs : list (option string)) :
  length rs = 10%nat ->
  Forall sync_failure rs ->
  trace (init fc ccid0 rs) = replicate 11 probe /\
  pending (init fc ccid0 rs) = true.
Proof.
  intros Hlen Hall.
  destruct (sync_failures_within_budget fc rs (started (init_start ccid0)))
    as (H1 & H2 & _); try done.
  { simpl. lia. }
  unfold init. rewrite H1, H2, Hlen. done.
Qed.

(** C1: with every probe answered by a token other than "OK", the tenth
    failure does not end the synchronisation.  After ten failed probes
    nothing has been reported and an eleventh probe has been issued; the
    error is reported only when that one fails too.  (The source announces
    failure "after sending AT 10 times", but tests [atSync <= 10] after
    the increment.) *)
Theorem init_sync_eleven_probes :
  let ten := init false None (replicate 10 (Some "ERROR")) in
  let eleven := init false None (replicate 11 (Some "ERROR")) in
  callbacks (trace ten) = [] /\
  commands (cmd "AT") (trace ten) = replicate 11 probe /\
  pending ten = true /\
  callbacks (trace eleven) = [(Some "Error in AT sync: ERROR", None)] /\
  commands (cmd "AT") (trace eleven) = replicate 11 probe /\
  pending eleven = false.
Proof. vm_compute. repeat split; reflexivity. Qed.

(** ** The lifecycle: packet-service attachment *)

Section Attach.

Variables (fc : bool) (sync : Z) (rep : bool) (cc : option string).
Variable r : option string.
Hypothesis Hfail : attach_failure r.

Let at_state (x : AtInitSequence) (n : Z) : init_vars := InitVars x sync n rep cc.

Lemma init_cb_attach_first :
  init_cb fc (at_state AT_PS_ATTACHMENT 0) r
    = Outcome (at_state AT_AUTOMATIC_OPERATOR_SELECTION 1)
        [CmdAfter 2000 (cmd "AT+COPS=0") 180000] false.
Proof.
  destruct Hfail as [Ht Hok]. unfold at_state, init_cb. simpl s.
  by rewrite Hok, Ht.
Qed.

Lemma init_cb_attach_retry (n : Z) :
  1 <= n < 3 ->
  init_cb fc (at_state AT_PS_ATTACHMENT n) r
    = Outcome (at_state AT_PS_ATTACHMENT (n + 1)) [attach (2000 * (n + 1)) 75000] false.
Proof.
  intros Hn. destruct Hfail as [Ht Hok]. unfold at_state, attach, init_cb.
  simpl s. rewrite Hok, Ht.
  cbn [attRetry with_attRetry with_s s atSync signal_quality_report ccid].
  destruct (1 =? n + 1) eqn:E1; [lia|].
  destruct (n + 1 <? 4) eqn:E2; [reflexivity | lia].
Qed.

Lemma init_cb_attach_last :
  init_cb fc (at_state AT_PS_ATTACHMENT 3) r
    = Outcome (at_state AT_PS_ATTACHMENT 4)
        [Callback (Some ("Unrecoverable Error, PS attachment failed: " +:+ JS.show r))
           None] false.
Proof.
  destruct Hfail as [Ht Hok]. unfold at_state, init_cb. simpl s.
  by rewrite Hok, Ht.
Qed.

Lemma init_cb_operator_selection (n : Z) (a : option string) :
  init_cb fc (at_state AT_AUTOMATIC_OPERATOR_SELECTION n) a
    = Outcome (at_state AT_LIST_CURRENT_OPERATORS n)
        [CmdAfter 5000 (cmd "AT+COPS?") 10000] false.
Proof. reflexivity. Qed.

Lemma init_cb_list_operators (n : Z) (b : option string) :
  init_cb fc (at_state AT_LIST_CURRENT_OPERATORS n) b
    = Outcome (at_state AT_PS_ATTACHMENT n) [attach 30000 30000] false.
Proof. reflexivity. Qed.

End Attach.

(** When each failed attach is answered by an error line: from the attach
    state with no failure counted yet, a failed attach, the operator
    selection and the operator listing (whatever they answer), and three
    more failed attaches -- the blind retry and the two retries with
    back-off -- end with the callback invoked once, with the
    "Unrecoverable" error; the exchange is then over, nothing further is
    scheduled, and later input changes nothing. *)
Theorem attach_retries_exhausted (fc : bool) (x : session init_vars)
    (r0 a b r1 r2 r3 : option string) (more : list (option string)) :
  s (now x) = AT_PS_ATTACHMENT ->
  attRetry (now x) = 0 ->
  pending x = true ->
  attach_failure r0 -> attach_failure r1 -> attach_failure r2 -> attach_failure r3 ->
  let y := run (init_cb fc) x ([r0; a; b; r1; r2; r3] ++ more) in
  trace y = trace x ++
    [CmdAfter 2000 (cmd "AT+COPS=0") 180000;
     CmdAfter 5000 (cmd "AT+COPS?") 10000;
     attach 30000 30000;
     attach 4000 75000;
     attach 6000 75000;
     Callback (Some ("Unrecoverable Error, PS attachment failed: " +:+ JS.show r3)) None] /\
  callbacks (trace y) = callbacks (trace x) ++
    [(Some ("Unrecoverable Error, PS attachment failed: " +:+ JS.show r3), None)] /\
  pending y = false.
Proof.
  intros Hs Hatt Hp F0 F1 F2 F3.
  destruct x as [[s0 sync att rep cc] t p]. simpl in Hs, Hatt, Hp. subst.
  assert (run (init_cb fc)
            (Session (InitVars AT_PS_ATTACHMENT sync 0 rep cc) t true)
            ([r0; a; b; r1; r2; r3] ++ more)
          = Session (InitVars AT_PS_ATTACHMENT sync 4 rep cc)
              (t ++
               [CmdAfter 2000 (cmd "AT+COPS=0") 180000;
                CmdAfter 5000 (cmd "AT+COPS?") 10000;
                attach 30000 30000; attach 4000 75000; attach 6000 75000;
                Callback (Some ("Unrecoverable Error, PS attachment failed: "
                                +:+ JS.show r3)) None])
              false) as ->.
  { cbn [app].
    rewrite run_step by done. cbn [now]. rewrite init_cb_attach_first by done.
    rewrite run_step by done. cbn [now vars]. rewrite init_cb_operator_selection.
    rewrite run_step by done. cbn [now vars]. rewrite init_cb_list_operators.
    rewrite run_step by done. cbn [now vars].
    rewrite (init_cb_attach_retry fc sync rep cc r1 F1 1) by lia.
    rewrite run_step by done. cbn [now vars].
    rewrite (init_cb_attach_retry fc sync rep cc r2 F2 (1 + 1)) by lia.
    rewrite run_step by done. cbn [now vars].
    rewrite (init_cb_attach_last fc sync rep cc r3 F3 : init_cb fc
               (InitVars AT_PS_ATTACHMENT sync (1 + 1 + 1) rep cc) r3 = _).
    rewrite run_halted by done.
    cbn [vars actions trace]. rewrite <- !app_assoc. done. }
  cbn [trace pending]. split; [done|]. split; [|done].
  unfold callbacks. rewrite omap_app. done.
Qed.

Lemma attach_retries_exhausted_witness :
  let y := run (init_cb false) before_attach
             ([Some "ERROR"; Some "OK"; Some "+COPS: 0"; Some "ERROR"; Some "ERROR";
               Some "+CME ERROR: 30"] ++ [Some "OK"]) in
  trace y = trace before_attach ++
    [CmdAfter 2000 (cmd "AT+COPS=0") 180000;
     CmdAfter 5000 (cmd "AT+COPS?") 10000;
     attach 30000 30000;
     attach 4000 75000;
     attach 6000 75000;
     Callback (Some ("Unrecoverable Error, PS attachment failed: "
                     +:+ JS.show (Some "+CME ERROR: 30"))) None] /\
  callbacks (trace y) = callbacks (trace before_attach) ++
    [(Some ("Unrecoverable Error, PS attachment failed: "
            +:+ JS.show (Some "+CME ERROR: 30")), None)] /\
  pending y = false.
Proof.
  apply (attach_retries_exhausted false before_attach
           (Some "ERROR") (Some "OK") (Some "+COPS: 0") (Some "ERROR") (Some "ERROR")
           (Some "+CME ERROR: 30") [Some "OK"]);
    try reflexivity; split; reflexivity.
Defined.

(** C8: a time-out of the attach command is a failed attach as well, and
    the attach state has no branch for it.  Whichever attempt it is -- the
    first one, the blind retry or a retry with back-off -- when the attach
    command times out the callback of [init] does nothing: no operator
    selection, no retry and no report are added to the trace, and the
    exchange is over, so that nothing fed later is looked at.  (Every other
    state that waits for an answer either reports its time-out or moves
    on.) *)
Theorem attach_timeout_unanswered (fc : bool) (x : session init_vars)
    (more : list (option string)) :
  s (now x) = AT_PS_ATTACHMENT ->
  pending x = true ->
  init_cb fc (now x) None = Outcome (now x) [] false /\
  run (init_cb fc) x (None :: more) = Session (now x) (trace x) false /\
  callbacks (trace (run (init_cb fc) x (None :: more))) = callbacks (trace x) /\
  commands (cmd "AT+CGATT=1") (trace (run (init_cb fc) x (None :: more)))
    = commands (cmd "AT+CGATT=1") (trace x).
Proof.
  intros Hs Hp.
  assert (init_cb fc (now x) None = Outcome (now x) [] false) as Hcb
    by (unfold init_cb; by rewrite Hs).
  assert (run (init_cb fc) x (None :: more) = Session (now x) (trace x) false) as Hrun.
  { rewrite run_step by done. rewrite Hcb. cbn [vars actions].
    rewrite app_nil_r. by rewrite run_halted by reflexivity. }
  rewrite Hrun. done.
Qed.

Lemma attach_timeout_unanswered_witness :
  init_cb false (now before_attach) None = Outcome (now before_attach) [] false /\
  run (init_cb false) before_attach (None :: [Some "OK"])
    = Session (now before_attach) (trace before_attach) false /\
  callbacks (trace (run (init_cb false) before_attach (None :: [Some "OK"])))
    = callbacks (trace before_attach) /\
  commands (cmd "AT+CGATT=1") (trace (run (init_cb false) before_attach (None :: [Some "OK"])))
    = commands (cmd "AT+CGATT=1") (trace before_attach).
Proof.
  apply (attach_timeout_unanswered false before_attach [Some "OK"]); reflexivity.
Defined.

(** ** Completion callbacks *)






(** The configure phase of [connect] timing out is met with silence. *)
Lemma connect_configure_timeout_silent (apn username password : string)
    (rs : list (option string)) :
  callbacks (trace (connect apn username password (None :: rs))) = [] /\
  pending (connect apn username password (None :: rs)) = false.
Proof. unfold connect. rewrite run_step by done. by rewrite run_halted. Qed.












(** ** Numbers in decimal *)

Lemma has_char_app (c : ascii) (a b : string) :
  has_char c (a +:+ b) = has_char c a || has_char c b.
Proof. induction a as [|x a IH]; simpl; [done | by rewrite IH, orb_assoc]. Qed.

Lemma digits_only_app (a b : string) :
  digits_only (a +:+ b) = digits_only a && digits_only b.
Proof. induction a as [|x a IH]; simpl; [done | by rewrite IH, andb_assoc]. Qed.

Lemma digits_only_lacks (c : ascii) (s : string) :
  JS.digit_of c = None -> digits_only s = true -> has_char c s = false.
Proof.
  intros Hc. induction s as [|a s IH]; simpl; [done|].
  intros [Ha Hs]%andb_prop. rewrite (IH Hs), orb_false_r.
  destruct (Ascii.eqb_spec a c) as [->|]; [|done].
  by rewrite Hc in Ha.
Qed.

Lemma digit_of_pretty_char (d : N) :
  (d < 10)%N -> JS.digit_of (pretty_N_char d) = Some (Z.of_N d).
Proof.
  intros Hd.
  assert (d = 0 \/ d = 1 \/ d = 2 \/ d = 3 \/ d = 4 \/ d = 5 \/ d = 6 \/ d = 7
          \/ d = 8 \/ d = 9)%N as H by lia.
  repeat (destruct H as [->|H]; [reflexivity|]). by subst.
Qed.

Lemma decimal_acc_app (acc : Z) (a b : string) :
  JS.decimal_acc acc (a +:+ b) = JS.decimal_acc acc a ≫= fun v => JS.decimal_acc v b.
Proof.
  revert acc. induction a as [|x a IH]; intros acc; simpl; [done|].
  destruct (JS.digit_of x); [apply IH | done].
Qed.

(** What [pretty] prints in front of an accumulator is a run of digits
    that reads back as the number. *)
Lemma pretty_N_go_digits (x : N) (acc : string) :
  exists ds,
    pretty_N_go x acc = ds +:+ acc /\
    digits_only ds = true /\
    JS.decimal_acc 0 ds = Some (Z.of_N x) /\
    (0 < x -> ds <> "")%N.
Proof.
  revert acc. induction (N.lt_wf_0 x) as [x _ IH]; intros acc.
  destruct (decide (x = 0)%N) as [->|Hx].
  - exists "". rewrite pretty_N_go_0. repeat split; try done; lia.
  - rewrite pretty_N_go_step by lia.
    destruct (IH (x `div` 10)%N ltac:(apply N.div_lt; lia)
                (String (pretty_N_char (x `mod` 10)) acc)) as (ds & -> & Hds & Hval & _).
    exists (ds +:+ String (pretty_N_char (x `mod` 10)) "").
    pose proof (N.mod_lt x 10 ltac:(lia)) as Hmod.
    pose proof (digit_of_pretty_char _ Hmod) as Hdig.
    repeat split.
    + by rewrite app_assoc_str.
    + rewrite digits_only_app, Hds. simpl. by rewrite Hdig.
    + rewrite decimal_acc_app, Hval. simpl. rewrite Hdig. f_equal.
      pose proof (N.div_mod x 10 ltac:(lia)). lia.
    + intros _. by destruct ds.
Qed.

Lemma of_number_digits (z : Z) :
  0 <= z ->
  digits_only (JS.of_number z) = true /\
  JS.decimal_acc 0 (JS.of_number z) = Some z.
Proof.
  intros Hz. unfold JS.of_number, pretty, pretty_Z.
  destruct z as [|p|p]; [done| |lia].
  unfold pretty, pretty_positive, pretty, pretty_N.
  destruct (decide (N.pos p = 0)%N) as [|_]; [done|].
  destruct (pretty_N_go_digits (N.pos p) "") as (ds & -> & Hds & Hval & _).
  rewrite app_nil_r_str. split; [done|]. by rewrite Hval.
Qed.

Lemma of_number_lacks (c : ascii) (z : Z) :
  0 <= z -> JS.digit_of c = None -> has_char c (JS.of_number z) = false.
Proof.
  intros Hz Hc. apply digits_only_lacks; [done|]. by apply of_number_digits.
Qed.

Lemma bitor_zero_of_number (z : Z) :
  0 <= z < 2 ^ 31 -> JS.bitor_zero (Some (JS.of_number z)) = Some z.
Proof.
  intros Hz. unfold JS.bitor_zero, JS.to_number.
  destruct (of_number_digits z ltac:(lia)) as [_ ->].
  destruct (z <=? 2 ^ 53) eqn:E; [|lia].
  simpl. f_equal. unfold JS.to_int32.
  rewrite Z.mod_small by lia. lia.
Qed.

(** ** Finding and splitting fields *)

Lemma is_prefix_app (p s : string) : JS.is_prefix p (p +:+ s) = true.
Proof.
  induction p as [|a p IH]; simpl; [done|]. by rewrite Ascii.eqb_refl, IH.
Qed.

Lemma indexOf_from_skip (c : ascii) (n p rest : string) (i : Z) :
  has_char c p = false ->
  JS.indexOf_from i (String c n) (p +:+ String c n +:+ rest) = i + JS.len p.
Proof.
  revert i. induction p as [|a p IH]; intros i Hp.
  - change ("" +:+ String c n +:+ rest) with (String c n +:+ rest).
    assert (JS.is_prefix (String c n) (String c n +:+ rest) = true) as H
      by apply is_prefix_app.
    unfold JS.indexOf_from. destruct (String c n +:+ rest); rewrite H;
      unfold JS.len; simpl; lia.
  - simpl in Hp. apply orb_false_elim in Hp as [Hac Hp].
    change (String a p +:+ String c n +:+ rest)
      with (String a (p +:+ String c n +:+ rest)).
    cbn [JS.indexOf_from JS.is_prefix].
    rewrite Ascii.eqb_sym, Hac. cbn [andb].
    rewrite IH by done. unfold JS.len. simpl String.length. lia.
Qed.

Lemma indexOf_skip (c : ascii) (n p rest : string) :
  has_char c p = false ->
  JS.indexOf (p +:+ String c n +:+ rest) (String c n) = JS.len p.
Proof. intros Hp. unfold JS.indexOf. by rewrite indexOf_from_skip. Qed.

Lemma split_whole (sep : ascii) (s : string) :
  has_char sep s = false -> JS.split sep s = [s].
Proof.
  induction s as [|a s IH]; simpl; [done|].
  intros [Ha Hs]%orb_false_elim. by rewrite Ha, IH.
Qed.

Lemma split_first (sep : ascii) (a rest : string) :
  has_char sep a = false ->
  JS.split sep (a +:+ String sep rest) = a :: JS.split sep rest.
Proof.
  induction a as [|x a IH]; simpl.
  - intros _. by rewrite Ascii.eqb_refl.
  - intros [Hx Ha]%orb_false_elim. by rewrite Hx, IH.
Qed.

Lemma split_two_numbers (a b : Z) :
  0 <= a -> 0 <= b ->
  JS.split "," (JS.of_number a +:+ "," +:+ JS.of_number b)
    = [JS.of_number a; JS.of_number b].
Proof.
  intros Ha Hb.
  change ("," +:+ JS.of_number b) with (String "," (JS.of_number b)).
  rewrite split_first by (by apply of_number_lacks).
  by rewrite split_whole by (by apply of_number_lacks).
Qed.

Section SubstringShift.

Local Open Scope nat_scope.

Lemma substring_shift (p s : string) (n m : nat) :
  String.substring (String.length p + n) m (p +:+ s) = String.substring n m s.
Proof. induction p as [|c p IH]; simpl; done. Qed.

End SubstringShift.

Lemma substr_skip (p s : string) (n : Z) :
  JS.substr (p +:+ s) (JS.len p) n = JS.substr s 0 n.
Proof.
  unfold JS.substr.
  pose proof (len_app p s) as H1.
  pose proof (len_nonneg p). pose proof (len_nonneg s).
  replace (JS.len p <? 0) with false by (symmetry; apply Z.ltb_ge; lia).
  cbv zeta iota. change (0 <? 0) with false. cbv iota.
  rewrite <- (substring_shift p s). f_equal; unfold JS.len in *; lia.
Qed.

Lemma substr_from_shift (p s : string) (n : Z) :
  0 <= n -> JS.substr_from (p +:+ s) (JS.len p + n) = JS.substr_from s n.
Proof.
  intros Hn. unfold JS.substr_from, JS.substr.
  pose proof (len_app p s) as H1.
  pose proof (len_nonneg p). pose proof (len_nonneg s).
  replace (JS.len p + n <? 0) with false by (symmetry; apply Z.ltb_ge; lia).
  replace (n <? 0) with false by (symmetry; apply Z.ltb_ge; lia).
  cbv zeta iota.
  rewrite <- (substring_shift p s). f_equal; unfold JS.len in *; lia.
Qed.

Lemma substr_whole (s : string) (n : Z) :
  JS.len s <= n -> JS.substr s 0 n = s.
Proof.
  intros Hn. unfold JS.substr. pose proof (len_nonneg s).
  change (0 <? 0) with false. cbv zeta iota.
  etransitivity; [|apply (substring_all s (String.length s)); lia].
  f_equal; unfold JS.len in *; lia.
Qed.

Lemma substr_take (p s : string) : JS.substr (p +:+ s) 0 (JS.len p) = p.
Proof. exact (substr_inside "" p s). Qed.

(** ** The reassembly handlers on a well-formed line *)

Lemma recv_header_shape id L tail :
  recv_header id L +:+ tail = (recv_prefix +:+ ",") +:+ fields id L +:+ (CRLF +:+ tail).
Proof. unfold recv_header, fields. by rewrite !app_assoc_str. Qed.

Lemma fields_lack c a b : 0 <= a -> 0 <= b -> JS.digit_of c = None -> c <> ","%char ->
  has_char c (fields a b) = false.
Proof.
  intros Ha Hb Hc Hne. unfold fields. rewrite !has_char_app.
  rewrite (of_number_lacks c a Ha Hc), (of_number_lacks c b Hb Hc).
  cbn [has_char].
  assert (Ascii.eqb "," c = false) as -> by (apply Ascii.eqb_neq; congruence).
  done.
Qed.

(** A complete header followed by [tail]: the handler takes the declared
    number of bytes when they are all there and returns what follows them
    but for one byte; otherwise it takes what there is and returns the
    continuation token for the rest. *)
Lemma receiveHandler_header (st : driver) (id L : Z) (tail : string) :
  0 <= id -> 0 <= L < 2 ^ 31 ->
  receiveHandler (recv_header id L +:+ tail) st
    = Some (if JS.len tail >=? L
            then (data_append (key id) (JS.substr tail 0 L) st,
                  JS.substr_from tail (L + 1))
            else (data_append (key id) tail st, cont_token id (L - JS.len tail))).
Proof.
  intros Hid HL. unfold receiveHandler.
  assert (JS.indexOf (recv_header id L +:+ tail) CRLF
          = 15 + JS.len (fields id L)) as ->.
  { rewrite recv_header_shape, <- app_assoc_str.
    unfold CRLF at 1 2.
    rewrite indexOf_skip.
    - by rewrite len_app.
    - rewrite has_char_app, fields_lack by (done || lia). done. }
  pose proof (len_nonneg (fields id L)) as Hf.
  destruct (15 + JS.len (fields id L) <? 0) eqn:E; [lia|]. clear E.
  assert (JS.substring (recv_header id L +:+ tail) 15 (15 + JS.len (fields id L))
          = fields id L) as ->.
  { rewrite recv_header_shape. exact (substring_inside_js (recv_prefix +:+ ",") _ _). }
  assert (JS.split "," (fields id L) = [JS.of_number id; JS.of_number L]) as ->
    by (apply split_two_numbers; lia).
  cbn [lookup list_lookup]. rewrite bitor_zero_of_number by done.
  cbn [mbind option_bind JS.show].
  assert (JS.len (recv_header id L) = 15 + JS.len (fields id L) + 2) as Hlen.
  { rewrite <- (app_nil_r_str (recv_header id L)), recv_header_shape.
    rewrite !len_app.
    change (JS.len recv_prefix) with 14. change (JS.len ",") with 1.
    change (JS.len CRLF) with 2. change (JS.len "") with 0. lia. }
  rewrite <- Hlen, len_app.
  replace (JS.len (recv_header id L) + JS.len tail - JS.len (recv_header id L))
    with (JS.len tail) by lia.
  replace (15 + JS.len (fields id L) + L + 3)
    with (JS.len (recv_header id L) + (L + 1)) by lia.
  rewrite !substr_skip, substr_from_shift by lia.
  rewrite (substr_whole tail (JS.len tail)) by lia.
  by destruct (JS.len tail >=? L).
Qed.

Lemma cont_token_shape (id n : Z) (tail : string) :
  cont_token id n +:+ tail = "+D," +:+ fields id n +:+ (":" +:+ tail).
Proof. unfold cont_token, fields. by rewrite !app_assoc_str. Qed.

(** A continuation token followed by [tail]: as above, except that what
    follows the outstanding bytes is returned whole. *)
Lemma receiveHandler2_token (st : driver) (id n : Z) (tail : string) :
  0 <= id -> 0 <= n < 2 ^ 31 ->
  receiveHandler2 (cont_token id n +:+ tail) st
    = Some (if JS.len tail >=? n
            then (data_append (key id) (JS.substr tail 0 n) st,
                  JS.substr_from tail n)
            else (data_append (key id) tail st, cont_token id (n - JS.len tail))).
Proof.
  intros Hid Hn. unfold receiveHandler2.
  assert (JS.indexOf (cont_token id n +:+ tail) ":" = 3 + JS.len (fields id n)) as ->.
  { rewrite cont_token_shape, <- app_assoc_str.
    change (":" +:+ tail) with (String ":" "" +:+ tail).
    rewrite (indexOf_skip ":" "" ("+D," +:+ fields id n) tail).
    - by rewrite len_app.
    - rewrite has_char_app, fields_lack by (done || lia). done. }
  pose proof (len_nonneg (fields id n)) as Hf.
  destruct (3 + JS.len (fields id n) <? 0) eqn:E; [lia|]. clear E.
  assert (JS.substring (cont_token id n +:+ tail) 3 (3 + JS.len (fields id n))
          = fields id n) as ->.
  { rewrite cont_token_shape. exact (substring_inside_js "+D," _ _). }
  assert (JS.split "," (fields id n) = [JS.of_number id; JS.of_number n]) as ->
    by (apply split_two_numbers; lia).
  cbn [lookup list_lookup]. rewrite bitor_zero_of_number by done.
  cbn [mbind option_bind JS.show].
  assert (JS.len (cont_token id n) = 3 + JS.len (fields id n) + 1) as Hlen.
  { rewrite <- (app_nil_r_str (cont_token id n)), cont_token_shape.
    rewrite !len_app.
    change (JS.len "+D,") with 3. change (JS.len ":") with 1.
    change (JS.len "") with 0. lia. }
  rewrite <- Hlen, len_app.
  replace (JS.len (cont_token id n) + JS.len tail - JS.len (cont_token id n))
    with (JS.len tail) by lia.
  replace (3 + JS.len (fields id n) + n + 1)
    with (JS.len (cont_token id n) + n) by lia.
  rewrite !substr_skip, substr_from_shift by lia.
  rewrite (substr_whole tail (JS.len tail)) by lia.
  by destruct (JS.len tail >=? n).
Qed.

Lemma data_append_twice (k a b : string) (st : driver) :
  data_append k b (data_append k a st) = data_append k (a +:+ b) st.
Proof.
  unfold data_append, data_set, set_sockData. cbn [sockData socks busy dbg at_isBusy
    at_cmds at_written at_handlers at_lineHandlers timers next_timer].
  rewrite lookup_insert_eq, insert_insert_eq. cbn [JS.show].
  by rewrite app_assoc_str.
Qed.

Lemma data_append_lookup (k a : string) (st : driver) :
  sockData (data_append k a st) !! k = Some (JS.show (sockData st !! k) +:+ a).
Proof. unfold data_append, data_set, set_sockData. cbn [sockData]. apply lookup_insert_eq. Qed.

Lemma dispatch_recv (id L : Z) (tail : string) (st : driver) :
  dispatch "" (recv_header id L +:+ tail) st
    = receiveHandler (recv_header id L +:+ tail) st.
Proof.
  unfold dispatch. change ("" +:+ (recv_header id L +:+ tail))
    with (recv_header id L +:+ tail).
  assert (JS.is_prefix recv_prefix (recv_header id L +:+ tail) = true) as ->; [|done].
  unfold recv_header. rewrite app_assoc_str. apply is_prefix_app.
Qed.

Lemma dispatch_cont (id n : Z) (data : string) (st : driver) :
  dispatch (cont_token id n) data st = receiveHandler2 (cont_token id n +:+ data) st.
Proof. reflexivity. Qed.

(** C2: whatever the socket, the payload and the place where it is cut,
    dispatching the header with the first [k] payload bytes and then,
    together with what the first dispatch returned (the continuation
    token, when bytes are outstanding), the remaining bytes leaves the
    driver -- and so the socket's buffer -- exactly as one dispatch of the
    header with the whole payload does: the payload is appended to the
    buffer.  The payload length is below 2^31, the range of [0|x]. *)
Theorem reassembly_split_invariant (st : driver) (id : Z) (payload : string) (k : nat) :
  0 <= id ->
  JS.len payload < 2 ^ 31 ->
  (k <= String.length payload)%nat ->
  let L := JS.len payload in
  let whole := data_append (key id) payload st in
  exists st1 pending1,
    dispatch "" (recv_header id L +:+ take_str k payload) st = Some (st1, pending1) /\
    pending1 = (if Z.of_nat k <? L then cont_token id (L - Z.of_nat k) else "") /\
    dispatch pending1 (drop_str k payload) st1 = Some (whole, "") /\
    dispatch "" (recv_header id L +:+ payload) st = Some (whole, "") /\
    sockData whole !! key id = Some (JS.show (sockData st !! key id) +:+ payload).
Proof.
  intros Hid HL Hk L whole. pose proof (len_nonneg payload) as H0.
  assert (JS.len (take_str k payload) = Z.of_nat k) as Htake
    by (unfold JS.len; by rewrite length_take_str).
  assert (JS.len (drop_str k payload) = L - Z.of_nat k) as Hdrop.
  { unfold L, JS.len. rewrite length_drop_str by done. lia. }
  assert (Z.of_nat k <= L) as HkL by (unfold L, JS.len; lia).
  assert (dispatch "" (recv_header id L +:+ payload) st = Some (whole, "")) as Hone.
  { rewrite dispatch_recv, receiveHandler_header by (done || lia).
    fold L. rewrite Z.geb_leb, Z.leb_refl.
    rewrite substr_whole by (fold L; lia).
    by rewrite substr_from_past by (fold L; lia). }
  rewrite dispatch_recv, receiveHandler_header by (done || lia).
  rewrite Htake, Z.geb_leb.
  destruct (Z.of_nat k <? L) eqn:E.
  - apply Z.ltb_lt in E.
    destruct (L <=? Z.of_nat k) eqn:E'; [lia|]. clear E'.
    eexists _, _. split; [reflexivity|]. split; [reflexivity|].
    split; [|split; [exact Hone | apply data_append_lookup]].
    rewrite dispatch_cont, receiveHandler2_token by (done || lia).
    rewrite Hdrop, Z.geb_leb, Z.leb_refl.
    rewrite substr_whole by lia. rewrite substr_from_past by lia.
    rewrite data_append_twice. unfold whole. by rewrite take_drop_str.
  - apply Z.ltb_ge in E. assert (Z.of_nat k = L) as Heq by lia.
    destruct (L <=? Z.of_nat k) eqn:E'; [|lia]. clear E'.
    eexists _, _. split; [reflexivity|]. split.
    { apply substr_from_past. lia. }
    split; [|split; [exact Hone | apply data_append_lookup]].
    rewrite substr_whole by lia. rewrite substr_from_past by lia.
    assert (take_str k payload = payload) as ->.
    { unfold take_str. apply substring_all. unfold L, JS.len in Heq. lia. }
    assert (drop_str k payload = "") as ->.
    { unfold drop_str. apply substring_past. unfold L, JS.len in Heq. lia. }
    reflexivity.
Qed.

Lemma reassembly_split_invariant_witness :
  let L := JS.len "hello" in
  let whole := data_append (key 0) "hello" idle_driver in
  exists st1 pending1,
    dispatch "" (recv_header 0 L +:+ take_str 2 "hello") idle_driver
      = Some (st1, pending1) /\
    pending1 = (if Z.of_nat 2 <? L then cont_token 0 (L - Z.of_nat 2) else "") /\
    dispatch pending1 (drop_str 2 "hello") st1 = Some (whole, "") /\
    dispatch "" (recv_header 0 L +:+ "hello") idle_driver = Some (whole, "") /\
    sockData whole !! key 0 = Some (JS.show (sockData idle_driver !! key 0) +:+ "hello").
Proof.
  apply (reassembly_split_invariant idle_driver 0 "hello" 2);
    [lia | reflexivity | simpl; lia].
Defined.

(** C10: when a dispatch holds a complete header, the [L] payload bytes it
    declares and at least one byte more, [receiveHandler] returns for
    re-dispatch what follows the byte after the payload -- that byte is
    dropped -- while [receiveHandler2], given the token for [L] outstanding
    bytes, returns everything after the payload.  Both append the payload
    to the socket's buffer. *)
Theorem trailing_byte_after_payload (st : driver) (id : Z) (payload : string)
    (c : ascii) (rest : string) :
  0 <= id ->
  JS.len payload < 2 ^ 31 ->
  let L := JS.len payload in
  receiveHandler (recv_header id L +:+ payload +:+ String c rest) st
    = Some (data_append (key id) payload st, rest) /\
  receiveHandler2 (cont_token id L +:+ payload +:+ String c rest) st
    = Some (data_append (key id) payload st, String c rest).
Proof.
  intros Hid HL L. subst L. pose proof (len_nonneg payload) as H0.
  pose proof (len_nonneg rest) as H1.
  assert ((JS.len (payload +:+ String c rest) >=? JS.len payload) = true) as Hge.
  { rewrite len_app, Z.geb_leb. apply Z.leb_le.
    pose proof (len_nonneg (String c rest)). lia. }
  split.
  - rewrite receiveHandler_header, Hge by (done || lia).
    rewrite (substr_take payload (String c rest)).
    change (payload +:+ String c rest) with (payload +:+ (String c "" +:+ rest)).
    rewrite <- app_assoc_str.
    assert (JS.len payload + 1 = JS.len (payload +:+ String c "")) as ->
      by (by rewrite len_app).
    by rewrite substr_from_skip.
  - rewrite receiveHandler2_token, Hge by (done || lia).
    rewrite (substr_take payload (String c rest)).
    by rewrite substr_from_skip.
Qed.

Lemma trailing_byte_after_payload_witness :
  let L := JS.len "data" in
  receiveHandler (recv_header 0 L +:+ "data" +:+ String CR (String LF "+QIURC")) idle_driver
    = Some (data_append (key 0) "data" idle_driver, String LF "+QIURC") /\
  receiveHandler2 (cont_token 0 L +:+ "data" +:+ String CR (String LF "+QIURC")) idle_driver
    = Some (data_append (key 0) "data" idle_driver, String CR (String LF "+QIURC")).
Proof.
  apply (trailing_byte_after_payload idle_driver 0 "data" CR (String LF "+QIURC"));
    [lia | reflexivity].
Defined.

(** * Further properties *)

Lemma arr_set_nat_same {A} (l : list (option A)) (i : nat) (v : option A) :
  mjoin (arr_set_nat l i v !! i) = v.
Proof.
  revert l. induction i as [|i IH]; intros [|x l]; simpl; try done; apply IH.
Qed.

Lemma arr_set_nat_other {A} (l : list (option A)) (i j : nat) (v : option A) :
  i <> j -> mjoin (arr_set_nat l i v !! j) = mjoin (l !! j).
Proof.
  revert l j. induction i as [|i IH]; intros [|x l] [|j] Hne; simpl; try done.
  - rewrite (IH [] j) by lia. by destruct j.
  - apply IH. lia.
Qed.

Lemma arr_get_set_same {A} (l : list (option A)) (i : Z) (v : option A) :
  0 <= i -> arr_get (arr_set l i v) i = v.
Proof.
  intros Hi. unfold arr_get, arr_set.
  destruct (i <? 0) eqn:E; [lia|]. apply arr_set_nat_same.
Qed.

Lemma arr_get_set_other {A} (l : list (option A)) (i j : Z) (v : option A) :
  i <> j -> arr_get (arr_set l i v) j = arr_get l j.
Proof.
  intros Hne. unfold arr_get, arr_set.
  destruct (i <? 0) eqn:Ei; [done|].
  destruct (j <? 0) eqn:Ej; [done|].
  apply arr_set_nat_other. lia.
Qed.

Lemma sock_set_same (st : driver) (i : Z) (v : option sock_state) :
  0 <= i -> sock (set_sock i v st) i = v.
Proof. intros Hi. unfold sock, set_sock, set_socks. simpl. by apply arr_get_set_same. Qed.

Lemma sock_set_other (st : driver) (i j : Z) (v : option sock_state) :
  i <> j -> sock (set_sock i v st) j = sock st j.
Proof. intros Hi. unfold sock, set_sock, set_socks. simpl. by apply arr_get_set_other. Qed.

(** ** A socket that has just been created *)

Lemma create_tables (st : driver) (host : string) (port : Z) :
  let id := snd (netCallbacks.create (Some host) port st) in
  let st' := fst (netCallbacks.create (Some host) port st) in
  socks st' = arr_set (socks st) id (Some Wait) /\
  sockData st' = <[key id := ""]> (sockData st) /\
  busy st' = busy st /\ at_isBusy st' = at_isBusy st.
Proof.
  unfold netCallbacks.create.
  destruct (first_unused (socks st) 0 >=? MAXSOCKETS); destruct (port =? 443); done.
Qed.

Lemma create_id_nonneg (st : driver) (host : string) (port : Z) :
  0 <= snd (netCallbacks.create (Some host) port st).
Proof.
  rewrite create_id. destruct (first_unused_0 st) as (H0 & _).
  cbv zeta in H0.
  destruct (first_unused (socks st) 0 >=? MAXSOCKETS) eqn:E; [|done].
  unfold MAXSOCKETS in E. lia.
Qed.



(** ** The result of the open command *)

Lemma eqb_app_same (p a b : string) :
  String.eqb (p +:+ a) (p +:+ b) = String.eqb a b.
Proof. induction p as [|c p IH]; simpl; [done|]. by rewrite Ascii.eqb_refl. Qed.

Lemma open_result_code (sckt : Z) (c c' : string) :
  JS.eq_lit (open_result sckt c) ("+QIOPEN: " +:+ JS.of_number sckt +:+ c')
    = String.eqb c c'.
Proof. unfold open_result, JS.eq_lit. by rewrite !eqb_app_same. Qed.

Lemma open_result_not_OK (sckt : Z) (c : string) :
  JS.eq_lit (open_result sckt c) "OK" = false.
Proof. reflexivity. Qed.

Lemma run_open_success (st : driver) (sckt : Z) (host : string) (port counter : Z)
    (code : string) :
  code = ",0" \/ code = ",563" ->
  run_cmd_handler (OpenSocketCb sckt host port counter) (open_result sckt code) st
    = (set_sock sckt (Some Ready) st, false).
Proof.
  intros Hc. unfold run_cmd_handler.
  rewrite open_result_not_OK, !open_result_code.
  by destruct Hc as [-> | ->].
Qed.

(** X2: once the modem answers the open command of a created socket with
    result 0, or with 563 (identity already in use), the socket is ready:
    with the driver and the engine idle, [send] accepts any payload of at
    most 1460 bytes and returns its length. *)
Theorem created_socket_opens (st : driver) (host : string) (port : Z)
    (code data : string) :
  code = ",0" \/ code = ",563" ->
  busy st = false ->
  at_isBusy st = false ->
  JS.len data <= 1460 ->
  let id := snd (netCallbacks.create (Some host) port st) in
  let st1 := fst (netCallbacks.create (Some host) port st) in
  let st2 := fst (run_cmd_handler (OpenSocketCb id host port 0) (open_result id code) st1) in
  sock st2 id = Some Ready /\
  snd (netCallbacks.send id data st2) = JS.len data /\
  busy (fst (netCallbacks.send id data st2)) = true.
Proof.
  intros Hc Hb Hab Hlen id st1 st2.
  destruct (create_tables st host port) as (_ & _ & Hb1 & Hab1).
  fold st1 in Hb1, Hab1.
  pose proof (create_id_nonneg st host port) as Hid. fold id in Hid.
  assert (st2 = set_sock id (Some Ready) st1) as Hst2
    by (unfold st2; by rewrite run_open_success).
  assert (sock st2 id = Some Ready) as Hr by (rewrite Hst2; by apply sock_set_same).
  split; [done|].
  destruct (send_accepted st2 id data) as (H1 & H2 & _); try done.
  - rewrite Hst2. simpl. congruence.
  - rewrite Hst2. simpl. congruence.
Qed.

Lemma created_socket_opens_witness :
  let id := snd (netCallbacks.create (Some "example.org") 80 one_free_driver) in
  let st1 := fst (netCallbacks.create (Some "example.org") 80 one_free_driver) in
  let st2 := fst (run_cmd_handler (OpenSocketCb id "example.org" 80 0)
                    (open_result id ",563") st1) in
  sock st2 id = Some Ready /\
  snd (netCallbacks.send id "ping" st2) = JS.len "ping" /\
  busy (fst (netCallbacks.send id "ping" st2)) = true.
Proof.
  apply (created_socket_opens one_free_driver "example.org" 80 ",563" "ping");
    [right; reflexivity | reflexivity | reflexivity | vm_compute; congruence].
Defined.

Lemma eq_lit_neq (d : option string) (s : string) :
  d <> Some s -> JS.eq_lit d s = false.
Proof.
  intros Hd. destruct d as [x|]; [|done]. simpl.
  apply String.eqb_neq. congruence.
Qed.

(** X3: when the open command of a created socket times out or is
    answered by anything but "OK" and the results 0, 563 and 566 (a failed
    name resolution, 565, for one), the socket is marked "tobeclosed": its
    buffer being empty, [recv] returns -1 and [send] returns -1 while the
    driver and the engine are idle. *)
Theorem created_socket_refused (st : driver) (host : string) (port : Z)
    (d : option string) (data : string) (maxLen : Z) :
  let id := snd (netCallbacks.create (Some host) port st) in
  let st1 := fst (netCallbacks.create (Some host) port st) in
  let st2 := fst (run_cmd_handler (OpenSocketCb id host port 0) d st1) in
  open_refused id d ->
  busy st = false ->
  at_isBusy st = false ->
  sock st2 id = Some ToBeClosed /\
  snd (netCallbacks.recv id maxLen st2) = CloseIt /\
  snd (netCallbacks.send id data st2) = -1.
Proof.
  intros id st1 st2 (Hok & H0 & H563 & H566) Hb Hab.
  destruct (create_tables st host port) as (_ & Hd1 & Hb1 & Hab1).
  fold st1 id in Hd1, Hb1, Hab1.
  pose proof (create_id_nonneg st host port) as Hid. fold id in Hid.
  assert (exists st1', st2 = set_sock id (Some ToBeClosed) st1' /\
            sockData st1' = sockData st1 /\ busy st1' = busy st1 /\
            at_isBusy st1' = at_isBusy st1) as (st1' & Hst2 & Hd' & Hb' & Hab').
  { unfold st2, run_cmd_handler. rewrite Hok.
    rewrite (eq_lit_neq d _ H0), (eq_lit_neq d _ H563), (eq_lit_neq d _ H566).
    destruct (JS.eq_lit d ("+QIOPEN: " +:+ JS.of_number id +:+ ",565")).
    - by exists st1.
    - destruct (dbg st1); eexists; (split; [reflexivity|done]). }
  assert (sock st2 id = Some ToBeClosed) as Hs by (rewrite Hst2; by apply sock_set_same).
  assert (sockData st2 !! key id = Some "") as Hbuf.
  { rewrite Hst2. simpl. by rewrite Hd', Hd1, lookup_insert_eq. }
  assert (busy st2 = false) as Hb2 by (rewrite Hst2; simpl; congruence).
  assert (at_isBusy st2 = false) as Hab2 by (rewrite Hst2; simpl; congruence).
  split; [done|]. split.
  - unfold netCallbacks.recv. by rewrite Hab2, Hs, Hbuf.
  - unfold netCallbacks.send. by rewrite Hb2, Hab2, Hs.
Qed.

Lemma created_socket_refused_witness :
  let id := snd (netCallbacks.create (Some "example.org") 80 one_free_driver) in
  let st1 := fst (netCallbacks.create (Some "example.org") 80 one_free_driver) in
  let st2 := fst (run_cmd_handler (OpenSocketCb id "example.org" 80 0)
                    (open_result id ",565") st1) in
  sock st2 id = Some ToBeClosed /\
  snd (netCallbacks.recv id 64 st2) = CloseIt /\
  snd (netCallbacks.send id "ping" st2) = -1.
Proof.
  apply (created_socket_refused one_free_driver "example.org" 80
           (open_result 1 ",565") "ping" 64).
  - repeat split; vm_compute; congruence.
  - reflexivity.
  - reflexivity.
Defined.

(** ** Retrying a refused connection *)

Lemma run_open_566 (st : driver) (sckt : Z) (host : string) (port counter : Z) :
  fst (run_cmd_handler (OpenSocketCb sckt host port counter) (open_result sckt ",566") st)
    = if counter <? 5
      then fst (setTimeout (RepeatOpenSocket sckt host port (counter + 1)) 3000 st)
      else set_sock sckt (Some ToBeClosed) st.
Proof.
  unfold run_cmd_handler. rewrite open_result_not_OK, !open_result_code.
  cbn [String.eqb Ascii.eqb Bool.eqb]. by destruct (counter <? 5).
Qed.

Lemma fire_new_timer (st : driver) (a : timer_action) (delay : Z) :
  fire (next_timer st) (fst (setTimeout a delay st))
    = run_timer a (clearTimeout (next_timer st) (fst (setTimeout a delay st))).
Proof. unfold fire. simpl. by rewrite lookup_insert_eq. Qed.

Lemma connect_refused_retries (n : nat) (sckt : Z) (host : string) (port counter : Z)
    (st : driver) :
  0 <= counter -> counter + Z.of_nat n <= 5 ->
  let st' := connect_refused n sckt host port counter st in
  at_cmds st' = at_cmds st ++ open_cmds n sckt host port (counter + 1) /\
  socks st' = socks st.
Proof.
  revert counter st. induction n as [|n IH]; intros counter st H0 Hn;
    cbn [connect_refused open_cmds].
  - by rewrite app_nil_r.
  - rewrite run_open_566. destruct (counter <? 5) eqn:E; [|lia].
    rewrite fire_new_timer.
    destruct (IH (counter + 1)
                (run_timer (RepeatOpenSocket sckt host port (counter + 1))
                   (clearTimeout (next_timer st)
                      (fst (setTimeout (RepeatOpenSocket sckt host port (counter + 1))
                              3000 st)))) ltac:(lia) ltac:(lia)) as [-> ->].
    simpl. by rewrite <- app_assoc.
Qed.

(** X4: a refused connection (result 566) is retried five times and no
    more.  After up to five refusals in a row the socket's state is
    untouched and one further open command has been issued per refusal,
    numbered 1, 2, ...; the sixth refusal issues none and marks the socket
    "tobeclosed", leaving the other slots as they were. *)
Theorem connect_retried_five_times (st : driver) (sckt : Z) (host : string)
    (port : Z) (n : nat) :
  0 <= sckt ->
  (n <= 5)%nat ->
  let st5 := connect_refused n sckt host port 0 st in
  let st6 := connect_refused 6 sckt host port 0 st in
  at_cmds st5 = at_cmds st ++ open_cmds n sckt host port 1 /\
  socks st5 = socks st /\
  at_cmds st6 = at_cmds st ++ open_cmds 5 sckt host port 1 /\
  sock st6 sckt = Some ToBeClosed /\
  (forall j, j <> sckt -> sock st6 j = sock st j).
Proof.
  intros Hs Hn st5 st6.
  destruct (connect_refused_retries n sckt host port 0 st) as [H1 H2]; [lia | lia |].
  split; [done|]. split; [done|].
  destruct (connect_refused_retries 5 sckt host port 0 st) as [H3 H4]; [lia | lia |].
  assert (st6 = set_sock sckt (Some ToBeClosed) (connect_refused 5 sckt host port 0 st))
    as ->.
  { unfold st6.
    change 6%nat with (5 + 1)%nat.
    assert (forall m k c s0, 0 <= c -> c + Z.of_nat m <= 5 ->
              connect_refused (m + k) sckt host port c s0
              = connect_refused k sckt host port (c + Z.of_nat m)
                  (connect_refused m sckt host port c s0)) as Happ.
    { induction m as [|m IHm]; intros k c s0 Hc Hm.
      - simpl. by rewrite Z.add_0_r.
      - cbn [Nat.add connect_refused].
        destruct (c <? 5) eqn:E; [|lia].
        rewrite IHm by lia. f_equal. lia. }
    rewrite (Happ 5%nat 1%nat 0 st) by lia.
    set (s5 := connect_refused 5 sckt host port 0 st).
    change (0 + Z.of_nat 5) with 5.
    cbn [connect_refused]. rewrite run_open_566. reflexivity. }
  split; [exact H3|]. split.
  - by apply sock_set_same.
  - intros j Hj. rewrite sock_set_other by done. unfold sock. by rewrite H4.
Qed.

Lemma connect_retried_five_times_witness :
  let st5 := connect_refused 2 0 "example.org" 80 0 idle_driver in
  let st6 := connect_refused 6 0 "example.org" 80 0 idle_driver in
  at_cmds st5 = at_cmds idle_driver ++ open_cmds 2 0 "example.org" 80 1 /\
  socks st5 = socks idle_driver /\
  at_cmds st6 = at_cmds idle_driver ++ open_cmds 5 0 "example.org" 80 1 /\
  sock st6 0 = Some ToBeClosed /\
  (forall j, j <> 0 -> sock st6 j = sock idle_driver j).
Proof.
  apply (connect_retried_five_times idle_driver 0 "example.org" 80 2); lia.
Defined.

(** ** A [send] from start to end *)

Lemma send_state (st : driver) (sckt : Z) (data : string) :
  busy st = false -> at_isBusy st = false -> sock st sckt = Some Ready ->
  JS.len data <= 1460 ->
  fst (netCallbacks.send sckt data st)
    = Driver (socks st) (sockData st) true (dbg st) (at_isBusy st) (at_cmds st)
        (at_written st ++ [send_cmd sckt data])
        (<[">" := PromptHandler data (next_timer st)]> (at_handlers st))
        (<["ERROR" := SendErrorHandler sckt (next_timer st + 1)]>
           (<["SEND FAIL" := SendFailHandler sckt (next_timer st + 1)]>
              (<["SEND OK" := SendOkHandler (next_timer st + 1)]> (at_lineHandlers st))))
        (<[next_timer st + 1 := (1000, AbortWaitingModemRsp)]>
           (<[next_timer st := (1000, AbortWaitingPrompt)]> (timers st)))
        (next_timer st + 1 + 1).
Proof.
  intros Hb Hab Hs Hlen. unfold netCallbacks.send. rewrite Hb, Hs.
  rewrite Hab at 1.
  destruct (JS.len data >? 1460) eqn:E; [lia|]. reflexivity.
Qed.

(** X5: an accepted [send] whose prompt arrives and which the modem then
    settles with any of the lines 'SEND OK', 'SEND FAIL' and 'ERROR' has
    written the send command followed by the payload and nothing else,
    and leaves the driver as it would be had nothing been sent: not busy,
    no transient handler registered, neither guard timer pending, the
    socket table and the buffers as before. *)
Theorem send_exchange_completes (st : driver) (sckt : Z) (data verdict : string) :
  busy st = false ->
  at_isBusy st = false ->
  sock st sckt = Some Ready ->
  JS.len data <= 1460 ->
  verdict = "SEND OK" \/ verdict = "SEND FAIL" \/ verdict = "ERROR" ->
  let st' := on_line verdict (on_prompt (fst (netCallbacks.send sckt data st))) in
  at_written st' = at_written st ++ [send_cmd sckt data; data] /\
  send_over (next_timer st) st' /\
  socks st' = socks st /\
  sockData st' = sockData st /\
  at_cmds st' = at_cmds st.
Proof.
  intros Hb Hab Hs Hlen Hv st'. unfold st'. rewrite send_state by done.
  unfold on_prompt. cbn [at_handlers]. rewrite lookup_insert_eq.
  unfold on_line, send_over.
  destruct Hv as [-> | [-> | ->]]; cbn; simplify_map_eq;
    (split; [by rewrite <- app_assoc|]); repeat split; try done;
    rewrite lookup_delete_ne by lia; apply lookup_delete_eq.
Qed.

Lemma send_exchange_completes_witness :
  let st' := on_line "SEND FAIL" (on_prompt (fst (netCallbacks.send 0 "ping" idle_driver))) in
  at_written st' = at_written idle_driver ++ [send_cmd 0 "ping"; "ping"] /\
  send_over (next_timer idle_driver) st' /\
  socks st' = socks idle_driver /\
  sockData st' = sockData idle_driver /\
  at_cmds st' = at_cmds idle_driver.
Proof.
  apply (send_exchange_completes idle_driver 0 "ping" "SEND FAIL");
    [reflexivity | reflexivity | reflexivity | vm_compute; congruence
    | right; left; reflexivity].
Defined.

Lemma fire_pending (st : driver) (id delay : Z) (a : timer_action) :
  timers st !! id = Some (delay, a) -> fire id st = run_timer a (clearTimeout id st).
Proof. intros H. unfold fire. by rewrite H. Qed.

(** X6: when neither the prompt nor a verdict arrives, the two guard
    timers of an accepted [send] bring the driver back to rest: the send
    command is all that was written (the payload never is), the driver is
    not busy and no transient handler is left. *)
Theorem send_guard_timers (st : driver) (sckt : Z) (data : string) :
  busy st = false ->
  at_isBusy st = false ->
  sock st sckt = Some Ready ->
  JS.len data <= 1460 ->
  let st' := fire (next_timer st + 1)
               (fire (next_timer st) (fst (netCallbacks.send sckt data st))) in
  at_written st' = at_written st ++ [send_cmd sckt data] /\
  send_over (next_timer st) st' /\
  socks st' = socks st.
Proof.
  intros Hb Hab Hs Hlen st'. unfold st'. rewrite send_state by done.
  rewrite (fire_pending _ (next_timer st) 1000 AbortWaitingPrompt)
    by (cbn [timers]; rewrite lookup_insert_ne by lia; apply lookup_insert_eq).
  cbn [run_timer]. unfold abortWaitingPrompt.
  rewrite (fire_pending _ (next_timer st + 1) 1000 AbortWaitingModemRsp)
    by (cbn; rewrite lookup_delete_ne by lia; apply lookup_insert_eq).
  unfold send_over. cbn. repeat split; try done; simplify_map_eq; try done.
  rewrite lookup_delete_ne by lia. apply lookup_delete_eq.
Qed.

Lemma send_guard_timers_witness :
  let st' := fire (next_timer idle_driver + 1)
               (fire (next_timer idle_driver)
                  (fst (netCallbacks.send 0 "ping" idle_driver))) in
  at_written st' = at_written idle_driver ++ [send_cmd 0 "ping"] /\
  send_over (next_timer idle_driver) st' /\
  socks st' = socks idle_driver.
Proof.
  apply (send_guard_timers idle_driver 0 "ping");
    [reflexivity | reflexivity | reflexivity | vm_compute; congruence].
Defined.



(** ** A close that has to wait *)







(** ** [accept] *)

Lemma accept_from_spec (n : nat) (i : Z) (st : driver) :
  let r := snd (netCallbacks.accept_from n i st) in
  let st' := fst (netCallbacks.accept_from n i st) in
  (r = -1 /\ st' = st /\
   forall j, i <= j < i + Z.of_nat n -> unclaimed st j = false) \/
  (i <= r < i + Z.of_nat n /\ unclaimed st r = true /\
   st' = set_sock r (Some Ready) st /\
   forall j, i <= j < r -> unclaimed st j = false).
Proof.
  revert i. induction n as [|n IH]; intros i; cbn [netCallbacks.accept_from].
  - left. repeat split; try done. intros; lia.
  - fold (unclaimed st i). destruct (unclaimed st i) eqn:E.
    + right. cbn [fst snd]. repeat split; try done; try lia.
    + destruct (IH (i + 1)) as [(H1 & H2 & H3) | (H1 & H2 & H3 & H4)].
      * left. repeat split; try done. intros j Hj.
        destruct (decide (j = i)) as [->|]; [done|]. apply H3. lia.
      * right. repeat split; try done; try lia. intros j Hj.
        destruct (decide (j = i)) as [->|]; [done|]. apply H4. lia.
Qed.

(** X9: [accept] returns the lowest id below [MAXSOCKETS] whose buffer
    holds data while its slot has no state, and gives that slot the state
    [true], changing nothing else; when there is no such id it returns -1
    and changes nothing.  The id it is called with plays no part. *)
Theorem accept_lowest_unclaimed (st : driver) (sckt : Z) :
  let r := snd (netCallbacks.accept sckt st) in
  let st' := fst (netCallbacks.accept sckt st) in
  (r = -1 /\ st' = st /\
   forall j, 0 <= j < MAXSOCKETS -> unclaimed st j = false) \/
  (0 <= r < MAXSOCKETS /\ unclaimed st r = true /\
   st' = set_sock r (Some Ready) st /\
   sock st' r = Some Ready /\
   unclaimed st' r = false /\
   forall j, 0 <= j < r -> unclaimed st j = false).
Proof.
  intros r st'.
  destruct (accept_from_spec (Z.to_nat MAXSOCKETS) 0 st)
    as [(H1 & H2 & H3) | (H1 & H2 & H3 & H4)].
  - left. repeat split; try done.
  - right. fold (netCallbacks.accept sckt st) in H1, H2, H3, H4. fold r st' in H1, H2, H3, H4.
    assert (sock st' r = Some Ready) as Hs by (rewrite H3; apply sock_set_same; lia).
    repeat split; try done; try (unfold MAXSOCKETS in *; lia).
    unfold unclaimed. rewrite Hs. simpl. apply andb_false_r.
Qed.

(** One dispatch of a header with its whole payload. *)
Lemma reassembly_split_invariant_aux (st : driver) (id : Z) (payload : string) :
  0 <= id ->
  JS.len payload < 2 ^ 31 ->
  dispatch "" (recv_header id (JS.len payload) +:+ payload) st
    = Some (data_append (key id) payload st, "") /\
  sockData (data_append (key id) payload st) !! key id
    = Some (JS.show (sockData st !! key id) +:+ payload).
Proof.
  intros Hid HL. pose proof (len_nonneg payload) as H0.
  split; [|apply data_append_lookup].
  rewrite dispatch_recv, receiveHandler_header by (done || lia).
  rewrite Z.geb_leb, Z.leb_refl.
  rewrite substr_whole by lia.
  by rewrite substr_from_past by lia.
Qed.

(** ** Draining a buffer *)

Lemma data_set_same (k v : string) (st : driver) :
  sockData st !! k = Some v -> data_set k v st = st.
Proof.
  intros H. destruct st. unfold data_set, set_sockData. simpl in *.
  f_equal. by apply insert_id.
Qed.

Lemma data_set_twice (k v w : string) (st : driver) :
  data_set k w (data_set k v st) = data_set k w st.
Proof.
  unfold data_set, set_sockData. simpl. f_equal. apply insert_insert_eq.
Qed.


(** [recv] with data buffered hands out the first [min n length] bytes. *)
Lemma recv_takes_prefix (st : driver) (id n : Z) (buf : string) :
  sockData st !! key id = Some buf ->
  buf <> "" ->
  at_isBusy st = false ->
  sock st id <> Some Wait ->
  1 <= n ->
  exists r rest,
    netCallbacks.recv id n st = (data_set (key id) rest st, Data r) /\
    buf = r +:+ rest /\
    1 <= JS.len r.
Proof.
  intros Hbuf Hne Hidle Hwait Hn.
  unfold netCallbacks.recv. rewrite Hidle, Hbuf.
  assert (is_Wait (sock st id) = false) as ->
    by (destruct (sock st id) as [[]|]; simpl; congruence).
  assert (JS.truthy (Some buf) = true) as -> by (destruct buf; simpl; congruence).
  change (JS.show (Some buf)) with buf. cbv [orb].
  assert (1 <= JS.len buf) as Hlen
    by (destruct buf; [done | unfold JS.len; simpl; lia]).
  destruct (JS.len buf >? n) eqn:Hcmp.
  - exists (take_str (Z.to_nat n) buf), (drop_str (Z.to_nat n) buf).
    assert (Z.to_nat n <= String.length buf)%nat as Hle by (unfold JS.len in *; lia).
    assert (JS.substr buf 0 n = take_str (Z.to_nat n) buf) as ->.
    { unfold JS.substr, take_str. simpl. f_equal; lia. }
    assert (JS.substr_from buf n = drop_str (Z.to_nat n) buf) as ->.
    { unfold JS.substr_from, JS.substr, drop_str.
      replace (n <? 0) with false by (symmetry; apply Z.ltb_ge; lia).
      f_equal; unfold JS.len in *; lia. }
    split; [done|]. split; [by rewrite take_drop_str|].
    unfold JS.len at 1. rewrite length_take_str by done. lia.
  - exists buf, "". split; [done|]. split; [by rewrite app_nil_r_str | done].
Qed.

Lemma drain_all (fuel : nat) (st : driver) (id n : Z) (buf : string) :
  sockData st !! key id = Some buf ->
  at_isBusy st = false ->
  sock st id <> Some Wait ->
  1 <= n ->
  (String.length buf <= fuel)%nat ->
  drain fuel id n st = (buf, data_set (key id) "" st).
Proof.
  revert st buf. induction fuel as [|fuel IH]; intros st buf Hbuf Hidle Hwait Hn Hfuel.
  - destruct buf; [|simpl in Hfuel; lia]. simpl. by rewrite data_set_same.
  - destruct (decide (buf = "")) as [->|Hne].
    + cbn [drain]. unfold netCallbacks.recv. rewrite Hidle, Hbuf.
      assert (is_Wait (sock st id) = false) as ->
        by (destruct (sock st id) as [[]|]; simpl; congruence).
      rewrite (data_set_same _ _ _ Hbuf). simpl.
      by destruct (sock st id) as [[]|].
    + destruct (recv_takes_prefix st id n buf Hbuf Hne Hidle Hwait Hn)
        as (r & rest & Hrecv & Hcat & Hr).
      cbn [drain]. rewrite Hrecv.
      destruct r as [|c r]; [unfold JS.len in Hr; simpl in Hr; lia|].
      rewrite (IH (data_set (key id) rest st) rest).
      * rewrite data_set_twice. by rewrite Hcat.
      * unfold data_set, set_sockData. simpl. apply lookup_insert_eq.
      * done.
      * done.
      * done.
      * subst buf. rewrite str_length_app in Hfuel. simpl in Hfuel. lia.
Qed.

(** X10: with the engine idle and the socket not waiting for its
    connection, a reader that keeps calling [recv(id, n)], [n >= 1], until
    it gets no more bytes collects exactly the buffered bytes, in order,
    and leaves the buffer empty and all else unchanged; as many calls as
    there are bytes always suffice. *)
Theorem recv_drains_buffer (fuel : nat) (st : driver) (id n : Z) (buf : string) :
  sockData st !! key id = Some buf ->
  at_isBusy st = false ->
  sock st id <> Some Wait ->
  1 <= n ->
  (String.length buf <= fuel)%nat ->
  drain fuel id n st = (buf, data_set (key id) "" st).
Proof. apply drain_all. Qed.

Lemma recv_drains_buffer_witness :
  drain 5 0 2 recv_witness_driver = ("hello", data_set (key 0) "" recv_witness_driver).
Proof.
  apply (recv_drains_buffer 5 recv_witness_driver 0 2 "hello");
    [reflexivity | reflexivity | discriminate | lia | simpl; lia].
Defined.

(** X11: what arrives is what is read.  For a socket whose buffer is
    empty, a notification carrying [payload] followed by a reader that
    drains the socket hands the reader exactly [payload], and the driver
    is then as it was before the notification. *)
Theorem received_payload_is_read (st : driver) (id n : Z) (payload : string) :
  0 <= id ->
  JS.len payload < 2 ^ 31 ->
  sockData st !! key id = Some "" ->
  at_isBusy st = false ->
  sock st id <> Some Wait ->
  1 <= n ->
  exists st1,
    dispatch "" (recv_header id (JS.len payload) +:+ payload) st = Some (st1, "") /\
    sockData st1 !! key id = Some payload /\
    drain (String.length payload) id n st1 = (payload, st).
Proof.
  intros Hid HL Hbuf Hidle Hwait Hn.
  destruct (reassembly_split_invariant_aux st id payload) as (Hone & Hlook); try done.
  exists (data_append (key id) payload st). split; [done|].
  rewrite Hbuf in Hlook. split; [done|].
  rewrite (drain_all _ _ id n payload); try done.
  f_equal. unfold data_append. rewrite data_set_twice. by apply data_set_same.
Qed.

Lemma received_payload_is_read_witness :
  exists st1,
    dispatch "" (recv_header 0 (JS.len "hello") +:+ "hello") idle_driver = Some (st1, "") /\
    sockData st1 !! key 0 = Some "hello" /\
    drain (String.length "hello") 0 2 st1 = ("hello", idle_driver).
Proof.
  apply (received_payload_is_read idle_driver 0 2 "hello");
    [lia | reflexivity | reflexivity | reflexivity | discriminate | lia].
Defined.

(** ** A payload that arrives in any number of pieces *)







(** ** Notifications that are not complete, and the close notification *)

Lemma indexOf_from_absent (c : ascii) (n s : string) (i : Z) :
  has_char c s = false -> JS.indexOf_from i (String c n) s = -1.
Proof.
  revert i. induction s as [|a s IH]; intros i; simpl; [done|].
  intros [Ha Hs]%orb_false_elim. rewrite Ascii.eqb_sym, Ha. simpl. by apply IH.
Qed.

Lemma indexOf_absent (c : ascii) (n s : string) :
  has_char c s = false -> JS.indexOf s (String c n) = -1.
Proof. apply indexOf_from_absent. Qed.

(** No line ending where no line feed is. *)
Lemma indexOf_CRLF_absent (s : string) (i : Z) :
  has_char LF s = false -> JS.indexOf_from i CRLF s = -1.
Proof.
  revert i. induction s as [|a s IH]; intros i; [done|].
  cbn [has_char]. intros [Ha Hs]%orb_false_elim.
  cbn [JS.indexOf_from JS.is_prefix CRLF].
  assert (match s with
          | "" => false
          | String b _ => Ascii.eqb LF b && true
          end = false) as ->.
  { destruct s as [|b s]; [done|].
    cbn [has_char] in Hs. apply orb_false_elim in Hs as [Hb _].
    by rewrite (Ascii.eqb_sym LF b), Hb. }
  rewrite andb_false_r. by apply IH.
Qed.

(** X13: a notification whose header is not complete yet is left for
    later.  On input without a carriage return [receiveHandler] and
    [closehandler], and on input without a colon [receiveHandler2], return
    the input as it is and change nothing. *)
Theorem handlers_wait_for_header (st : driver) (line line2 : string) :
  has_char CR line = false ->
  has_char ":" line2 = false ->
  receiveHandler line st = Some (st, line) /\
  closehandler line st = Some (st, line) /\
  receiveHandler2 line2 st = Some (st, line2).
Proof.
  intros H1 H2. unfold receiveHandler, closehandler, receiveHandler2.
  unfold CRLF. rewrite !(indexOf_absent CR) by done.
  by rewrite (indexOf_absent ":") by done.
Qed.

Lemma handlers_wait_for_header_witness :
  receiveHandler recv_prefix idle_driver = Some (idle_driver, recv_prefix) /\
  closehandler recv_prefix idle_driver = Some (idle_driver, recv_prefix) /\
  receiveHandler2 "+D,0" idle_driver = Some (idle_driver, "+D,0").
Proof.
  apply (handlers_wait_for_header idle_driver recv_prefix "+D,0"); reflexivity.
Defined.

Lemma closed_notice_lacks (c : ascii) (id : Z) :
  0 <= id -> JS.digit_of c = None -> has_char c closed_prefix = false ->
  c <> ","%char ->
  has_char c (closed_notice id) = false.
Proof.
  intros Hid Hc Hp Hne. unfold closed_notice.
  rewrite !has_char_app, Hp, (of_number_lacks c id Hid Hc).
  cbn [has_char].
  assert (Ascii.eqb "," c = false) as -> by (apply Ascii.eqb_neq; congruence).
  done.
Qed.

Lemma closed_notice_fields (id : Z) :
  0 <= id ->
  JS.split "," (closed_notice id) = [closed_prefix; JS.of_number id].
Proof.
  intros Hid. unfold closed_notice.
  change ("," +:+ JS.of_number id) with (String "," (JS.of_number id)).
  rewrite split_first by done.
  by rewrite split_whole by (by apply of_number_lacks).
Qed.

Lemma closehandler_at (st : driver) (id : Z) (tail : string) :
  0 <= id < 2 ^ 31 ->
  (JS.indexOf (closed_notice id +:+ String CR tail) CRLF = JS.len (closed_notice id) \/
   JS.indexOf (closed_notice id +:+ String CR tail) CRLF < 0) ->
  closehandler (closed_notice id +:+ String CR tail) st = Some (closeSocket id st, "").
Proof.
  intros Hid Hcrlf. unfold closehandler.
  pose proof (len_nonneg (closed_notice id)) as Hlen.
  assert (JS.indexOf (closed_notice id +:+ String CR tail) (String CR "")
          = JS.len (closed_notice id)) as Hcr.
  { change (String CR tail) with (String CR "" +:+ tail).
    apply indexOf_skip. apply closed_notice_lacks; (done || lia). }
  assert ((if JS.indexOf (closed_notice id +:+ String CR tail) CRLF <? 0
           then JS.indexOf (closed_notice id +:+ String CR tail) (String CR "")
           else JS.indexOf (closed_notice id +:+ String CR tail) CRLF)
          = JS.len (closed_notice id)) as ->.
  { destruct Hcrlf as [-> | Hneg].
    - destruct (JS.len (closed_notice id) <? 0) eqn:E; [lia | done].
    - destruct (_ <? 0) eqn:E; [done | lia]. }
  destruct (JS.len (closed_notice id) <? 0) eqn:E; [lia|]. clear E.
  assert (JS.substring (closed_notice id +:+ String CR tail) 0
            (JS.len (closed_notice id)) = closed_notice id) as ->
    by exact (substring_inside_js "" (closed_notice id) (String CR tail)).
  rewrite closed_notice_fields by lia. cbn [lookup list_lookup].
  by rewrite bitor_zero_of_number.
Qed.

(** X14: the close notification [+QIURC: "closed",<id>] for a socket id
    below 2^31 makes [closehandler] call [closeSocket(id)] and return the
    empty string, dropping whatever followed the notification in the
    input, in two cases: when the notification is ended by a line ending
    (carriage return, line feed), whatever follows; and when it is ended
    by a bare carriage return and the input holds no line ending at all
    ([line.indexOf("\r\n") < 0]). *)
Theorem closehandler_closes_and_drops (st : driver) (id : Z) (rest rest' : string) :
  0 <= id < 2 ^ 31 ->
  JS.indexOf (closed_notice id +:+ String CR rest') CRLF < 0 ->
  closehandler (closed_notice id +:+ CRLF +:+ rest) st = Some (closeSocket id st, "") /\
  closehandler (closed_notice id +:+ String CR rest') st = Some (closeSocket id st, "").
Proof.
  intros Hid Hnone. split.
  - apply (closehandler_at st id (String LF rest) Hid). left.
    change (String CR (String LF rest)) with (CRLF +:+ rest).
    unfold CRLF at 2. apply indexOf_skip. apply closed_notice_lacks; (done || lia).
  - apply (closehandler_at st id rest' Hid). by right.
Qed.

Lemma closehandler_closes_and_drops_witness :
  closehandler (closed_notice 0 +:+ CRLF +:+ recv_header 1 2 +:+ "hi") idle_driver
    = Some (closeSocket 0 idle_driver, "") /\
  closehandler (closed_notice 0 +:+ String CR "+QIURC") idle_driver
    = Some (closeSocket 0 idle_driver, "").
Proof.
  apply (closehandler_closes_and_drops idle_driver 0 (recv_header 1 2 +:+ "hi") "+QIURC");
    [lia | vm_compute; reflexivity].
Defined.

(** ** Clearing the socket table, and the reset pulses *)

Lemma key_inj (i j : Z) : key i = key j -> i = j.
Proof. unfold key, JS.of_number. apply pretty_Z_inj. Qed.

Lemma clear_sockets_spec (n : nat) (i0 : Z) (st : driver) :
  0 <= i0 ->
  let st' := clear_sockets n i0 st in
  (forall i, i0 <= i < i0 + Z.of_nat n ->
     sock st' i = None /\ sockData st' !! key i = Some "") /\
  (forall i, ~ (i0 <= i < i0 + Z.of_nat n) ->
     sock st' i = sock st i /\ sockData st' !! key i = sockData st !! key i) /\
  same_engine st st'.
Proof.
  revert i0 st. induction n as [|n IH]; intros i0 st H0; cbn [clear_sockets].
  - split; [intros; lia|]. split; [done|]. by repeat split.
  - destruct (IH (i0 + 1) (data_set (key i0) "" (set_sock i0 None st)) ltac:(lia))
      as (Hin & Hout & Hsame).
    split; [|split].
    + intros i Hi. destruct (decide (i = i0)) as [->|Hne].
      * destruct (Hout i0 ltac:(lia)) as [-> ->]. split.
        -- by apply sock_set_same.
        -- unfold data_set, set_sockData. simpl. apply lookup_insert_eq.
      * apply Hin. lia.
    + intros i Hi. destruct (Hout i ltac:(lia)) as [-> ->]. split.
      * apply sock_set_other. lia.
      * unfold data_set, set_sockData. simpl. apply lookup_insert_ne.
        intros Heq%key_inj. lia.
    + exact Hsame.
Qed.

(** X15: [reset] gives each of the twelve client slots the state unused
    and an empty buffer.  It leaves every other slot, the server slot 12
    among them, as it was, and it touches neither the busy flag nor what
    is registered with the engine nor the pending timers. *)
Theorem reset_clears_client_slots (rst pwrkey : option string)
    (rst_level pwrkey_level flowcontrol : bool) (ccid0 : option string)
    (st : driver) (i : Z) :
  let st' := (reset rst pwrkey rst_level pwrkey_level flowcontrol ccid0 st).1.1 in
  (0 <= i < MAXSOCKETS /\ sock st' i = None /\ sockData st' !! key i = Some "" \/
   ~ (0 <= i < MAXSOCKETS) /\ sock st' i = sock st i /\
     sockData st' !! key i = sockData st !! key i) /\
  same_engine st st'.
Proof.
  intros st'. destruct (clear_sockets_spec (Z.to_nat MAXSOCKETS) 0 st ltac:(lia))
    as (Hin & Hout & Hsame).
  split; [|exact Hsame].
  destruct (decide (0 <= i < MAXSOCKETS)) as [Hi|Hi].
  - left. split; [done|]. apply Hin. unfold MAXSOCKETS in *. lia.
  - right. split; [done|]. apply Hout. unfold MAXSOCKETS in *. lia.
Qed.

Lemma last_level_app (pin : string) (l l' : list hw_action) :
  last_level pin (l ++ l')
    = match last_level pin l' with
      | Some v => Some v
      | None => last_level pin l
      end.
Proof.
  unfold last_level. rewrite fold_left_app.
  generalize (fold_left
    (fun acc a => match a with
                  | DigitalWrite p v => if String.eqb p pin then Some v else acc
                  | Pause _ => acc
                  end) l None).
  induction l' as [|a l' IH] using rev_ind; intros o; [done|].
  rewrite !fold_left_app. simpl. destruct a as [p v|ms]; [|apply IH].
  destruct (String.eqb p pin); [done | apply IH].
Qed.

Lemma last_level_reset_pulse (pin rst : string) (level : bool) :
  last_level pin (reset_pulse rst level)
    = if String.eqb rst pin then Some (negb level) else None.
Proof. unfold last_level, reset_pulse. simpl. by destruct (String.eqb rst pin). Qed.

(** X16: the pulses of [reset] leave every configured output released.
    The last level written to the reset output is the opposite of its
    active level, and so is the last level written to the power key (when
    the two are different outputs); and [init] starts 5.2 s after the
    start when only the power key is configured, 6.2 s when only the
    reset output is, 11.4 s when both are, and at once when neither is. *)
Theorem reset_releases_outputs (rst pwrkey : option string)
    (rst_level pwrkey_level : bool) :
  let acts := reset_pins rst pwrkey rst_level pwrkey_level in
  match rst with
  | Some p => last_level p acts = Some (negb rst_level)
  | None => True
  end /\
  match pwrkey with
  | Some k => rst = Some k \/ last_level k acts = Some (negb pwrkey_level)
  | None => True
  end /\
  total_pause acts
    = (if pwrkey is Some _ then 5200 else 0) + (if rst is Some _ then 6200 else 0).
Proof.
  destruct rst as [p|], pwrkey as [k|]; unfold reset_pins, pwrkey_pulse;
    (split; [|split]); try reflexivity; try exact I.
  - rewrite !last_level_app, last_level_reset_pulse. by rewrite String.eqb_refl.
  - destruct (decide (p = k)) as [->|Hne]; [by left | right].
    rewrite !last_level_app, last_level_reset_pulse.
    assert (String.eqb p k = false) as -> by (by apply String.eqb_neq).
    unfold last_level. simpl. by rewrite String.eqb_refl.
  - rewrite last_level_app, last_level_reset_pulse. by rewrite String.eqb_refl.
  - right. rewrite app_nil_r. unfold last_level. simpl. by rewrite String.eqb_refl.
Qed.

(** ** The lifecycle: waiting for a signal *)

Lemma init_cb_signal_report (fc : bool) (v : init_vars) (r : option string) :
  s v = AT_QUERY_SIGNAL_QUALITY -> starts r 5 "+CSQ:" = true ->
  init_cb fc v r
    = Outcome (with_report (negb (starts r 11 "+CSQ: 99,99")) v) [] true.
Proof. intros Hs Hr. unfold init_cb. by rewrite Hs, Hr. Qed.

Lemma init_cb_signal_OK (fc : bool) (v : init_vars) :
  s v = AT_QUERY_SIGNAL_QUALITY ->
  init_cb fc v (Some "OK")
    = if signal_quality_report v
      then Outcome (with_s AT_PS_ATTACHMENT v) [attach 5000 75000] false
      else Outcome v [query_signal] false.
Proof. intros Hs. unfold init_cb. by rewrite Hs. Qed.

Lemma signal_unknown_rounds (fc : bool) (reports : list (option string))
    (x : session init_vars) :
  s (now x) = AT_QUERY_SIGNAL_QUALITY ->
  pending x = true ->
  Forall signal_unknown reports ->
  let y := run (init_cb fc) x (signal_answers reports) in
  trace y = trace x ++ replicate (length reports) query_signal /\
  pending y = true /\
  s (now y) = AT_QUERY_SIGNAL_QUALITY /\
  attRetry (now y) = attRetry (now x) /\
  atSync (now y) = atSync (now x) /\
  ccid (now y) = ccid (now x).
Proof.
  revert x. induction reports as [|r reports IH]; intros x Hs Hp Hall.
  - simpl. by rewrite app_nil_r.
  - inversion Hall as [|? ? [H5 H11] Hrest]; subst.
    cbn [signal_answers flat_map app]. fold (signal_answers reports).
    rewrite run_step by done. rewrite init_cb_signal_report by done.
    rewrite H11. rewrite run_step by reflexivity. cbn [now vars].
    rewrite init_cb_signal_OK by done.
    cbn [signal_quality_report with_report negb].
    edestruct (IH (Session (with_report false (now x))
                     (trace x ++ [query_signal]) true))
      as (H1 & H2 & H3 & H4 & H6 & H7); [done | done | done |].
    cbn [vars actions trace waiting again existsb is_command query_signal orb].
    fold query_signal. rewrite app_nil_r.
    cbv zeta. rewrite H1, H2, H3, H4, H6, H7. cbn [trace now length replicate].
    rewrite <- app_assoc. by repeat split.
Qed.

(** X17: in the signal-quality state [init] polls without limit.  However
    many times the modem reports the reading "99,99" (not known), each
    report is followed by one more query half a second later and nothing
    is reported to the caller; the first report with another reading is
    followed by the attach command, five seconds later. *)
Theorem signal_polled_until_known (fc : bool) (x : session init_vars)
    (reports : list (option string)) (r : option string) :
  s (now x) = AT_QUERY_SIGNAL_QUALITY ->
  pending x = true ->
  Forall signal_unknown reports ->
  signal_known r ->
  let y := run (init_cb fc) x (signal_answers reports) in
  let z := run (init_cb fc) x (signal_answers (reports ++ [r])) in
  trace y = trace x ++ replicate (length reports) query_signal /\
  pending y = true /\
  trace z = trace y ++ [attach 5000 75000] /\
  pending z = true /\
  s (now z) = AT_PS_ATTACHMENT /\
  attRetry (now z) = attRetry (now x).
Proof.
  intros Hs Hp Hall [H5 H11] y z.
  destruct (signal_unknown_rounds fc reports x Hs Hp Hall) as (H1 & H2 & H3 & H4 & _).
  fold y in H1, H2, H3, H4.
  split; [done|]. split; [done|].
  assert (z = run (init_cb fc) y [r; Some "OK"]) as ->.
  { unfold z, y, signal_answers. rewrite flat_map_app, run_app. reflexivity. }
  rewrite run_step by done. rewrite init_cb_signal_report by done.
  rewrite H11. rewrite run_step by reflexivity. cbn [now vars].
  rewrite init_cb_signal_OK by done.
  cbn [signal_quality_report with_report negb run vars actions trace pending now
       waiting again existsb is_command attach orb s with_s attRetry].
  rewrite app_nil_r. by repeat split.
Qed.

Lemma signal_polled_until_known_witness :
  let y := run (init_cb false) before_signal
             (signal_answers [Some "+CSQ: 99,99"; Some "+CSQ: 99,99"]) in
  let z := run (init_cb false) before_signal
             (signal_answers ([Some "+CSQ: 99,99"; Some "+CSQ: 99,99"]
                              ++ [Some "+CSQ: 20,99"])) in
  trace y = trace before_signal ++ replicate 2 query_signal /\
  pending y = true /\
  trace z = trace y ++ [attach 5000 75000] /\
  pending z = true /\
  s (now z) = AT_PS_ATTACHMENT /\
  attRetry (now z) = attRetry (now before_signal).
Proof.
  apply (signal_polled_until_known false before_signal
           [Some "+CSQ: 99,99"; Some "+CSQ: 99,99"] (Some "+CSQ: 20,99"));
    [reflexivity | reflexivity | repeat constructor | split; reflexivity].
Defined.

(** ** The lifecycle: a report ends it *)

Lemma init_cb_final_report (fc : bool) (v : init_vars) (r : option string) :
  forallb (fun a => negb (final_report a)) (actions (init_cb fc v r)) = true \/
  exists a, actions (init_cb fc v r) = [a] /\ waiting (init_cb fc v r) = false.
Proof.
  destruct v as [s0 sync att rep cc].
  destruct s0; unfold init_cb, report, waiting; cbn [s];
    repeat case_match; simpl in *; try congruence;
    try (left; reflexivity); right; eexists; split; reflexivity.
Qed.

Lemma run_final_report (fc : bool) (rs : list (option string))
    (x : session init_vars) :
  (forall t1 a t2, trace x = t1 ++ a :: t2 -> final_report a = true ->
     t2 = [] /\ pending x = false) ->
  forall t1 a t2,
    trace (run (init_cb fc) x rs) = t1 ++ a :: t2 -> final_report a = true ->
    t2 = [] /\ pending (run (init_cb fc) x rs) = false.
Proof.
  revert x. induction rs as [|r rs IH]; intros x Hx; [exact Hx|].
  cbn [run]. destruct (pending x) eqn:Hp;
    [|intros t1 a t2 H1 H2; destruct (Hx _ _ _ H1 H2); split; [done | exact Hp]].
  apply IH. cbn [trace pending]. intros t1 a t2 Heq Ha.
  assert (forall b, In b (trace x) -> final_report b = false) as Hnone.
  { intros b Hb. destruct (final_report b) eqn:Eb; [|done].
    apply in_split in Hb as (l1 & l2 & Hsplit).
    destruct (Hx l1 b l2 Hsplit Eb) as [_ Hfalse]. congruence. }
  destruct (init_cb_final_report fc (now x) r) as [Hall | (b & Hb & Hw)].
  - exfalso.
    assert (In a (trace x ++ actions (init_cb fc (now x) r))) as Hin
      by (rewrite Heq; apply in_elt).
    apply in_app_or in Hin as [Hin | Hin].
    + rewrite (Hnone a Hin) in Ha. done.
    + rewrite forallb_forall in Hall. specialize (Hall a Hin).
      rewrite Ha in Hall. done.
  - rewrite Hb in Heq. rewrite Hw. split; [|done].
    destruct t2 as [|c t2] using rev_ind; [done|]. exfalso.
    rewrite app_comm_cons, app_assoc in Heq.
    apply app_inj_tail in Heq as [Heq _].
    assert (In a (trace x)) as Hin by (rewrite Heq; apply in_elt).
    rewrite (Hnone a Hin) in Ha. done.
Qed.

(** X18: apart from the report of a failed flow-control setup, an
    invocation of [init]'s callback, with an error or with null, is the
    last thing [init] does: no command or further report follows it, and
    the exchange is over, whatever the modem sends. *)
Theorem init_stops_after_report (fc : bool) (ccid0 : option string)
    (rs : list (option string)) (t1 t2 : list action) (a : action) :
  trace (init fc ccid0 rs) = t1 ++ a :: t2 ->
  final_report a = true ->
  t2 = [] /\ pending (init fc ccid0 rs) = false.
Proof.
  unfold init. apply run_final_report.
  intros l1 b l2 Heq Hb. exfalso.
  destruct l1 as [|c l1]; simpl in Heq.
  - injection Heq as <- _. discriminate.
  - injection Heq as _ Heq. destruct l1; discriminate.
Qed.

Lemma init_stops_after_report_witness :
  @nil action = [] /\ pending (init false None (replicate 11 None)) = false.
Proof.
  apply (init_stops_after_report false None (replicate 11 None)
           (replicate 11 probe) [] (Callback (Some "Error in AT sync: undefined") None));
    reflexivity.
Defined.

(** ** The lifecycle: a modem that answers every step *)

Lemma starts_prefix (p rest : string) :
  p <> "" -> starts (Some (p +:+ rest)) (JS.len p) p = true.
Proof.
  intros Hp. unfold starts. cbn [JS.show].
  rewrite (substr_take p rest), String.eqb_refl.
  destruct p; [done|]. reflexivity.
Qed.

Lemma init_cb_sim_id (fc : bool) (v : init_vars) (iccid : string) (c : ascii) :
  s v = AT_SHOW_SIM_ID ->
  init_cb fc v (Some ("+QCCID: " +:+ iccid +:+ String c ""))
    = Outcome (with_ccid (Some iccid) v) [] true.
Proof.
  intros Hs. unfold init_cb. rewrite Hs.
  rewrite (starts_prefix "+QCCID:" (" " +:+ iccid +:+ String c "") ltac:(done)
            : starts (Some ("+QCCID: " +:+ iccid +:+ String c "")) 7 "+QCCID:" = true).
  cbn [JS.show]. do 2 f_equal.
  assert (JS.len ("+QCCID: " +:+ iccid +:+ String c "") - 1
          = JS.len "+QCCID: " + JS.len iccid) as ->.
  { rewrite !len_app. change (JS.len (String c "")) with 1. lia. }
  f_equal.
  exact (substring_inside_js "+QCCID: " iccid (String c "")).
Qed.

Lemma init_cb_operator_line (fc : bool) (v : init_vars) (rest : string) :
  s v = AT_CURRENT_OPERATOR ->
  init_cb fc v (Some ("+COPS:" +:+ rest)) = Outcome v [] true.
Proof.
  intros Hs. unfold init_cb. rewrite Hs.
  assert (JS.eq_lit (Some ("+COPS:" +:+ rest)) "OK" = false) as -> by reflexivity.
  by rewrite (starts_prefix "+COPS:" rest ltac:(done)
               : starts (Some ("+COPS:" +:+ rest)) 6 "+COPS:" = true).
Qed.

(** X19: on a modem that answers every step, [init] without flow control
    issues its commands in the order AT, ATV1, ATE0, AT+CPIN?, AT+QCCID,
    AT+CSQ, AT+CGATT=1, AT+COPS? and then invokes the callback once, with
    null, which ends it.  The SIM identifier it keeps for [getCCID] is the
    [+QCCID:] line without its first eight characters and without its
    last one. *)
Theorem init_on_cooperative_modem (ccid0 : option string) (iccid : string)
    (c : ascii) (csq : option string) (operator : string) :
  signal_known csq ->
  let x := init false ccid0
             [Some "OK"; Some "OK"; Some "OK"; Some "+CPIN: READY"; Some "OK";
              Some ("+QCCID: " +:+ iccid +:+ String c ""); Some "OK";
              csq; Some "OK"; Some "OK";
              Some ("+COPS:" +:+ operator); Some "OK"] in
  trace x
    = [probe; Cmd (cmd "ATV1") 1000; Cmd (cmd "ATE0") 1000;
       Cmd (cmd "AT+CPIN?") 5000; Cmd (cmd "AT+QCCID") 2000;
       Cmd (cmd "AT+CSQ") 2000; attach 5000 75000;
       Cmd (cmd "AT+COPS?") 20000; Callback None None] /\
  pending x = false /\
  ccid (now x) = Some iccid.
Proof.
  intros [H5 H11] x.
  assert (x = Session (InitVars AT_CURRENT_OPERATOR 0 0 true (Some iccid))
                [probe; Cmd (cmd "ATV1") 1000; Cmd (cmd "ATE0") 1000;
                 Cmd (cmd "AT+CPIN?") 5000; Cmd (cmd "AT+QCCID") 2000;
                 Cmd (cmd "AT+CSQ") 2000; attach 5000 75000;
                 Cmd (cmd "AT+COPS?") 20000; Callback None None] false) as ->;
    [|done].
  unfold x, init.
  change [Some "OK"; Some "OK"; Some "OK"; Some "+CPIN: READY"; Some "OK";
          Some ("+QCCID: " +:+ iccid +:+ String c ""); Some "OK";
          csq; Some "OK"; Some "OK"; Some ("+COPS:" +:+ operator); Some "OK"]
    with ([Some "OK"; Some "OK"; Some "OK"; Some "+CPIN: READY"; Some "OK"] ++
          Some ("+QCCID: " +:+ iccid +:+ String c "") :: Some "OK" :: csq ::
          [Some "OK"; Some "OK"] ++ Some ("+COPS:" +:+ operator) :: [Some "OK"]).
  rewrite run_app.
  assert (run (init_cb false) (started (init_start ccid0))
            [Some "OK"; Some "OK"; Some "OK"; Some "+CPIN: READY"; Some "OK"]
          = Session (InitVars AT_SHOW_SIM_ID 0 0 false ccid0)
              [probe; Cmd (cmd "ATV1") 1000; Cmd (cmd "ATE0") 1000;
               Cmd (cmd "AT+CPIN?") 5000; Cmd (cmd "AT+QCCID") 2000] true) as ->
    by reflexivity.
  rewrite run_step by reflexivity. cbn [now]. rewrite init_cb_sim_id by reflexivity.
  rewrite run_step by reflexivity. cbn [now vars].
  assert (init_cb false (with_ccid (Some iccid)
                           (InitVars AT_SHOW_SIM_ID 0 0 false ccid0)) (Some "OK")
          = Outcome (InitVars AT_QUERY_SIGNAL_QUALITY 0 0 false (Some iccid))
              [Cmd (cmd "AT+CSQ") 2000] false) as -> by reflexivity.
  rewrite run_step by reflexivity. cbn [now vars].
  rewrite init_cb_signal_report by done. rewrite H11.
  cbn [app]. rewrite run_step by reflexivity. cbn [now vars].
  assert (init_cb false (with_report (negb false)
                           (InitVars AT_QUERY_SIGNAL_QUALITY 0 0 false (Some iccid)))
            (Some "OK")
          = Outcome (InitVars AT_PS_ATTACHMENT 0 0 true (Some iccid))
              [attach 5000 75000] false) as -> by reflexivity.
  rewrite run_step by reflexivity. cbn [now vars].
  assert (init_cb false (InitVars AT_PS_ATTACHMENT 0 0 true (Some iccid)) (Some "OK")
          = Outcome (InitVars AT_CURRENT_OPERATOR 0 0 true (Some iccid))
              [Cmd (cmd "AT+COPS?") 20000] false) as -> by reflexivity.
  rewrite run_step by reflexivity. cbn [now vars].
  rewrite init_cb_operator_line by reflexivity.
  rewrite run_step by reflexivity. cbn [now vars].
  assert (init_cb false (InitVars AT_CURRENT_OPERATOR 0 0 true (Some iccid)) (Some "OK")
          = Outcome (InitVars AT_CURRENT_OPERATOR 0 0 true (Some iccid))
              [Callback None None] false) as -> by reflexivity.
  reflexivity.
Qed.

Lemma init_on_cooperative_modem_witness :
  let x := init false None
             [Some "OK"; Some "OK"; Some "OK"; Some "+CPIN: READY"; Some "OK";
              Some ("+QCCID: " +:+ "8988" +:+ String "F" ""); Some "OK";
              Some "+CSQ: 20,99"; Some "OK"; Some "OK";
              Some ("+COPS:" +:+ " 0,0"); Some "OK"] in
  trace x
    = [probe; Cmd (cmd "ATV1") 1000; Cmd (cmd "ATE0") 1000;
       Cmd (cmd "AT+CPIN?") 5000; Cmd (cmd "AT+QCCID") 2000;
       Cmd (cmd "AT+CSQ") 2000; attach 5000 75000;
       Cmd (cmd "AT+COPS?") 20000; Callback None None] /\
  pending x = false /\
  ccid (now x) = Some "8988".
Proof.
  apply (init_on_cooperative_modem None "8988" "F" (Some "+CSQ: 20,99") " 0,0").
  split; reflexivity.
Defined.

(** ** The geolocation poller while it runs *)

Lemma geoLoc_cb_no_fix (period : Z) (g : geo) (e : option string) :
  no_fix e ->
  geoLoc_cb period g e
    = Outcome (Geo "" (geoPos g)) (if geoPos g then [locate period] else []) false.
Proof.
  intros [Hok Hfix]. unfold geoLoc_cb. destruct e as [e|]; [|done].
  by rewrite Hok, Hfix.
Qed.

(** X20: while the poller runs, every query that ends schedules the next
    one, [period] later.  A [+QCELLLOC: <fix>] line followed by "OK" leaves
    [<fix>] as the cached position; a time-out, or a line that is neither,
    leaves the cached position empty. *)
Theorem geoLoc_polls_while_running (period : Z) (x : session geo)
    (fix_ : string) (e : option string) :
  geoPos (now x) = true ->
  pending x = true ->
  no_fix e ->
  let y := run (geoLoc_cb period) x [Some ("+QCELLLOC: " +:+ fix_); Some "OK"] in
  let z := run (geoLoc_cb period) x [e] in
  longlat (now y) = fix_ /\ trace y = trace x ++ [locate period] /\
  pending y = true /\ geoPos (now y) = true /\
  longlat (now z) = "" /\ trace z = trace x ++ [locate period] /\
  pending z = true /\ geoPos (now z) = true.
Proof.
  intros Hg Hp He y z.
  assert (y = Session (Geo fix_ true) (trace x ++ [locate period]) true) as ->.
  { unfold y. rewrite run_step by done. rewrite geoLoc_cb_fix.
    rewrite run_step by reflexivity. cbn [now vars actions].
    assert (geoLoc_cb period (Geo fix_ (geoPos (now x))) (Some "OK")
            = Outcome (Geo fix_ true) [locate period] false) as ->
      by (unfold geoLoc_cb; cbn; by rewrite Hg).
    cbn. by rewrite app_nil_r. }
  assert (z = Session (Geo "" true) (trace x ++ [locate period]) true) as ->.
  { unfold z. rewrite run_step by done. rewrite geoLoc_cb_no_fix by done.
    rewrite Hg. reflexivity. }
  by repeat split.
Qed.

Lemma geoLoc_polls_while_running_witness :
  let y := run (geoLoc_cb 60000) polling [Some ("+QCELLLOC: " +:+ "11.5,48.1"); Some "OK"] in
  let z := run (geoLoc_cb 60000) polling [None] in
  longlat (now y) = "11.5,48.1" /\ trace y = trace polling ++ [locate 60000] /\
  pending y = true /\ geoPos (now y) = true /\
  longlat (now z) = "" /\ trace z = trace polling ++ [locate 60000] /\
  pending z = true /\ geoPos (now z) = true.
Proof.
  apply (geoLoc_polls_while_running 60000 polling "11.5,48.1" None);
    [reflexivity | reflexivity | split; reflexivity].
Defined.

(** ** A socket that is to be closed is read to the end first *)

(** X21: for a socket that is marked "tobeclosed", or whose slot is
    unused, nothing buffered is lost: with the engine idle, a reader gets
    every buffered byte, in order, and only then does [recv] return -1,
    changing nothing. *)
Theorem closing_socket_is_drained (fuel : nat) (st : driver) (id n : Z) (buf : string) :
  sockData st !! key id = Some buf ->
  at_isBusy st = false ->
  sock st id = Some ToBeClosed \/ sock st id = None ->
  1 <= n ->
  (String.length buf <= fuel)%nat ->
  let st' := snd (drain fuel id n st) in
  fst (drain fuel id n st) = buf /\
  sockData st' !! key id = Some "" /\
  netCallbacks.recv id n st' = (st', CloseIt).
Proof.
  intros Hbuf Hidle Hs Hn Hfuel st'.
  assert (sock st id <> Some Wait) as Hw by (destruct Hs as [-> | ->]; discriminate).
  unfold st'. rewrite (drain_all fuel st id n buf) by done. cbn [fst snd].
  split; [done|].
  assert (sockData (data_set (key id) "" st) !! key id = Some "") as Hempty
    by (unfold data_set, set_sockData; simpl; apply lookup_insert_eq).
  split; [done|].
  unfold netCallbacks.recv. rewrite Hempty.
  change (at_isBusy (data_set (key id) "" st)) with (at_isBusy st).
  change (sock (data_set (key id) "" st) id) with (sock st id).
  rewrite Hidle. by destruct Hs as [-> | ->].
Qed.

Lemma closing_socket_is_drained_witness :
  let st' := snd (drain 3 0 2 closing_driver) in
  fst (drain 3 0 2 closing_driver) = "bye" /\
  sockData st' !! key 0 = Some "" /\
  netCallbacks.recv 0 2 st' = (st', CloseIt).
Proof.
  apply (closing_socket_is_drained 3 closing_driver 0 2 "bye");
    [reflexivity | reflexivity | left; reflexivity | lia | simpl; lia].
Defined.

(** ** The MQTT packet codec *)

Import MQTT.

Lemma byte_forall (P : Z -> bool) (n : nat) :
  forallb P (map Z.of_nat (seq 0 n)) = true ->
  forall b, 0 <= b < Z.of_nat n -> P b = true.
Proof.
  intros H b Hb. rewrite forallb_forall in H. apply H.
  apply in_map_iff. exists (Z.to_nat b). split; [lia|].
  apply in_seq. lia.
Qed.

Lemma byte_low (b : Z) :
  0 <= b < 128 -> Z.land b 127 = b /\ Z.land b 128 = 0.
Proof.
  intros Hb.
  pose proof (byte_forall (fun b => (Z.land b 127 =? b) && (Z.land b 128 =? 0)) 128
                eq_refl b Hb) as H.
  apply andb_true_iff in H as [H1 H2]. lia.
Qed.

Lemma byte_high (b : Z) :
  0 <= b < 128 -> Z.land (b + 128) 127 = b /\ Z.land (b + 128) 128 = 128.
Proof.
  intros Hb.
  pose proof (byte_forall
                (fun b => (Z.land (b + 128) 127 =? b) && (Z.land (b + 128) 128 =? 128)) 128
                eq_refl b Hb) as H.
  apply andb_true_iff in H as [H1 H2]. lia.
Qed.

Lemma to_int32_small (x : Z) : 0 <= x < 2 ^ 31 -> JS.to_int32 x = x.
Proof.
  intros Hx. unfold JS.to_int32. rewrite Z.mod_small; lia.
Qed.

Lemma land_127 (x : Z) : 0 <= x -> Z.land x 127 = x mod 128.
Proof. intros Hx. exact (Z.land_ones x 7 ltac:(lia)). Qed.

Lemma shiftr_7 (x : Z) : Z.shiftr x 7 = x / 128.
Proof. exact (Z.shiftr_div_pow2 x 7 ltac:(lia)). Qed.

Lemma code_of_char (b : Z) :
  0 <= b < 256 -> Z.of_N (N_of_ascii (ascii_of_N (Z.to_N (b mod 256)))) = b.
Proof.
  intros Hb. rewrite Z.mod_small by lia.
  rewrite N_ascii_embedding by lia. lia.
Qed.

Lemma charCodeAt_head (b : Z) (s : string) :
  0 <= b < 256 -> charCodeAt (fromCharCode b +:+ s) 0 = Some b.
Proof.
  intros Hb. unfold charCodeAt, fromCharCode. simpl.
  by rewrite code_of_char.
Qed.

Lemma charCodeAt_app (p s : string) (i : Z) :
  0 <= i -> charCodeAt (p +:+ s) (JS.len p + i) = charCodeAt s i.
Proof.
  intros Hi. unfold charCodeAt. pose proof (len_nonneg p).
  replace (JS.len p + i <? 0) with false by (symmetry; apply Z.ltb_ge; lia).
  replace (i <? 0) with false by (symmetry; apply Z.ltb_ge; lia).
  f_equal.
  replace (Z.to_nat (JS.len p + i)) with (String.length p + Z.to_nat i)%nat
    by (unfold JS.len; lia).
  induction p as [|c p IH]; simpl; [done|].
  apply IH. apply len_nonneg.
Qed.

Lemma charCodeAt_past (s : string) (i : Z) :
  JS.len s <= i -> charCodeAt s i = None.
Proof.
  intros Hi. unfold charCodeAt. pose proof (len_nonneg s).
  replace (i <? 0) with false by (symmetry; apply Z.ltb_ge; lia).
  assert (String.length s <= Z.to_nat i)%nat as Hn by (unfold JS.len in *; lia).
  clear -Hn. revert Hn. generalize (Z.to_nat i) as k.
  induction s as [|c s IH]; intros [|k] Hk; simpl in *; try done; try lia.
  apply IH. lia.
Qed.

(** One round of the encoder. *)
Lemma encode_length_step (fuel : nat) (n : Z) (acc : string) :
  0 <= n < 2 ^ 31 ->
  encode_length (S fuel) n acc =
    if 0 <? n / 128
    then encode_length fuel (n / 128) (acc +:+ fromCharCode (n mod 128 + 128))
    else acc +:+ fromCharCode (n mod 128).
Proof.
  intros Hn. cbn [encode_length].
  rewrite to_int32_small, shiftr_7, land_127 by lia.
  by destruct (0 <? n / 128).
Qed.

(** The rounds of the decoder. *)
Lemma decode_length_last (fuel : nat) (s : string) (mul bytes decL b : Z) :
  0 <= b < 128 -> mul * 128 <= 2097152 ->
  charCodeAt s bytes = Some b ->
  decode_length (S fuel) s mul bytes decL = DecLen (decL + mul * b) (bytes + 1).
Proof.
  intros Hb Hmul Hc. cbn [decode_length]. rewrite Hc. cbn [code default from_option id].
  destruct (byte_low b Hb) as [-> ->].
  replace (2097152 <? mul * 128) with false by (symmetry; apply Z.ltb_ge; lia).
  done.
Qed.

Lemma decode_length_more (fuel : nat) (s : string) (mul bytes decL b : Z) :
  0 <= b < 128 -> mul * 128 <= 2097152 -> bytes + 1 < 5 ->
  charCodeAt s bytes = Some (b + 128) ->
  decode_length (S fuel) s mul bytes decL =
    decode_length fuel s (mul * 128) (bytes + 1) (decL + mul * b).
Proof.
  intros Hb Hmul Hby Hc. cbn [decode_length]. rewrite Hc. cbn [code default from_option id].
  destruct (byte_high b Hb) as [-> ->].
  replace (2097152 <? mul * 128) with false by (symmetry; apply Z.ltb_ge; lia).
  change (128 =? 0) with false. cbv iota.
  by replace (bytes + 1 <? 5) with true by (symmetry; apply Z.ltb_lt; lia).
Qed.

Lemma decode_length_end (fuel : nat) (s : string) (mul bytes decL : Z) :
  mul * 128 <= 2097152 ->
  charCodeAt s bytes = None ->
  decode_length (S fuel) s mul bytes decL = DecLen decL (bytes + 1).
Proof.
  intros Hmul Hc. cbn [decode_length]. rewrite Hc. cbn [code default from_option id].
  change (Z.land 0 127) with 0. change (Z.land 0 128) with 0.
  replace (2097152 <? mul * 128) with false by (symmetry; apply Z.ltb_ge; lia).
  change (0 =? 0) with true. cbv iota. f_equal. lia.
Qed.

Lemma decode_length_over (fuel : nat) (s : string) (mul bytes decL : Z) :
  2097152 < mul * 128 ->
  decode_length (S fuel) s mul bytes decL = Zero.
Proof.
  intros Hmul. cbn [decode_length].
  by replace (2097152 <? mul * 128) with true by (symmetry; apply Z.ltb_lt; lia).
Qed.

(** The encoded length, byte by byte. *)
Lemma mqttPacketLength_1 (n : Z) :
  0 <= n < 128 -> mqttPacketLength n = fromCharCode n.
Proof.
  intros Hn. unfold mqttPacketLength. rewrite encode_length_step by lia.
  replace (0 <? n / 128) with false
    by (symmetry; apply Z.ltb_ge; rewrite Z.div_small; lia).
  by rewrite Z.mod_small by lia.
Qed.

Lemma mqttPacketLength_2 (n : Z) :
  128 <= n < 16384 ->
  mqttPacketLength n = fromCharCode (n mod 128 + 128) +:+ fromCharCode (n / 128).
Proof.
  intros Hn. unfold mqttPacketLength. rewrite encode_length_step by lia.
  assert (1 <= n / 128 < 128) as Hq
    by (split; [apply Z.div_le_lower_bound | apply Z.div_lt_upper_bound]; lia).
  replace (0 <? n / 128) with true by (symmetry; apply Z.ltb_lt; lia).
  rewrite encode_length_step by lia.
  replace (0 <? n / 128 / 128) with false
    by (symmetry; apply Z.ltb_ge; rewrite Z.div_small; lia).
  by rewrite (Z.mod_small (n / 128)) by lia.
Qed.

Lemma mqttPacketLength_3 (n : Z) :
  16384 <= n < 2097152 ->
  mqttPacketLength n =
    fromCharCode (n mod 128 + 128) +:+ fromCharCode (n / 128 mod 128 + 128)
    +:+ fromCharCode (n / 128 / 128).
Proof.
  intros Hn. unfold mqttPacketLength. rewrite encode_length_step by lia.
  assert (128 <= n / 128 < 16384) as Hq
    by (split; [apply Z.div_le_lower_bound | apply Z.div_lt_upper_bound]; lia).
  assert (1 <= n / 128 / 128 < 128) as Hq2
    by (split; [apply Z.div_le_lower_bound | apply Z.div_lt_upper_bound]; lia).
  replace (0 <? n / 128) with true by (symmetry; apply Z.ltb_lt; lia).
  rewrite encode_length_step by lia.
  replace (0 <? n / 128 / 128) with true by (symmetry; apply Z.ltb_lt; lia).
  rewrite encode_length_step by lia.
  replace (0 <? n / 128 / 128 / 128) with false
    by (symmetry; apply Z.ltb_ge; rewrite Z.div_small; lia).
  by rewrite (Z.mod_small (n / 128 / 128)) by lia.
Qed.

Lemma encode_length_acc (fuel : nat) (n : Z) (acc : string) :
  exists t, encode_length fuel n acc = acc +:+ t.
Proof.
  revert n acc. induction fuel as [|fuel IH]; intros n acc.
  - exists "". by rewrite app_nil_r_str.
  - cbn [encode_length]. destruct (0 <? Z.shiftr (JS.to_int32 n) 7).
    + destruct (IH (Z.shiftr (JS.to_int32 n) 7)
                  (acc +:+ fromCharCode (Z.land (JS.to_int32 n) 127 + 128))) as [t ->].
      eexists. apply app_assoc_str.
    + by eexists.
Qed.

(** Five rounds are all the encoder ever needs: more fuel changes
    nothing. *)
Lemma encode_length_fuel (fuel : nat) (n : Z) :
  (5 <= fuel)%nat -> encode_length fuel n "" = mqttPacketLength n.
Proof.
  intros Hf. unfold mqttPacketLength.
  assert (-2 ^ 31 <= JS.to_int32 n < 2 ^ 31) as Hr
    by (unfold JS.to_int32; pose proof (Z.mod_pos_bound (n + 2 ^ 31) (2 ^ 32)); lia).
  assert (forall k m acc, 0 <= m < 128 ^ (Z.of_nat k + 1) -> m < 2 ^ 31 ->
            forall f, (S k <= f)%nat ->
            encode_length f m acc = encode_length (S k) m acc) as Hgen.
  { induction k as [|k IH]; intros m acc Hm Hs f Hk.
    - change (128 ^ (Z.of_nat 0 + 1)) with 128 in Hm.
      destruct f as [|f]; [lia|].
      rewrite !encode_length_step by lia.
      by replace (0 <? m / 128) with false
        by (symmetry; apply Z.ltb_ge; rewrite Z.div_small; lia).
    - destruct f as [|f]; [lia|].
      rewrite !encode_length_step by lia.
      destruct (0 <? m / 128) eqn:Hq; [|done].
      assert (0 <= m / 128 <= m) as Hd
        by (split; [apply Z.div_pos; lia | apply Z.div_le_upper_bound; lia]).
      apply IH; [|lia|lia].
      split; [lia|].
      apply Z.div_lt_upper_bound; [lia|].
      replace (Z.of_nat (S k) + 1) with (Z.of_nat k + 1 + 1) in Hm by lia.
      rewrite (Z.pow_add_r 128 (Z.of_nat k + 1) 1) in Hm by lia. lia. }
  destruct fuel as [|fuel]; [lia|].
  cbn [encode_length]. rewrite shiftr_7.
  destruct (0 <? JS.to_int32 n / 128) eqn:Hq; [|done].
  apply Z.ltb_lt in Hq.
  assert (0 <= JS.to_int32 n / 128 < 2 ^ 24) as Hd
    by (split; [lia | apply Z.div_lt_upper_bound; lia]).
  apply (Hgen 3%nat); [|lia|lia].
  change (128 ^ (Z.of_nat 3 + 1)) with 268435456. lia.
Qed.

Lemma charCodeAt_tail (a : Z) (s : string) (i : Z) :
  0 <= i -> charCodeAt (fromCharCode a +:+ s) (i + 1) = charCodeAt s i.
Proof.
  intros Hi. rewrite <- (charCodeAt_app (fromCharCode a) s i Hi).
  f_equal. change (JS.len (fromCharCode a)) with 1. lia.
Qed.

Lemma length_round_trip (n : Z) (rest : string) :
  0 <= n < 2097152 ->
  mqttPacketLengthDec (mqttPacketLength n +:+ rest)
    = DecLen n (JS.len (mqttPacketLength n))
  /\ 1 <= JS.len (mqttPacketLength n) <= 3.
Proof.
  intros Hn. unfold mqttPacketLengthDec.
  pose proof (Z.div_mod n 128 ltac:(lia)) as Hdm.
  pose proof (Z.mod_pos_bound n 128 ltac:(lia)) as Hm.
  assert (n < 128 \/ 128 <= n < 16384 \/ 16384 <= n) as [H1 | [H2 | H3]] by lia.
  - rewrite mqttPacketLength_1 by lia. split; [|by cbn].
    rewrite (decode_length_last _ _ _ _ _ n) by (try lia; apply charCodeAt_head; lia).
    f_equal; first [lia | reflexivity].
  - rewrite mqttPacketLength_2 by lia. split; [|by cbn].
    assert (1 <= n / 128 < 128) as Hq
      by (split; [apply Z.div_le_lower_bound | apply Z.div_lt_upper_bound]; lia).
    rewrite app_assoc_str.
    rewrite (decode_length_more _ _ _ _ _ (n mod 128))
      by (try lia; apply charCodeAt_head; lia).
    rewrite (decode_length_last _ _ _ _ _ (n / 128))
      by (try lia; rewrite charCodeAt_tail by lia; apply charCodeAt_head; lia).
    f_equal; first [lia | reflexivity].
  - rewrite mqttPacketLength_3 by lia. split; [|by cbn].
    assert (128 <= n / 128 < 16384) as Hq
      by (split; [apply Z.div_le_lower_bound | apply Z.div_lt_upper_bound]; lia).
    assert (1 <= n / 128 / 128 < 128) as Hq2
      by (split; [apply Z.div_le_lower_bound | apply Z.div_lt_upper_bound]; lia).
    pose proof (Z.div_mod (n / 128) 128 ltac:(lia)) as Hdm2.
    pose proof (Z.mod_pos_bound (n / 128) 128 ltac:(lia)) as Hm2.
    rewrite !app_assoc_str.
    rewrite (decode_length_more _ _ _ _ _ (n mod 128))
      by (try lia; apply charCodeAt_head; lia).
    rewrite (decode_length_more _ _ _ _ _ (n / 128 mod 128))
      by (try lia; rewrite charCodeAt_tail by lia; apply charCodeAt_head; lia).
    rewrite (decode_length_last _ _ _ _ _ (n / 128 / 128))
      by (try lia; rewrite !charCodeAt_tail by lia; apply charCodeAt_head; lia).
    f_equal; first [lia | reflexivity].
Qed.

(** X22: the packet length written by [mqttPacketLength] is read back by
    [mqttPacketLengthDec], whatever bytes follow it, for every length
    below 2097152; the decoder also reports how many bytes the length
    took, one to three. *)
Theorem packet_length_round_trip (n : Z) (rest : string) :
  0 <= n < 2097152 ->
  mqttPacketLengthDec (mqttPacketLength n +:+ rest)
    = DecLen n (JS.len (mqttPacketLength n))
  /\ 1 <= JS.len (mqttPacketLength n) <= 3.
Proof. apply length_round_trip. Qed.

Lemma packet_length_round_trip_witness :
  mqttPacketLengthDec (mqttPacketLength 321 +:+ "payload")
    = DecLen 321 (JS.len (mqttPacketLength 321))
  /\ 1 <= JS.len (mqttPacketLength 321) <= 3.
Proof. apply (packet_length_round_trip 321 "payload"). lia. Defined.

(** X23: a length of 2097152 or more, which the encoder writes in four
    or five bytes, is not read back: the decoder returns the number 0. *)
Theorem packet_length_four_bytes_rejected (n : Z) (rest : string) :
  2097152 <= n < 2 ^ 31 ->
  mqttPacketLengthDec (mqttPacketLength n +:+ rest) = Zero.
Proof.
  intros Hn. unfold mqttPacketLengthDec, mqttPacketLength.
  pose proof (Z.mod_pos_bound n 128 ltac:(lia)) as Hm.
  assert (16384 <= n / 128 < 2 ^ 24) as Hq
    by (split; [apply Z.div_le_lower_bound | apply Z.div_lt_upper_bound]; lia).
  assert (128 <= n / 128 / 128 < 2 ^ 17) as Hq2
    by (split; [apply Z.div_le_lower_bound | apply Z.div_lt_upper_bound]; lia).
  assert (1 <= n / 128 / 128 / 128 < 2 ^ 10) as Hq3
    by (split; [apply Z.div_le_lower_bound | apply Z.div_lt_upper_bound]; lia).
  pose proof (Z.mod_pos_bound (n / 128) 128 ltac:(lia)) as Hm2.
  pose proof (Z.mod_pos_bound (n / 128 / 128) 128 ltac:(lia)) as Hm3.
  rewrite encode_length_step by lia.
  replace (0 <? n / 128) with true by (symmetry; apply Z.ltb_lt; lia).
  rewrite encode_length_step by lia.
  replace (0 <? n / 128 / 128) with true by (symmetry; apply Z.ltb_lt; lia).
  rewrite encode_length_step by lia.
  replace (0 <? n / 128 / 128 / 128) with true by (symmetry; apply Z.ltb_lt; lia).
  destruct (encode_length_acc 2 (n / 128 / 128 / 128)
              ((("" +:+ fromCharCode (n mod 128 + 128))
                +:+ fromCharCode (n / 128 mod 128 + 128))
               +:+ fromCharCode (n / 128 / 128 mod 128 + 128))) as [t ->].
  rewrite !app_assoc_str. change ("" +:+ ?x) with x.
  rewrite (decode_length_more _ _ _ _ _ (n mod 128))
    by (try lia; apply charCodeAt_head; lia).
  rewrite (decode_length_more _ _ _ _ _ (n / 128 mod 128))
    by (try lia; rewrite charCodeAt_tail by lia; apply charCodeAt_head; lia).
  rewrite (decode_length_more _ _ _ _ _ (n / 128 / 128 mod 128))
    by (try lia; rewrite !charCodeAt_tail by lia; apply charCodeAt_head; lia).
  apply decode_length_over. lia.
Qed.

Lemma packet_length_four_bytes_rejected_witness :
  mqttPacketLengthDec (mqttPacketLength 2097152 +:+ "") = Zero.
Proof. apply (packet_length_four_bytes_rejected 2097152 ""). lia. Defined.

(** ** The data handler of the MQTT client *)

Lemma substring_0_app (p s : string) (k : nat) :
  String.substring 0 (String.length p + k) (p +:+ s) = p +:+ String.substring 0 k s.
Proof. induction p as [|c p IH]; simpl; [done | by rewrite IH]. Qed.

Lemma substr_0_app (p s : string) (k : Z) :
  0 <= k -> JS.substr (p +:+ s) 0 (JS.len p + k) = p +:+ JS.substr s 0 k.
Proof.
  intros Hk. unfold JS.substr.
  pose proof (len_app p s) as H1.
  pose proof (len_nonneg p). pose proof (len_nonneg s).
  change (0 <? 0) with false. cbv zeta iota.
  set (k' := Z.to_nat (Z.min k (JS.len s))).
  transitivity (String.substring 0 (String.length p + k') (p +:+ s));
    [f_equal; unfold k', JS.len in *; lia|].
  rewrite substring_0_app. do 2 f_equal; unfold k', JS.len in *; lia.
Qed.

Lemma nonempty_len (s : string) : nonempty s = (0 <? JS.len s).
Proof. by destruct s. Qed.

(** How the handler cuts a chunk that begins with a whole packet. *)
Lemma on_data_packet (m : mqo) (cmd : Z) (variable payload more : string) :
  partData m = "" ->
  0 <= cmd < 256 ->
  JS.len variable + JS.len payload < 2097152 ->
  let data := mqttPacket cmd variable payload +:+ more in
  let lenBy := JS.len (mqttPacketLength (JS.len variable + JS.len payload)) in
  let type := Z.shiftr cmd 4 in
  on_data data m =
    (fst (on_packet type data (variable +:+ payload +:+ JS.substr more 0 (lenBy + 1)) m),
     (if nonempty more then [ClientData more] else [])
     ++ (if type =? PINGRESP then [] else [Pinger])
     ++ snd (on_packet type data
               (variable +:+ payload +:+ JS.substr more 0 (lenBy + 1)) m)).
Proof.
  intros Hpart Hcmd Hn data lenBy type.
  pose proof (len_nonneg variable). pose proof (len_nonneg payload).
  pose proof (len_nonneg more).
  set (n := JS.len variable + JS.len payload) in *.
  set (enc := mqttPacketLength n) in *.
  assert (data = fromCharCode cmd +:+ enc +:+ variable +:+ payload +:+ more) as Hdata.
  { unfold data, mqttPacket. by rewrite !app_assoc_str. }
  destruct (length_round_trip n "" ltac:(lia)) as [_ Hlen]. fold enc in Hlen. fold lenBy in Hlen.
  assert (JS.len data = 1 + lenBy + n + JS.len more) as Hsize.
  { rewrite Hdata, !len_app. change (JS.len (fromCharCode cmd)) with 1. unfold n, lenBy. lia. }
  assert (mqttPacketLengthDec (JS.substr data 1 5) = DecLen n lenBy) as Hdec.
  { rewrite Hdata.
    rewrite (substr_skip (fromCharCode cmd) _ 5 : JS.substr _ 1 5 = _).
    replace 5 with (JS.len enc + (5 - lenBy)) by (unfold lenBy; lia).
    rewrite substr_0_app by lia.
    apply length_round_trip. lia. }
  unfold on_data. rewrite Hpart. cbn [nonempty]. fold data.
  rewrite Hdec.
  replace (JS.len data <? n + lenBy + 1) with false by (symmetry; apply Z.ltb_ge; lia).
  assert (code (charCodeAt data 0) = cmd) as ->.
  { rewrite Hdata. by rewrite charCodeAt_head by lia. }
  fold type.
  assert (JS.substr data (lenBy + 1) (n + lenBy + 1)
          = variable +:+ payload +:+ JS.substr more 0 (lenBy + 1)) as ->.
  { rewrite Hdata.
    rewrite <- (app_assoc_str (fromCharCode cmd) enc).
    replace (lenBy + 1) with (JS.len (fromCharCode cmd +:+ enc)) at 1
      by (rewrite len_app; change (JS.len (fromCharCode cmd)) with 1; unfold lenBy; lia).
    rewrite substr_skip.
    rewrite <- (app_assoc_str variable payload).
    replace (n + lenBy + 1) with (JS.len (variable +:+ payload) + (lenBy + 1))
      by (rewrite len_app; unfold n; lia).
    rewrite substr_0_app by lia. by rewrite app_assoc_str. }
  assert ((if n + lenBy + 1 <? JS.len data
           then [ClientData (JS.substr_from data (n + lenBy + 1))] else [])
          = (if nonempty more then [ClientData more] else [])) as ->.
  { rewrite nonempty_len.
    destruct (0 <? JS.len more) eqn:Hm.
    - apply Z.ltb_lt in Hm.
      replace (n + lenBy + 1 <? JS.len data) with true by (symmetry; apply Z.ltb_lt; lia).
      do 2 f_equal.
      replace (n + lenBy + 1) with (JS.len (mqttPacket cmd variable payload)).
      + apply substr_from_skip.
      + unfold data in Hsize. rewrite len_app in Hsize. lia.
    - apply Z.ltb_ge in Hm.
      by replace (n + lenBy + 1 <? JS.len data) with false by (symmetry; apply Z.ltb_ge; lia). }
  by destruct (on_packet type data _ m).
Qed.

(** What was kept from earlier chunks counts as the head of the chunk. *)
Lemma on_data_partData (data : string) (m : mqo) :
  on_data data m
  = on_data (partData m +:+ data) (Mqo "" (connected m) (ctimo m)).
Proof.
  destruct m as [p c t]. destruct p as [|a p]; [done|].
  unfold on_data. cbn [partData nonempty connected ctimo]. done.
Qed.

Lemma app_eq_app_str (a b c d : string) :
  a +:+ b = c +:+ d ->
  (exists x, a = c +:+ x /\ d = x +:+ b) \/ (exists x, c = a +:+ x /\ b = x +:+ d).
Proof.
  revert c. induction a as [|ch a IH]; intros c H.
  - right. exists c. by simpl in *.
  - destruct c as [|ch' c].
    + left. exists (String ch a). by simpl in *.
    + simpl in H. injection H as -> H.
      destruct (IH c H) as [[x [-> ->]] | [x [-> ->]]]; [left | right]; by exists x.
Qed.

Lemma len_zero_empty (s : string) : JS.len s = 0 -> s = "".
Proof. by destruct s. Qed.

(** Cutting an encoded length short leaves only bytes that announce a
    further one: the decoder reads them and one byte more. *)
Lemma decode_cut_length (n : Z) (e x : string) :
  0 <= n < 2097152 ->
  mqttPacketLength n = e +:+ x -> x <> "" ->
  exists d, 0 <= d /\ mqttPacketLengthDec e = DecLen d (JS.len e + 1).
Proof.
  intros Hn He Hx. unfold mqttPacketLengthDec.
  pose proof (Z.mod_pos_bound n 128 ltac:(lia)) as Hm.
  pose proof (Z.mod_pos_bound (n / 128) 128 ltac:(lia)) as Hm2.
  assert (decode_length 5 "" 1 0 0 = DecLen 0 (JS.len "" + 1)) as Hnil
    by (apply decode_length_end; [lia | done]).
  assert (forall a, 0 <= a < 128 ->
            decode_length 5 (fromCharCode (a + 128)) 1 0 0
            = DecLen a (JS.len (fromCharCode (a + 128)) + 1)) as Hone.
  { intros a Ha.
    rewrite <- (app_nil_r_str (fromCharCode (a + 128))) at 1.
    rewrite (decode_length_more _ _ _ _ _ a) by (try lia; apply charCodeAt_head; lia).
    rewrite decode_length_end by (try lia; rewrite charCodeAt_tail by lia; done).
    f_equal; first [lia | reflexivity]. }
  assert (forall a b, 0 <= a < 128 -> 0 <= b < 128 ->
            decode_length 5 (fromCharCode (a + 128) +:+ fromCharCode (b + 128)) 1 0 0
            = DecLen (a + 128 * b)
                (JS.len (fromCharCode (a + 128) +:+ fromCharCode (b + 128)) + 1)) as Htwo.
  { intros a b Ha Hb.
    rewrite <- (app_nil_r_str (fromCharCode (b + 128))) at 1.
    rewrite (decode_length_more _ _ _ _ _ a) by (try lia; apply charCodeAt_head; lia).
    rewrite (decode_length_more _ _ _ _ _ b)
      by (try lia; rewrite charCodeAt_tail by lia; apply charCodeAt_head; lia).
    rewrite decode_length_end by (try lia; rewrite !charCodeAt_tail by lia; done).
    f_equal; first [lia | reflexivity]. }
  assert (n < 128 \/ 128 <= n < 16384 \/ 16384 <= n) as [H1 | [H2 | H3]] by lia.
  - rewrite mqttPacketLength_1 in He by lia.
    destruct e as [|c1 e]; [exists 0; split; [lia | exact Hnil]|].
    unfold fromCharCode in He. simpl in He. injection He as _ He.
    destruct e; [|done]. simpl in He. by subst x.
  - rewrite mqttPacketLength_2 in He by lia.
    destruct e as [|c1 e]; [exists 0; split; [lia | exact Hnil]|].
    unfold fromCharCode in He. simpl in He. injection He as <- He.
    destruct e as [|c2 e]; [exists (n mod 128); split; [lia | exact (Hone _ Hm)]|].
    simpl in He. injection He as _ He.
    destruct e; [|done]. simpl in He. by subst x.
  - rewrite mqttPacketLength_3 in He by lia.
    destruct e as [|c1 e]; [exists 0; split; [lia | exact Hnil]|].
    unfold fromCharCode in He. simpl in He. injection He as <- He.
    destruct e as [|c2 e]; [exists (n mod 128); split; [lia | exact (Hone _ Hm)]|].
    simpl in He. injection He as <- He.
    destruct e as [|c3 e];
      [exists (n mod 128 + 128 * (n / 128 mod 128)); split; [lia | exact (Htwo _ _ Hm Hm2)]|].
    simpl in He. injection He as _ He.
    destruct e; [|done]. simpl in He. by subst x.
Qed.

(** A chunk that ends inside a packet is kept, and nothing else happens. *)
Lemma on_data_prefix (c t : bool) (cmd : Z) (variable payload d x : string) :
  0 <= cmd < 256 ->
  JS.len variable + JS.len payload < 2097152 ->
  mqttPacket cmd variable payload = d +:+ x -> x <> "" ->
  on_data d (Mqo "" c t) = (Mqo d c t, []).
Proof.
  intros Hcmd Hn Hd Hx.
  pose proof (len_nonneg variable). pose proof (len_nonneg payload).
  set (n := JS.len variable + JS.len payload) in *.
  assert (forall dl lb, mqttPacketLengthDec (JS.substr d 1 5) = DecLen dl lb ->
            JS.len d < dl + lb + 1 ->
            on_data d (Mqo "" c t) = (Mqo d c t, [])) as Hstore.
  { intros dl lb Hdec Hlt.
    unfold on_data. cbn [partData nonempty connected ctimo]. rewrite Hdec.
    by replace (JS.len d <? dl + lb + 1) with true by (symmetry; apply Z.ltb_lt; lia). }
  unfold mqttPacket in Hd. fold n in Hd.
  destruct d as [|c0 d].
  { apply (Hstore 0 1); [|done].
    change (JS.substr "" 1 5) with "". unfold mqttPacketLengthDec.
    by rewrite decode_length_end by (try lia; done). }
  unfold fromCharCode in Hd at 1. simpl in Hd. injection Hd as <- Hd.
  set (c0 := ascii_of_N (Z.to_N (cmd `mod` 256))) in *.
  assert (JS.substr (String c0 d) 1 5 = JS.substr d 0 5) as Hsub
    by exact (substr_skip (String c0 "") d 5).
  assert (JS.len (String c0 d) = 1 + JS.len d) as Hsize
    by exact (len_app (String c0 "") d).
  pose proof (len_nonneg d).
  destruct (app_eq_app_str _ _ _ _ Hd) as [[y [Henc Hy]] | [y [Hdy Hy]]].
  - (* the chunk ends inside the length, or right after it *)
    destruct (length_round_trip n "" ltac:(lia)) as [_ Hlen].
    destruct y as [|cy y].
    + (* right after it: the body is not empty, being [x] *)
      rewrite app_nil_r_str in Henc. simpl in Hy. subst x.
      assert (0 < n).
      { assert (JS.len (variable +:+ payload) <> 0)
          by (intros Hz; apply Hx, len_zero_empty, Hz).
        rewrite len_app in *. lia. }
      apply (Hstore n (JS.len d)); [|lia].
      rewrite Hsub, <- Henc.
      rewrite (substr_whole _ 5) by lia.
      rewrite <- (app_nil_r_str (mqttPacketLength n)) at 1.
      apply length_round_trip. lia.
    + destruct (decode_cut_length n d (String cy y) ltac:(lia) Henc ltac:(done))
        as (dl & Hdl & Hdec).
      assert (JS.len d < 3).
      { apply (f_equal JS.len) in Henc. rewrite len_app in Henc.
        assert (0 < JS.len (String cy y)) by (unfold JS.len; simpl; lia). lia. }
      apply (Hstore dl (JS.len d + 1)); [|lia].
      rewrite Hsub. by rewrite (substr_whole _ 5) by lia.
  - (* the chunk ends inside the body *)
    destruct (length_round_trip n (JS.substr y 0 (5 - JS.len (mqttPacketLength n)))
                ltac:(lia)) as [Hdec Hlen].
    assert (JS.len (variable +:+ payload) = JS.len y + JS.len x) as Hbody
      by (rewrite Hy; apply len_app).
    assert (0 < JS.len x).
    { pose proof (len_nonneg x).
      destruct (Z.eq_dec (JS.len x) 0) as [Hz|]; [|lia].
      by apply len_zero_empty in Hz. }
    rewrite len_app in Hbody.
    apply (Hstore n (JS.len (mqttPacketLength n))).
    + rewrite Hsub, Hdy.
      replace 5 with (JS.len (mqttPacketLength n) + (5 - JS.len (mqttPacketLength n))) at 1
        by lia.
      rewrite substr_0_app by lia. exact Hdec.
    + rewrite Hsize, Hdy, len_app. lia.
Qed.

(** X24: a packet may arrive in pieces.  While what has arrived so far
    (kept data included) still ends inside the packet, the handler only
    keeps it: nothing is emitted or written; and the next chunk is then
    handled exactly as if it had arrived joined to this one. *)
Theorem packet_in_pieces (m : mqo) (cmd : Z) (variable payload d1 x d2 : string) :
  0 <= cmd < 256 ->
  JS.len variable + JS.len payload < 2097152 ->
  mqttPacket cmd variable payload = partData m +:+ d1 +:+ x -> x <> "" ->
  on_data d1 m = (Mqo (partData m +:+ d1) (connected m) (ctimo m), [])
  /\ on_data d2 (fst (on_data d1 m)) = on_data (d1 +:+ d2) m.
Proof.
  intros Hcmd Hn HP Hx.
  assert (on_data d1 m = (Mqo (partData m +:+ d1) (connected m) (ctimo m), [])) as H1.
  { rewrite on_data_partData.
    apply (on_data_prefix _ _ cmd variable payload _ x); try done.
    by rewrite app_assoc_str. }
  split; [done|].
  rewrite H1. cbn [fst].
  rewrite (on_data_partData d2), (on_data_partData (d1 +:+ d2)).
  cbn [partData connected ctimo]. by rewrite app_assoc_str.
Qed.

Lemma packet_in_pieces_witness :
  let m := Mqo "" true false in
  let d1 := String (ascii_of_N 48) (String (ascii_of_N 5) (String (ascii_of_N 0) "")) in
  on_data d1 m = (Mqo (partData m +:+ d1) (connected m) (ctimo m), [])
  /\ on_data "more" (fst (on_data d1 m)) = on_data (d1 +:+ "more") m.
Proof.
  apply (packet_in_pieces (Mqo "" true false) 48 (mqttStr "a") "hi"
           (String (ascii_of_N 48) (String (ascii_of_N 5) (String (ascii_of_N 0) "")))
           (String (ascii_of_N 1) "ahi") "more");
    [lia | vm_compute; done | vm_compute; reflexivity | done].
Defined.

Lemma two_bytes_join (x : Z) :
  0 <= x -> Z.lor (Z.shiftl (Z.shiftr x 8) 8) (Z.land x 255) = x.
Proof.
  intros Hx. apply Z.bits_inj'. intros k Hk.
  rewrite Z.lor_spec, Z.land_spec.
  change 255 with (Z.ones 8).
  destruct (Z.lt_ge_cases k 8) as [Hlt | Hge].
  - rewrite Z.shiftl_spec_low by lia.
    rewrite Z.ones_spec_low by lia. by rewrite andb_true_r.
  - rewrite Z.shiftl_spec by lia. rewrite Z.shiftr_spec by lia.
    rewrite Z.ones_spec_high by lia.
    rewrite andb_false_r, orb_false_r. f_equal. lia.
Qed.

Lemma charAt_head (b : Z) (s : string) :
  charAt (fromCharCode b +:+ s) 0 = fromCharCode b.
Proof. done. Qed.

(** [parsePublish] reads back the topic written by [mqttStr], and takes
    all that follows it as the message. *)
Lemma parsePublish_body (cmd : Z) (topic rest : string) :
  0 <= cmd < 256 -> JS.len topic < 65536 ->
  parsePublish (fromCharCode cmd +:+ mqttStr topic +:+ rest)
  = Some (Publish topic rest
            (Z.shiftr (Z.land cmd 8) 3) (Z.shiftr (Z.land cmd 6) 1) (Z.land cmd 1)).
Proof.
  intros Hcmd Htopic. pose proof (len_nonneg topic) as Ht. pose proof (len_nonneg rest).
  unfold mqttStr. rewrite to_int32_small by lia.
  set (hi := Z.shiftr (JS.len topic) 8). set (lo := Z.land (JS.len topic) 255).
  assert (0 <= hi < 256) as Hhi.
  { unfold hi. rewrite Z.shiftr_div_pow2 by lia. change (2 ^ 8) with 256.
    split; [apply Z.div_pos; lia | apply Z.div_lt_upper_bound; lia]. }
  assert (0 <= lo < 256) as Hlo.
  { unfold lo. change 255 with (Z.ones 8). rewrite Z.land_ones by lia.
    apply Z.mod_pos_bound. lia. }
  set (head := fromCharCode cmd +:+ fromCharCode hi +:+ fromCharCode lo).
  assert (fromCharCode cmd +:+ (fromCharCode hi +:+ fromCharCode lo +:+ topic) +:+ rest
          = head +:+ topic +:+ rest) as Hd by (by rewrite !app_assoc_str).
  rewrite Hd.
  assert (JS.len (head +:+ topic +:+ rest) = 3 + JS.len topic + JS.len rest) as Hsize
    by (rewrite !len_app; change (JS.len head) with 3; lia).
  unfold parsePublish. rewrite Hsize.
  replace (3 <=? 3 + JS.len topic + JS.len rest) with true
    by (symmetry; apply Z.leb_le; lia).
  assert (charCodeAt (head +:+ topic +:+ rest) 0 = Some cmd) as ->
    by (unfold head; rewrite !app_assoc_str; apply charCodeAt_head; lia).
  assert (charCodeAt (head +:+ topic +:+ rest) 1 = Some hi) as ->.
  { unfold head. rewrite !app_assoc_str.
    rewrite (charCodeAt_tail cmd _ 0 ltac:(lia) : charCodeAt _ 1 = _).
    apply charCodeAt_head. lia. }
  assert (charCodeAt (head +:+ topic +:+ rest) 2 = Some lo) as ->.
  { unfold head. rewrite !app_assoc_str.
    rewrite (charCodeAt_tail cmd _ 1 ltac:(lia) : charCodeAt _ 2 = _).
    rewrite (charCodeAt_tail hi _ 0 ltac:(lia) : charCodeAt _ 1 = _).
    apply charCodeAt_head. lia. }
  cbn [code default from_option id].
  unfold hi, lo. rewrite two_bytes_join by lia.
  do 2 f_equal.
  - exact (substr_inside head topic rest).
  - rewrite <- app_assoc_str.
    replace (3 + JS.len topic) with (JS.len (head +:+ topic))
      by (rewrite len_app; change (JS.len head) with 3; lia).
    rewrite substr_skip. apply substr_whole.
    rewrite !len_app. pose proof (len_nonneg head). lia.
Qed.

Lemma len_mqttStr (s : string) : JS.len (mqttStr s) = 2 + JS.len s.
Proof.
  unfold mqttStr. rewrite !len_app.
  change (JS.len (fromCharCode ?x)) with 1. lia.
Qed.

(** A chunk that begins with a whole PUBLISH packet. *)
Lemma on_data_publish (m : mqo) (cmd : Z) (topic pid message more : string) :
  partData m = "" ->
  0 <= cmd < 256 -> Z.shiftr cmd 4 = PUBLISH ->
  JS.len topic < 65536 ->
  JS.len (mqttStr topic +:+ pid) + JS.len message < 2097152 ->
  let lenBy :=
    JS.len (mqttPacketLength (JS.len (mqttStr topic +:+ pid) + JS.len message)) in
  let received := pid +:+ message +:+ JS.substr more 0 (lenBy + 1) in
  let parsedData :=
    Publish topic received
      (Z.shiftr (Z.land cmd 8) 3) (Z.shiftr (Z.land cmd 6) 1) (Z.land cmd 1) in
  on_data (mqttPacket cmd (mqttStr topic +:+ pid) message +:+ more) m
  = (m, (if nonempty more then [ClientData more] else [])
        ++ [Pinger; Emit (EvPublish parsedData); Emit (EvMessage topic received)]).
Proof.
  intros Hpart Hcmd Htype Htopic Hn lenBy received parsedData.
  rewrite on_data_packet by done. fold lenBy. rewrite Htype.
  change (PUBLISH =? PINGRESP) with false. cbv iota.
  unfold on_packet. change (PUBLISH =? PUBLISH) with true. cbv iota.
  assert (charAt (mqttPacket cmd (mqttStr topic +:+ pid) message +:+ more) 0
          = fromCharCode cmd) as ->.
  { unfold mqttPacket. rewrite !app_assoc_str. apply charAt_head. }
  rewrite (app_assoc_str (mqttStr topic) pid).
  rewrite parsePublish_body by done.
  done.
Qed.

(** X25: a message published with QoS 0 comes back unchanged: when the
    packet written by [mqttPublish] is received whole and alone, the
    handler emits ['publish'] and ['message'] with the topic and the
    message that were published, restarts the keep-alive, and keeps
    nothing for later. *)
Theorem publish_round_trip (m : mqo) (pid topic message : string) :
  partData m = "" ->
  JS.len topic < 65536 ->
  JS.len topic + JS.len message < 2097150 ->
  on_data (mqttPublish pid topic message 0) m
  = (m, [Pinger;
         Emit (EvPublish (Publish topic message 0 0 0));
         Emit (EvMessage topic message)]).
Proof.
  intros Hpart Htopic Hn.
  unfold mqttPublish. change (0 <? 0) with false. cbv iota zeta.
  change (Z.lor (Z.shiftl PUBLISH 4) (Z.shiftl 0 1)) with 48.
  rewrite <- (app_nil_r_str (mqttPacket 48 (mqttStr topic) message)).
  rewrite <- (app_nil_r_str (mqttStr topic)).
  assert (JS.len (mqttStr topic +:+ "") = 2 + JS.len topic) as Hv
    by (rewrite app_nil_r_str; apply len_mqttStr).
  rewrite on_data_publish; [|done|lia|done|done|lia].
  cbn [nonempty app].
  rewrite substr_whole
    by (change (JS.len "") with 0;
        match goal with |- 0 <= JS.len ?s + 1 => pose proof (len_nonneg s); lia end).
  by rewrite app_nil_r_str.
Qed.

Lemma publish_round_trip_witness :
  on_data (mqttPublish "" "a/b" "21.5" 0) (Mqo "" true false)
  = (Mqo "" true false,
     [Pinger;
      Emit (EvPublish (Publish "a/b" "21.5" 0 0 0));
      Emit (EvMessage "a/b" "21.5")]).
Proof.
  apply (publish_round_trip (Mqo "" true false) "" "a/b" "21.5");
    [reflexivity | vm_compute; reflexivity | vm_compute; reflexivity].
Defined.

(** X26: what the listeners get for a PUBLISH packet is everything that
    follows the topic in the bytes taken as the packet body.  For QoS 1
    and 2 it begins with the packet identifier; and when more data follows
    the packet in the same chunk, it ends with the first bytes of that
    data (as many as the packet header has), which are also handed back
    to the socket, with the rest, as the next chunk. *)
Theorem publish_as_received (m : mqo) (pid topic message more : string) (q : Z) :
  partData m = "" ->
  0 <= q <= 2 ->
  JS.len topic < 65536 ->
  JS.len topic + JS.len pid + JS.len message < 2097150 ->
  let pid' := if 0 <? q then pid else "" in
  let lenBy :=
    JS.len (mqttPacketLength (2 + JS.len topic + JS.len pid' + JS.len message)) in
  let received := pid' +:+ message +:+ JS.substr more 0 (lenBy + 1) in
  on_data (mqttPublish pid topic message q +:+ more) m
  = (m, (if nonempty more then [ClientData more] else [])
        ++ [Pinger;
            Emit (EvPublish (Publish topic received 0 q 0));
            Emit (EvMessage topic received)]).
Proof.
  intros Hpart Hq Htopic Hn pid' lenBy received.
  pose proof (len_nonneg topic). pose proof (len_nonneg pid).
  pose proof (len_nonneg message).
  assert (JS.len (mqttStr topic +:+ pid') + JS.len message
          = 2 + JS.len topic + JS.len pid' + JS.len message) as Hsize
    by (rewrite len_app, len_mqttStr; lia).
  assert (JS.len pid' <= JS.len pid) as Hpid
    by (unfold pid'; destruct (0 <? q); [lia | done]).
  assert (mqttPublish pid topic message q
          = mqttPacket (Z.lor (Z.shiftl PUBLISH 4) (Z.shiftl q 1))
              (mqttStr topic +:+ pid') message) as ->.
  { unfold mqttPublish, pid'. destruct (0 <? q); [done|].
    by rewrite app_nil_r_str. }
  assert (q = 0 \/ q = 1 \/ q = 2) as Hcase by lia.
  unfold received, lenBy. rewrite <- Hsize.
  destruct Hcase as [-> | [-> | ->]];
    (rewrite on_data_publish; [reflexivity | done | done | reflexivity | done | lia]).
Qed.

Lemma publish_as_received_witness :
  on_data (mqttPublish "ID" "t" "on" 1 +:+ "NEXT") (Mqo "" true false)
  = (Mqo "" true false,
     [ClientData "NEXT"; Pinger;
      Emit (EvPublish (Publish "t" "IDonNE" 0 1 0));
      Emit (EvMessage "t" "IDonNE")]).
Proof.
  apply (publish_as_received (Mqo "" true false) "ID" "t" "on" "NEXT" 1);
    [reflexivity | lia | vm_compute; reflexivity | vm_compute; reflexivity].
Defined.

Lemma packet_type (t flags : Z) :
  0 <= flags < 16 -> Z.shiftr (16 * t + flags) 4 = t.
Proof.
  intros Hf. rewrite Z.shiftr_div_pow2 by lia. change (2 ^ 4) with 16.
  symmetry. apply (Z.div_unique _ 16 t flags); lia.
Qed.

(** X27: keep-alive.  A ping request (first byte 192 plus any flags) is
    answered by writing a ping response, and a ping response (208 plus
    any flags) is reported as ['ping_reply']; the ping response is the
    one packet that does not restart the keep-alive interval.  In both
    cases the data after the packet is handed back to the socket and the
    client object is left as it was. *)
Theorem ping_packets (m : mqo) (flags : Z) (variable payload more : string) :
  partData m = "" ->
  0 <= flags < 16 ->
  JS.len variable + JS.len payload < 2097152 ->
  let handed_back := if nonempty more then [ClientData more] else [] in
  on_data (mqttPacket (192 + flags) variable payload +:+ more) m
  = (m, handed_back ++ [Pinger; ClientWrite (fromCharCode 208 +:+ fromCharCode 0)])
  /\ on_data (mqttPacket (208 + flags) variable payload +:+ more) m
     = (m, handed_back ++ [Emit EvPingReply]).
Proof.
  intros Hpart Hf Hn handed_back.
  split; rewrite on_data_packet by (try done; lia).
  - rewrite (packet_type 12 flags Hf : Z.shiftr (192 + flags) 4 = 12). reflexivity.
  - rewrite (packet_type 13 flags Hf : Z.shiftr (208 + flags) 4 = 13). reflexivity.
Qed.

Lemma ping_packets_witness :
  on_data (mqttPacket (192 + 0) "" "" +:+ "") (Mqo "" true false)
  = (Mqo "" true false,
     [] ++ [Pinger; ClientWrite (fromCharCode 208 +:+ fromCharCode 0)])
  /\ on_data (mqttPacket (208 + 0) "" "" +:+ "") (Mqo "" true false)
     = (Mqo "" true false, [] ++ [Emit EvPingReply]).
Proof.
  apply (ping_packets (Mqo "" true false) 0 "" "" "");
    [reflexivity | lia | vm_compute; reflexivity].
Defined.
